(** * LSDAMM mesh core: membership engine, coordinator and instance manager

    A shallow embedding of [src/native/src/mesh/swim_gossip.c],
    [node_coordinator.c] and [node_manager.c], and the properties of the
    specification that concern them.

    Conventions of the embedding.
    - C integers are [Z]; every store into a fixed-width field is written
      with its wrap-around ([u16], [u32], [u64]).
    - [char] arrays are [string]s (the bytes up to the terminating NUL);
      [strncpy (dst, src, n)] keeps the first [n] characters.
    - A singly linked list is a [list], head first.  A pointer into it is
      the position of the record counted from the head ([node_ptr]).
    - [time(NULL)], the millisecond clock and [rand()] are read by the
      caller of the model and passed in as arguments.
    - [calloc]/[malloc] succeed; logging has no effect on the state; the
      mutexes are not modelled: every operation runs to its end alone,
      and a lock taken twice by one thread is taken as granted, as the
      [CRITICAL_SECTION] of the Windows build grants it.  ([swim_leave]
      and [swim_check_timeouts] call, with the lock held, functions that
      take it again.) *)

From Stdlib Require Import ZArith List String Ascii Bool Lia.
From Stdlib Require Import DecimalString.
Import ListNotations.
Open Scope Z_scope.

Set Implicit Arguments.

(* ================================================================= *)
(** ** Machine integers and C strings *)

Definition wrap (bits z : Z) : Z := z mod 2 ^ bits.
Definition u8 := wrap 8.
Definition u16 := wrap 16.
Definition u32 := wrap 32.
Definition u64 := wrap 64.

(** [strncpy (dst, src, n)] into a zeroed buffer of [n + 1] bytes. *)
Definition strncpy (n : nat) (src : string) : string := substring 0 n src.

(** [strcmp (a, b) == 0] *)
Definition streq (a b : string) : bool := String.eqb a b.

(** Conversion of an integer to [bool]: non-zero is [true]. *)
Definition to_bool (z : Z) : bool := negb (z =? 0).

(** [%d] / [%ld] of [printf]. *)
Definition fmt_d (z : Z) : string := NilZero.string_of_int (Z.to_int z).

(** Replace the record at position [p]. *)
Fixpoint store (A : Type) (p : nat) (x : A) (l : list A) : list A :=
  match l, p with
  | [], _ => []
  | _ :: t, O => x :: t
  | h :: t, S p' => h :: store p' x t
  end.

(** Position of the first record that satisfies [f]. *)
Fixpoint find_ptr (A : Type) (f : A -> bool) (l : list A) : option nat :=
  match l with
  | [] => None
  | h :: t => if f h then Some O else option_map S (find_ptr f t)
  end.

(* ================================================================= *)
(** ** Membership engine ([swim_gossip.h], [swim_gossip.c]) *)

Module Swim.

Definition SWIM_NODE_ID_SIZE : nat := 64.
Definition SWIM_DEFAULT_PORT : Z := 7946.
Definition SWIM_DEFAULT_INTERVAL : Z := 1000.
Definition SWIM_PROBE_TIMEOUT : Z := 500.
Definition SWIM_SUSPECT_TIMEOUT : Z := 5000.

(** [swim_node_state_t].  The enumeration is an integer in C and the Sync
    handler stores a received byte into it with a cast, so the model keeps
    the integer. *)
Definition swim_node_state_t := Z.
Definition NODE_STATE_ALIVE : swim_node_state_t := 0.
Definition NODE_STATE_SUSPECT : swim_node_state_t := 1.
Definition NODE_STATE_DEAD : swim_node_state_t := 2.
Definition NODE_STATE_LEFT : swim_node_state_t := 3.

(** [swim_message_type_t], carried in the [uint8_t type] of the header. *)
Definition SWIM_MSG_PING : Z := 0.
Definition SWIM_MSG_PING_REQ : Z := 1.
Definition SWIM_MSG_ACK : Z := 2.
Definition SWIM_MSG_SYNC : Z := 3.
Definition SWIM_MSG_COMPOUND : Z := 4.

Record swim_node_t := mk_node {
  node_id : string;
  node_address : string;
  node_port : Z;
  node_state : swim_node_state_t;
  node_incarnation : Z;
  node_last_seen : Z;
  node_state_change_time : Z;
  node_ping_seq : Z;
  node_is_local : bool;
  node_is_main_node : bool
}.

Record swim_message_header_t := mk_header {
  hdr_version : Z;
  hdr_type : Z;
  hdr_payload_len : Z;
  hdr_seq_num : Z;
  hdr_sender_id : string;
  hdr_incarnation : Z
}.

Record swim_node_update_t := mk_update {
  upd_id : string;
  upd_address : string;
  upd_port : Z;
  upd_state : Z;
  upd_incarnation : Z;
  upd_is_main_node : Z
}.

(** Sizes of the wire structures (natural alignment, 4-byte [uint32_t]):
    header 1+1+2+4+64+4; sync header + 4; update 64+64+2+1(+1)+4+1(+3). *)
Definition sizeof_swim_message_header_t : Z := 76.
Definition sizeof_swim_sync_t : Z := 80.
Definition sizeof_swim_node_update_t : Z := 140.
Definition sizeof_swim_ping_t : Z := 140.
Definition sizeof_swim_ping_req_t : Z := 204.
Definition sizeof_swim_ack_t : Z := 1168.

Record swim_context_t := mk_ctx {
  ctx_local_id : string;
  ctx_port : Z;
  ctx_incarnation : Z;
  ctx_seq_num : Z;
  ctx_nodes : list swim_node_t;
  ctx_node_count : Z;
  ctx_is_running : bool;
  ctx_is_main_node : bool;
  ctx_gossip_interval_ms : Z;
  ctx_probe_timeout_ms : Z;
  ctx_suspect_timeout_ms : Z;
  ctx_messages_sent : Z;
  ctx_messages_received : Z;
  ctx_probe_success : Z;
  ctx_probe_failure : Z
}.

(** Field updates. *)
Definition node_with_state (s t : Z) (n : swim_node_t) : swim_node_t :=
  mk_node (node_id n) (node_address n) (node_port n) s (node_incarnation n)
          (node_last_seen n) t (node_ping_seq n) (node_is_local n)
          (node_is_main_node n).
Definition node_with_incarnation (i : Z) (n : swim_node_t) : swim_node_t :=
  mk_node (node_id n) (node_address n) (node_port n) (node_state n) i
          (node_last_seen n) (node_state_change_time n) (node_ping_seq n)
          (node_is_local n) (node_is_main_node n).
Definition node_with_last_seen (t : Z) (n : swim_node_t) : swim_node_t :=
  mk_node (node_id n) (node_address n) (node_port n) (node_state n)
          (node_incarnation n) t (node_state_change_time n) (node_ping_seq n)
          (node_is_local n) (node_is_main_node n).
Definition node_with_ping_seq (q : Z) (n : swim_node_t) : swim_node_t :=
  mk_node (node_id n) (node_address n) (node_port n) (node_state n)
          (node_incarnation n) (node_last_seen n) (node_state_change_time n)
          q (node_is_local n) (node_is_main_node n).
Definition node_with_is_main (b : bool) (n : swim_node_t) : swim_node_t :=
  mk_node (node_id n) (node_address n) (node_port n) (node_state n)
          (node_incarnation n) (node_last_seen n) (node_state_change_time n)
          (node_ping_seq n) (node_is_local n) b.
Definition node_with_is_local (b : bool) (n : swim_node_t) : swim_node_t :=
  mk_node (node_id n) (node_address n) (node_port n) (node_state n)
          (node_incarnation n) (node_last_seen n) (node_state_change_time n)
          (node_ping_seq n) b (node_is_main_node n).

Definition ctx_with_nodes (l : list swim_node_t) (k : Z) (c : swim_context_t) :=
  mk_ctx (ctx_local_id c) (ctx_port c) (ctx_incarnation c) (ctx_seq_num c)
         l k (ctx_is_running c) (ctx_is_main_node c)
         (ctx_gossip_interval_ms c) (ctx_probe_timeout_ms c)
         (ctx_suspect_timeout_ms c) (ctx_messages_sent c)
         (ctx_messages_received c) (ctx_probe_success c) (ctx_probe_failure c).
Definition ctx_with_main (b : bool) (i : Z) (c : swim_context_t) :=
  mk_ctx (ctx_local_id c) (ctx_port c) i (ctx_seq_num c)
         (ctx_nodes c) (ctx_node_count c) (ctx_is_running c) b
         (ctx_gossip_interval_ms c) (ctx_probe_timeout_ms c)
         (ctx_suspect_timeout_ms c) (ctx_messages_sent c)
         (ctx_messages_received c) (ctx_probe_success c) (ctx_probe_failure c).
Definition ctx_with_seq_num (q : Z) (c : swim_context_t) :=
  mk_ctx (ctx_local_id c) (ctx_port c) (ctx_incarnation c) q
         (ctx_nodes c) (ctx_node_count c) (ctx_is_running c)
         (ctx_is_main_node c)
         (ctx_gossip_interval_ms c) (ctx_probe_timeout_ms c)
         (ctx_suspect_timeout_ms c) (ctx_messages_sent c)
         (ctx_messages_received c) (ctx_probe_success c) (ctx_probe_failure c).
Definition ctx_with_running (b : bool) (c : swim_context_t) :=
  mk_ctx (ctx_local_id c) (ctx_port c) (ctx_incarnation c) (ctx_seq_num c)
         (ctx_nodes c) (ctx_node_count c) b (ctx_is_main_node c)
         (ctx_gossip_interval_ms c) (ctx_probe_timeout_ms c)
         (ctx_suspect_timeout_ms c) (ctx_messages_sent c)
         (ctx_messages_received c) (ctx_probe_success c) (ctx_probe_failure c).
Definition ctx_with_stats (snt rcv ok ko : Z) (c : swim_context_t) :=
  mk_ctx (ctx_local_id c) (ctx_port c) (ctx_incarnation c) (ctx_seq_num c)
         (ctx_nodes c) (ctx_node_count c) (ctx_is_running c)
         (ctx_is_main_node c)
         (ctx_gossip_interval_ms c) (ctx_probe_timeout_ms c)
         (ctx_suspect_timeout_ms c) snt rcv ok ko.

Definition ctx_set_nodes (l : list swim_node_t) (c : swim_context_t) :=
  ctx_with_nodes l (ctx_node_count c) c.
Definition ctx_bump_sent (c : swim_context_t) :=
  ctx_with_stats (u64 (ctx_messages_sent c + 1)) (ctx_messages_received c)
                 (ctx_probe_success c) (ctx_probe_failure c) c.
Definition ctx_bump_received (c : swim_context_t) :=
  ctx_with_stats (ctx_messages_sent c) (u64 (ctx_messages_received c + 1))
                 (ctx_probe_success c) (ctx_probe_failure c) c.
Definition ctx_bump_probe_success (c : swim_context_t) :=
  ctx_with_stats (ctx_messages_sent c) (ctx_messages_received c)
                 (u64 (ctx_probe_success c + 1)) (ctx_probe_failure c) c.
Definition ctx_bump_probe_failure (c : swim_context_t) :=
  ctx_with_stats (ctx_messages_sent c) (ctx_messages_received c)
                 (ctx_probe_success c) (u64 (ctx_probe_failure c + 1)) c.

(** A pointer to a node record: its position in [ctx->nodes]. *)
Definition node_ptr := nat.

Definition deref (c : swim_context_t) (p : node_ptr) : option swim_node_t :=
  nth_error (ctx_nodes c) p.

(** [node->field = ...] through a pointer. *)
Definition assign (p : node_ptr) (f : swim_node_t -> swim_node_t)
           (c : swim_context_t) : swim_context_t :=
  match deref c p with
  | Some n => ctx_set_nodes (store p (f n) (ctx_nodes c)) c
  | None => c
  end.

(** [swim_create_node] *)
Definition swim_create_node (now : Z) (id address : string) (port : Z)
  : swim_node_t :=
  mk_node (strncpy (SWIM_NODE_ID_SIZE - 1) id) (strncpy 63 address) port
          NODE_STATE_ALIVE 1 now now 0 false false.

(** [swim_find_node]: the first record whose id compares equal. *)
Definition swim_find_node (c : swim_context_t) (id : string) : option node_ptr :=
  find_ptr (fun n => streq (node_id n) id) (ctx_nodes c).

(** [swim_get_local_node]: the first record flagged [is_local]. *)
Definition swim_get_local_node (c : swim_context_t) : option node_ptr :=
  find_ptr node_is_local (ctx_nodes c).

(** [swim_get_node_count] *)
Definition swim_get_node_count (c : swim_context_t) (st : swim_node_state_t) : Z :=
  u32 (Z.of_nat (List.length (filter (fun n => node_state n =? st) (ctx_nodes c)))).

(** [swim_get_nodes] *)
Definition swim_get_nodes (c : swim_context_t) (max_nodes : Z) : list swim_node_t :=
  firstn (Z.to_nat max_nodes) (ctx_nodes c).

(** [swim_set_main_node] *)
Definition swim_set_main_node (is_main : bool) (c : swim_context_t)
  : swim_context_t :=
  let c1 := ctx_with_main is_main (ctx_incarnation c) c in
  match swim_get_local_node c1 with
  | Some local =>
      let c2 := assign local (node_with_is_main is_main) c1 in
      ctx_with_main is_main (u32 (ctx_incarnation c2 + 1)) c2
  | None => c1
  end.

(** A run of [swim_set_main_node] calls, first call first. *)
Definition set_main_calls (calls : list bool) (c : swim_context_t)
  : swim_context_t :=
  fold_left (fun c is_main => swim_set_main_node is_main c) calls c.

(** [swim_init].  [sock_ok] says whether the socket could be created and
    bound.  No callback is registered yet, so adding the local node
    notifies nobody. *)
Definition swim_init (sock_ok : bool) (now : Z) (local_id : string)
           (port gossip_interval_ms : Z) : option swim_context_t :=
  let port' := if port =? 0 then SWIM_DEFAULT_PORT else port in
  let interval := if gossip_interval_ms =? 0 then SWIM_DEFAULT_INTERVAL
                  else gossip_interval_ms in
  if sock_ok then
    let local := node_with_is_local true
                   (swim_create_node now local_id "127.0.0.1" port') in
    Some (mk_ctx (strncpy (SWIM_NODE_ID_SIZE - 1) local_id) port' 1 0
                 [local] 1 false false interval SWIM_PROBE_TIMEOUT
                 SWIM_SUSPECT_TIMEOUT 0 0 0 0)
  else None.

(** [swim_start] / [swim_stop]: the flag that guards the worker loop. *)
Definition swim_start (c : swim_context_t) : swim_context_t :=
  if ctx_is_running c then c else ctx_with_running true c.
Definition swim_stop (c : swim_context_t) : swim_context_t :=
  if ctx_is_running c then ctx_with_running false c else c.

(** *** Datagrams *)

(** What the engine hands to [sendto]. *)
Inductive swim_body :=
| BodyPing (target_id : string)
| BodyPingReq (target_id source_id : string)
| BodyAck (target_id : string)
| BodySync (node_count : Z) (updates : list swim_node_update_t).

Record datagram_out := mk_out {
  out_address : string;
  out_port : Z;
  out_len : Z;
  out_header : swim_message_header_t;
  out_body : swim_body
}.

(** What [swim_handle_message] sees through its casts of [data]: the header
    at offset 0, [target_id] of a [swim_ping_req_t] and [node_count] of a
    [swim_sync_t] right behind it, and the array [updates] behind
    [swim_sync_t].  [in_len] is the number of bytes that were received;
    the views exist whether or not they lie inside those bytes. *)
Record datagram_in := mk_in {
  in_len : Z;
  in_header : swim_message_header_t;
  in_target_id : string;
  in_node_count : Z;
  in_updates : nat -> swim_node_update_t
}.

(** Bytes of a Sync frame with [k] records, as [swim_send_sync] computes
    [total_len]. *)
Definition sync_total_len (k : Z) : Z :=
  sizeof_swim_sync_t + k * sizeof_swim_node_update_t.

Definition node_update_of (n : swim_node_t) : swim_node_update_t :=
  mk_update (strncpy (SWIM_NODE_ID_SIZE - 1) (node_id n))
            (strncpy 63 (node_address n)) (node_port n) (u8 (node_state n))
            (node_incarnation n) (if node_is_main_node n then 1 else 0).

Section Engine.

(** [ctx->user_data] and [ctx->on_node_event].  The callback runs in the
    middle of the engine's operation and may work on the engine it was
    called from, so it maps the context and the user data to new ones. *)
Variable U : Type.
Definition swim_node_event_cb : Type :=
  swim_node_t -> swim_node_state_t -> swim_node_state_t ->
  swim_context_t -> U -> swim_context_t * U.
Variable on_node_event : option swim_node_event_cb.

(** Whether [sendto] reports a positive byte count for a datagram. *)
Variable sendto : datagram_out -> bool.

Record world := mk_world {
  w_ctx : swim_context_t;
  w_user : U;
  w_sent : list datagram_out
}.

Definition on_ctx (f : swim_context_t -> swim_context_t) (w : world) : world :=
  mk_world (f (w_ctx w)) (w_user w) (w_sent w).

Definition notify (n : swim_node_t) (old new : swim_node_state_t)
           (w : world) : world :=
  match on_node_event with
  | Some cb => let (c, u) := cb n old new (w_ctx w) (w_user w) in
               mk_world c u (w_sent w)
  | None => w
  end.

(** [swim_update_node_state].  (The log line indexes the four-entry
    [state_names] with both states; that has no effect on the state.) *)
Definition swim_update_node_state (now : Z) (p : node_ptr)
           (new_state : swim_node_state_t) (w : world) : world :=
  match deref (w_ctx w) p with
  | None => w
  | Some node =>
      let old_state := node_state node in
      if old_state =? new_state then w
      else
        let w1 := on_ctx (assign p (node_with_state new_state now)) w in
        notify (node_with_state new_state now node) old_state new_state w1
  end.

(** [swim_add_node] *)
Definition swim_add_node (now : Z) (node : swim_node_t) (w : world) : world :=
  match swim_find_node (w_ctx w) (node_id node) with
  | Some existing =>
      let w1 := on_ctx (assign existing
                          (fun e => node_with_last_seen (node_last_seen node)
                                      (node_with_incarnation
                                         (node_incarnation node) e))) w in
      match deref (w_ctx w1) existing with
      | Some e =>
          if negb (node_state e =? node_state node)
          then swim_update_node_state now existing (node_state node) w1
          else w1
      | None => w1
      end
  | None =>
      let c := w_ctx w in
      let w1 := on_ctx (ctx_with_nodes (node :: ctx_nodes c)
                                       (u32 (ctx_node_count c + 1))) w in
      notify node NODE_STATE_DEAD NODE_STATE_ALIVE w1
  end.

(** [sendto] and the bookkeeping that follows it in every sender. *)
Definition transmit (d : datagram_out) (w : world) : bool * world :=
  let ok := sendto d in
  (ok, mk_world (if ok then ctx_bump_sent (w_ctx w) else w_ctx w)
                (w_user w) (w_sent w ++ [d])).

Definition header_for (ty seq payload_len : Z) (c : swim_context_t)
  : swim_message_header_t :=
  mk_header 1 ty payload_len seq
            (strncpy (SWIM_NODE_ID_SIZE - 1) (ctx_local_id c))
            (ctx_incarnation c).

(** [swim_send_ping] *)
Definition swim_send_ping (target : node_ptr) (w : world) : world :=
  match deref (w_ctx w) target with
  | None => w
  | Some t =>
      let seq := u32 (ctx_seq_num (w_ctx w) + 1) in
      let w1 := on_ctx (ctx_with_seq_num seq) w in
      let d := mk_out (node_address t) (u16 (node_port t)) sizeof_swim_ping_t
                      (header_for SWIM_MSG_PING seq 0 (w_ctx w1))
                      (BodyPing (strncpy (SWIM_NODE_ID_SIZE - 1) (node_id t))) in
      let (ok, w2) := transmit d w1 in
      if ok then on_ctx (assign target (node_with_ping_seq seq)) w2 else w2
  end.

(** [swim_send_ack] *)
Definition swim_send_ack (target : node_ptr) (seq : Z) (w : world) : world :=
  match deref (w_ctx w) target with
  | None => w
  | Some t =>
      let d := mk_out (node_address t) (u16 (node_port t)) sizeof_swim_ack_t
                      (header_for SWIM_MSG_ACK seq 0 (w_ctx w))
                      (BodyAck (strncpy (SWIM_NODE_ID_SIZE - 1) (node_id t))) in
      snd (transmit d w)
  end.

(** The records [swim_send_sync] copies: the list from its head, at most
    50 of them.  (The function builds the frame in [uint8_t buffer[4096]]:
    80 bytes and 140 per record, so the buffer holds 28 records; the model
    describes the frame the loop intends, also for 29 to 50 records, where
    the C code writes past the buffer.) *)
Definition sync_records (c : swim_context_t) : list swim_node_update_t :=
  map node_update_of (firstn 50 (ctx_nodes c)).

(** [swim_send_sync] *)
Definition swim_send_sync (target : node_ptr) (w : world) : world :=
  match deref (w_ctx w) target with
  | None => w
  | Some t =>
      let seq := u32 (ctx_seq_num (w_ctx w) + 1) in
      let w1 := on_ctx (ctx_with_seq_num seq) w in
      let updates := sync_records (w_ctx w1) in
      let count := Z.of_nat (List.length updates) in
      let d := mk_out (node_address t) (u16 (node_port t))
                      (sync_total_len count)
                      (header_for SWIM_MSG_SYNC seq
                         (u16 (count * sizeof_swim_node_update_t)) (w_ctx w1))
                      (BodySync count updates) in
      snd (transmit d w1)
  end.

(** Body of the record loop of the Sync case of [swim_handle_message]
    (one iteration, for [updates[i] = upd]). *)
Definition sync_merge_record (now : Z) (upd : swim_node_update_t)
           (w : world) : world :=
  if streq (upd_id upd) (ctx_local_id (w_ctx w)) then w
  else
    match swim_find_node (w_ctx w) (upd_id upd) with
    | None =>
        let node := swim_create_node now (upd_id upd) (upd_address upd)
                                     (upd_port upd) in
        let node := node_with_is_main (to_bool (upd_is_main_node upd))
                      (node_with_incarnation (upd_incarnation upd)
                         (node_with_state (upd_state upd)
                            (node_state_change_time node) node)) in
        swim_add_node now node w
    | Some p =>
        match deref (w_ctx w) p with
        | None => w
        | Some node =>
            if upd_incarnation upd >? node_incarnation node then
              let w1 := on_ctx (assign p
                          (fun n => node_with_is_main
                                      (to_bool (upd_is_main_node upd))
                                      (node_with_incarnation
                                         (upd_incarnation upd) n))) w in
              if negb (node_state node =? upd_state upd)
              then swim_update_node_state now p (upd_state upd) w1
              else w1
            else w
        end
    end.

(** The loop [for (i = 0; i < sync->node_count; i++)]. *)
Definition sync_merge (now : Z) (dg : datagram_in) (w : world) : world :=
  fold_left (fun w i => sync_merge_record now (in_updates dg i) w)
            (seq 0 (Z.to_nat (in_node_count dg))) w.

(** Find or create the sender, then refresh it. *)
Definition refresh_sender (now : Z) (from_addr : string) (from_port : Z)
           (h : swim_message_header_t) (w : world)
  : option node_ptr * world :=
  let found := swim_find_node (w_ctx w) (hdr_sender_id h) in
  let '(sender, w1) :=
    match found with
    | None =>
        if negb (hdr_type h =? SWIM_MSG_SYNC) then
          let w' := swim_add_node now
                      (swim_create_node now (hdr_sender_id h) from_addr
                                        from_port) w in
          (swim_find_node (w_ctx w') (hdr_sender_id h), w')
        else (None, w)
    | Some p => (Some p, w)
    end in
  match sender with
  | None => (None, w1)
  | Some p =>
      let w2 := on_ctx (assign p (node_with_last_seen now)) w1 in
      let w3 :=
        match deref (w_ctx w2) p with
        | Some s => if negb (node_state s =? NODE_STATE_ALIVE)
                    then swim_update_node_state now p NODE_STATE_ALIVE w2
                    else w2
        | None => w2
        end in
      let w4 :=
        match deref (w_ctx w3) p with
        | Some s => if hdr_incarnation h >? node_incarnation s
                    then on_ctx (assign p (node_with_incarnation
                                             (hdr_incarnation h))) w3
                    else w3
        | None => w3
        end in
      (Some p, w4)
  end.

(** [swim_handle_message] *)
Definition swim_handle_message (now : Z) (from_addr : string)
           (from_port : Z) (dg : datagram_in) (w : world) : world :=
  if in_len dg <? sizeof_swim_message_header_t then w
  else
    let h := in_header dg in
    let w0 := on_ctx ctx_bump_received w in
    let '(sender, w1) := refresh_sender now from_addr from_port h w0 in
    if hdr_type h =? SWIM_MSG_PING then
      match sender with
      | Some p => swim_send_ack p (hdr_seq_num h) w1
      | None => w1
      end
    else if hdr_type h =? SWIM_MSG_PING_REQ then
      match swim_find_node (w_ctx w1) (in_target_id dg) with
      | Some target => swim_send_ping target w1
      | None => w1
      end
    else if hdr_type h =? SWIM_MSG_ACK then
      match sender with
      | Some p =>
          let w2 := on_ctx ctx_bump_probe_success w1 in
          match deref (w_ctx w2) p with
          | Some s => if node_state s =? NODE_STATE_SUSPECT
                      then swim_update_node_state now p NODE_STATE_ALIVE w2
                      else w2
          | None => w2
          end
      | None => w1
      end
    else if hdr_type h =? SWIM_MSG_SYNC then sync_merge now dg w1
    else w1.

(** [swim_process]: handle what [recvfrom] delivers until it reports
    nothing more ([received <= 0]). *)
Fixpoint swim_process (now : Z) (inbox : list (string * Z * datagram_in))
         (w : world) : world :=
  match inbox with
  | [] => w
  | (addr, port, dg) :: rest =>
      if in_len dg <=? 0 then w
      else swim_process now rest (swim_handle_message now addr port dg w)
  end.

(** [swim_select_random_node]; [rnd] is the value of [rand()]. *)
Definition eligible (n : swim_node_t) : bool :=
  negb (node_is_local n) &&
  ((node_state n =? NODE_STATE_ALIVE) || (node_state n =? NODE_STATE_SUSPECT)).

Fixpoint nth_eligible (idx : nat) (p : node_ptr) (l : list swim_node_t)
  : option node_ptr :=
  match l with
  | [] => None
  | n :: t =>
      if eligible n then
        match idx with
        | O => Some p
        | S idx' => nth_eligible idx' (S p) t
        end
      else nth_eligible idx (S p) t
  end.

Definition swim_select_random_node (rnd : Z) (c : swim_context_t)
  : option node_ptr :=
  if ctx_node_count c =? 0 then None
  else
    let count := u32 (Z.of_nat (List.length (filter eligible (ctx_nodes c)))) in
    if count =? 0 then None
    else nth_eligible (Z.to_nat (rnd mod count)) O (ctx_nodes c).

(** [swim_check_timeouts].  [difftime (now, last_seen) * 1000] is exact
    on whole seconds, so the comparison is made on integers. *)
Definition check_timeout_at (now : Z) (w : world) (p : node_ptr) : world :=
  match deref (w_ctx w) p with
  | None => w
  | Some node =>
      if negb (node_is_local node) then
        let since_seen := (now - node_last_seen node) * 1000 in
        if (node_state node =? NODE_STATE_ALIVE) &&
           (since_seen >? ctx_probe_timeout_ms (w_ctx w)) then
          on_ctx ctx_bump_probe_failure
                 (swim_update_node_state now p NODE_STATE_SUSPECT w)
        else if (node_state node =? NODE_STATE_SUSPECT) &&
                (since_seen >? ctx_suspect_timeout_ms (w_ctx w)) then
          swim_update_node_state now p NODE_STATE_DEAD w
        else w
      else w
  end.

Definition swim_check_timeouts (now : Z) (w : world) : world :=
  fold_left (check_timeout_at now)
            (seq 0 (List.length (ctx_nodes (w_ctx w)))) w.

(** [swim_gossip_round].  [sync_counter] is the function's
    [static int sync_counter]: one variable of the process, read and
    written by the rounds of every engine. *)
Definition swim_gossip_round (now rnd : Z) (sync_counter : Z) (w : world)
  : Z * world :=
  let w1 := swim_check_timeouts now w in
  match swim_select_random_node rnd (w_ctx w1) with
  | Some target =>
      let w2 := swim_send_ping target w1 in
      let sync_counter' := sync_counter + 1 in
      if sync_counter' >=? 5
      then (0, swim_send_sync target w2)
      else (sync_counter', w2)
  | None => (sync_counter, w1)
  end.

(** [swim_join] *)
Definition swim_join (now : Z) (address : string) (port : Z) (w : world)
  : world :=
  let seed_id := strncpy (SWIM_NODE_ID_SIZE - 1)
                   ("seed-" ++ address ++ ":" ++ fmt_d port)%string in
  let w1 := swim_add_node now (swim_create_node now seed_id address port) w in
  match swim_find_node (w_ctx w1) seed_id with
  | Some seed => swim_send_sync seed (swim_send_ping seed w1)
  | None => w1
  end.

(** [swim_leave] *)
Definition leave_at (w : world) (p : node_ptr) : world :=
  match deref (w_ctx w) p with
  | Some node =>
      if negb (node_is_local node) && (node_state node =? NODE_STATE_ALIVE)
      then swim_send_sync p w else w
  | None => w
  end.

Definition swim_leave (now : Z) (w : world) : world :=
  let w1 := match swim_get_local_node (w_ctx w) with
            | Some local => swim_update_node_state now local NODE_STATE_LEFT w
            | None => w
            end in
  fold_left leave_at (seq 0 (List.length (ctx_nodes (w_ctx w1)))) w1.

End Engine.

(** [swim_remove_node]: unlink the first record whose id compares equal. *)
Fixpoint unlink_node (id : string) (l : list swim_node_t)
  : option (list swim_node_t) :=
  match l with
  | [] => None
  | n :: t =>
      if streq (node_id n) id then Some t
      else option_map (cons n) (unlink_node id t)
  end.

Definition swim_remove_node (id : string) (c : swim_context_t)
  : swim_context_t :=
  match unlink_node id (ctx_nodes c) with
  | Some l => ctx_with_nodes l (u32 (ctx_node_count c - 1)) c
  | None => c
  end.

(** [swim_get_stats]: sent, received, probe successes, probe failures. *)
Definition swim_get_stats (c : swim_context_t) : Z * Z * Z * Z :=
  (ctx_messages_sent c, ctx_messages_received c, ctx_probe_success c,
   ctx_probe_failure c).





End Swim.

(* ================================================================= *)
(** ** Coordinator ([node_coordinator.h], [node_coordinator.c]) *)

Module Coordinator.
Import Swim.

Inductive coordinator_state_t :=
| COORD_STATE_FOLLOWER
| COORD_STATE_CANDIDATE
| COORD_STATE_LEADER.

Inductive task_type_t :=
| TASK_TYPE_AI_REQUEST
| TASK_TYPE_MEMORY_SYNC
| TASK_TYPE_BROADCAST
| TASK_TYPE_HEALTH_CHECK.

Record task_t := mk_task {
  task_id : string;
  task_type : task_type_t;
  task_assigned_node : string;
  task_payload : option (list Z);
  task_payload_len : Z;
  task_created_at : Z;
  task_deadline : Z;
  task_retries : Z
}.

(** Calls made to the callbacks registered with
    [coordinator_set_callbacks]; they are client code and are observed,
    in order, as a trace. *)
Inductive coord_call :=
| CallBecomeLeader
| CallTaskComplete (id : string) (success : bool).

Record node_coordinator_t := mk_coord {
  coord_state : coordinator_state_t;
  coord_is_main_node : bool;
  coord_leader_id : string;
  coord_term : Z;
  coord_election_timeout : Z;
  coord_votes_received : Z;
  coord_pending_tasks : list task_t;
  coord_completed_tasks : list task_t;
  coord_pending_count : Z;
  coord_completed_count : Z;
  coord_tasks_processed : Z;
  coord_tasks_failed : Z;
  (* which callbacks are registered (non-NULL) *)
  coord_on_become_leader : bool;
  coord_on_task_complete : bool;
  (* the calls made so far *)
  coord_calls : list coord_call
}.

Definition coord_with_election (st : coordinator_state_t) (term timeout votes : Z)
           (c : node_coordinator_t) : node_coordinator_t :=
  mk_coord st (coord_is_main_node c) (coord_leader_id c) term timeout votes
           (coord_pending_tasks c) (coord_completed_tasks c)
           (coord_pending_count c) (coord_completed_count c)
           (coord_tasks_processed c) (coord_tasks_failed c)
           (coord_on_become_leader c) (coord_on_task_complete c) (coord_calls c).

Definition coord_with_leader (st : coordinator_state_t) (is_main : bool)
           (leader : string) (calls : list coord_call)
           (c : node_coordinator_t) : node_coordinator_t :=
  mk_coord st is_main leader (coord_term c) (coord_election_timeout c)
           (coord_votes_received c)
           (coord_pending_tasks c) (coord_completed_tasks c)
           (coord_pending_count c) (coord_completed_count c)
           (coord_tasks_processed c) (coord_tasks_failed c)
           (coord_on_become_leader c) (coord_on_task_complete c) calls.

Definition coord_with_queues (pending completed : list task_t)
           (pending_count completed_count processed : Z)
           (calls : list coord_call)
           (c : node_coordinator_t) : node_coordinator_t :=
  mk_coord (coord_state c) (coord_is_main_node c) (coord_leader_id c)
           (coord_term c) (coord_election_timeout c) (coord_votes_received c)
           pending completed pending_count completed_count processed
           (coord_tasks_failed c)
           (coord_on_become_leader c) (coord_on_task_complete c) calls.

(** [coordinator_set_callbacks] *)
Definition coordinator_set_callbacks (on_become_leader on_task_complete : bool)
           (c : node_coordinator_t) : node_coordinator_t :=
  mk_coord (coord_state c) (coord_is_main_node c) (coord_leader_id c)
           (coord_term c) (coord_election_timeout c) (coord_votes_received c)
           (coord_pending_tasks c) (coord_completed_tasks c)
           (coord_pending_count c) (coord_completed_count c)
           (coord_tasks_processed c) (coord_tasks_failed c)
           on_become_leader on_task_complete (coord_calls c).

(** [random_election_timeout]; [rnd] is the value of [rand()], which is
    not negative. *)
Definition random_election_timeout (rnd : Z) : Z := 150 + Z.rem rnd 150.

(** The coordinator keeps a pointer to its engine: its operations work on
    the pair of the two. *)
Definition coord_sys : Type := swim_context_t * node_coordinator_t.

(** The step shared by the two places that take leadership:
    [state = LEADER], copy the local id, [swim_set_main_node (true)],
    [is_main_node = true], [on_become_leader]. *)
Definition take_leadership (set_flag : bool) (s : coord_sys) : coord_sys :=
  let (swim, c) := s in
  let '(swim', leader) :=
    match swim_get_local_node swim with
    | Some local =>
        match deref swim local with
        | Some n => (swim_set_main_node true swim, strncpy 63 (node_id n))
        | None => (swim, coord_leader_id c)
        end
    | None => (swim, coord_leader_id c)
    end in
  (swim',
   coord_with_leader COORD_STATE_LEADER
     (if set_flag then true else coord_is_main_node c) leader
     (if set_flag && coord_on_become_leader c
      then coord_calls c ++ [CallBecomeLeader] else coord_calls c) c).

(** [coordinator_init] *)
Definition coordinator_init (now_ms rnd : Z) (start_as_main : bool)
           (swim : swim_context_t) : coord_sys :=
  let c := mk_coord (if start_as_main then COORD_STATE_LEADER
                     else COORD_STATE_FOLLOWER)
                    start_as_main "" 1
                    (now_ms + random_election_timeout rnd) 0
                    [] [] 0 0 0 0 false false [] in
  if start_as_main then take_leadership false (swim, c) else (swim, c).

(** [coordinator_start_election] *)
Definition coordinator_start_election (now_ms rnd : Z) (s : coord_sys)
  : coord_sys :=
  let (swim, c) := s in
  let c1 := coord_with_election COORD_STATE_CANDIDATE (u32 (coord_term c + 1))
              (now_ms + random_election_timeout rnd) 1 c in
  let alive := swim_get_node_count swim NODE_STATE_ALIVE in
  if alive <=? 1 then take_leadership true (swim, c1) else (swim, c1).

(** [on_node_event], the callback the coordinator registers with its
    engine. *)
Definition on_node_event (now_ms rnd : Z) (node : swim_node_t)
           (old_state new_state : swim_node_state_t)
           (swim : swim_context_t) (c : node_coordinator_t) : coord_sys :=
  if streq (node_id node) (coord_leader_id c) &&
     negb (new_state =? NODE_STATE_ALIVE)
  then coordinator_start_election now_ms rnd (swim, c)
  else (swim, c).

(** The drain loop of the Leader case. *)
Fixpoint drain (tasks : list task_t) (c : node_coordinator_t)
  : node_coordinator_t :=
  match tasks with
  | [] => c
  | task :: next =>
      drain next
        (coord_with_queues (coord_pending_tasks c)
           (task :: coord_completed_tasks c)
           (u32 (coord_pending_count c - 1))
           (u32 (coord_completed_count c + 1))
           (u64 (coord_tasks_processed c + 1))
           (if coord_on_task_complete c
            then coord_calls c ++ [CallTaskComplete (task_id task) true]
            else coord_calls c) c)
  end.

(** [coordinator_process] *)
Definition coordinator_process (now_ms rnd : Z) (s : coord_sys) : coord_sys :=
  let (swim, c) := s in
  match coord_state c with
  | COORD_STATE_FOLLOWER =>
      if now_ms >? coord_election_timeout c
      then coordinator_start_election now_ms rnd s
      else s
  | COORD_STATE_CANDIDATE =>
      let alive := swim_get_node_count swim NODE_STATE_ALIVE in
      (* [int votes_received] meets [uint32_t alive / 2] as unsigned *)
      if u32 (coord_votes_received c) >? alive / 2
      then take_leadership true s
      else s
  | COORD_STATE_LEADER =>
      let c' := drain (coord_pending_tasks c) c in
      (swim, coord_with_queues [] (coord_completed_tasks c')
               (coord_pending_count c') (coord_completed_count c')
               (coord_tasks_processed c') (coord_calls c') c')
  end.

(** [coordinator_submit_task]; [now_s] is [time(NULL)]. *)
Definition coordinator_submit_task (now_s now_ms rnd : Z) (type : task_type_t)
           (payload : option (list Z)) (len : Z) (c : node_coordinator_t)
  : node_coordinator_t :=
  let id := strncpy 63 ("task-" ++ fmt_d now_s ++ "-" ++
                        fmt_d (Z.rem rnd 10000))%string in
  let copy := match payload with
              | Some bytes => if len >? 0 then Some (firstn (Z.to_nat len) bytes)
                             else None
              | None => None
              end in
  let task := mk_task id type "" copy
                      (match copy with Some _ => len | None => 0 end)
                      now_ms (now_ms + 30000) 0 in
  coord_with_queues (task :: coord_pending_tasks c) (coord_completed_tasks c)
                    (u32 (coord_pending_count c + 1))
                    (coord_completed_count c) (coord_tasks_processed c)
                    (coord_calls c) c.

Definition coordinator_is_leader (c : node_coordinator_t) : bool :=
  match coord_state c with COORD_STATE_LEADER => true | _ => false end.

Definition coordinator_get_leader (c : node_coordinator_t) : string :=
  coord_leader_id c.

Definition coordinator_pending_count (c : node_coordinator_t) : Z :=
  coord_pending_count c.

(** [coordinator_get_stats]: processed and failed ([avg_task_latency_ms]
    is never written). *)
Definition coordinator_get_stats (c : node_coordinator_t) : Z * Z :=
  (coord_tasks_processed c, coord_tasks_failed c).

End Coordinator.

(* ================================================================= *)
(** ** Instance manager ([node_manager.h], [node_manager.c]) *)

Module Manager.
Import Swim Coordinator.

Definition MAX_NODES_PER_SERVER : Z := 16.

Record node_instance_config_t := mk_config {
  cfg_node_id : string;
  cfg_swim_port : Z;
  cfg_ws_port : Z;
  cfg_is_main_node : bool;
  cfg_auto_start : bool;
  cfg_seed_address : string;
  cfg_seed_port : Z
}.

(** An instance owns its engine and its coordinator; [inst_sent] collects
    the datagrams its engine handed to [sendto]. *)
Record node_instance_t := mk_instance {
  inst_id : string;
  inst_swim_port : Z;
  inst_ws_port : Z;
  inst_is_running : bool;
  inst_is_main_node : bool;
  inst_swim : swim_context_t;
  inst_coordinator : node_coordinator_t;
  inst_messages_processed : Z;
  inst_uptime_seconds : Z;
  inst_start_time : Z;
  inst_sent : list datagram_out
}.

Record node_manager_t := mk_manager {
  mgr_instances : list node_instance_t;
  mgr_instance_count : Z;
  mgr_max_instances : Z;
  mgr_port_range_start : Z;
  mgr_port_range_end : Z;
  mgr_next_available_port : Z;
  mgr_server_id : string
}.

Definition mgr_with_next (next : Z) (m : node_manager_t) : node_manager_t :=
  mk_manager (mgr_instances m) (mgr_instance_count m) (mgr_max_instances m)
             (mgr_port_range_start m) (mgr_port_range_end m) next
             (mgr_server_id m).

Definition mgr_with_instances (l : list node_instance_t) (k : Z)
           (m : node_manager_t) : node_manager_t :=
  mk_manager l k (mgr_max_instances m)
             (mgr_port_range_start m) (mgr_port_range_end m)
             (mgr_next_available_port m) (mgr_server_id m).

(** [generate_node_id] *)
Definition generate_node_id (now_s : Z) (server_id : string) (index : Z)
  : string :=
  strncpy 63 (server_id ++ "-node-" ++ fmt_d index ++ "-" ++ fmt_d now_s)%string.

(** [node_manager_init] *)
Definition node_manager_init (server_id : string) (port_start port_end : Z)
  : node_manager_t :=
  let range_start := if port_start =? 0 then 7946 else port_start in
  let range_end := if port_end =? 0 then u16 (port_start + 100) else port_end in
  mk_manager [] 0 MAX_NODES_PER_SERVER range_start range_end range_start
             (strncpy 63 server_id).

(** The inner [while]: is [port] the membership or the application port of
    an owned instance? *)
Definition port_in_use (m : node_manager_t) (port : Z) : bool :=
  existsb (fun n => (inst_swim_port n =? port) || (inst_ws_port n =? port))
          (mgr_instances m).

(** The [for] loop of [node_manager_allocate_port]: [iters] iterations are
    left, [port] is the candidate. *)
Fixpoint scan_ports (m : node_manager_t) (iters : nat) (port : Z) : option Z :=
  match iters with
  | O => None
  | S k =>
      if port_in_use m port then
        let port1 := u16 (port + 1) in
        scan_ports m k (if port1 >=? mgr_port_range_end m
                        then mgr_port_range_start m else port1)
      else Some port
  end.

(** [node_manager_allocate_port] *)
Definition node_manager_allocate_port (m : node_manager_t)
  : Z * node_manager_t :=
  match scan_ports m (Z.to_nat (mgr_port_range_end m - mgr_port_range_start m))
                   (mgr_next_available_port m) with
  | Some port =>
      let next := u16 (port + 1) in
      (port, mgr_with_next (if next >=? mgr_port_range_end m
                            then mgr_port_range_start m else next) m)
  | None => (0, m)
  end.

(** [node_manager_release_port] *)
Definition node_manager_release_port (m : node_manager_t) (port : Z)
  : node_manager_t := m.

(** [node_manager_get_node] *)
Definition node_manager_get_node (m : node_manager_t) (node_id : string)
  : option nat :=
  find_ptr (fun n => streq (inst_id n) node_id) (mgr_instances m).

Section Host.

(** The host: whether a UDP socket can be opened and bound on a port,
    and whether [sendto] succeeds. *)
Variable sock_ok : Z -> bool.
Variable sendto : datagram_out -> bool.

(** The engine of an instance runs with the coordinator's callback. *)
Definition inst_world (n : node_instance_t) : world node_coordinator_t :=
  mk_world (inst_swim n) (inst_coordinator n) (inst_sent n).

Definition inst_callback (now_ms rnd : Z)
  : option (swim_node_event_cb node_coordinator_t) :=
  Some (on_node_event now_ms rnd).

Definition inst_with_world (w : world node_coordinator_t)
           (n : node_instance_t) : node_instance_t :=
  mk_instance (inst_id n) (inst_swim_port n) (inst_ws_port n)
              (inst_is_running n) (inst_is_main_node n)
              (w_ctx w) (w_user w)
              (inst_messages_processed n) (inst_uptime_seconds n)
              (inst_start_time n) (w_sent w).

Definition inst_with_running (b : bool) (uptime start : Z)
           (n : node_instance_t) : node_instance_t :=
  mk_instance (inst_id n) (inst_swim_port n) (inst_ws_port n) b
              (inst_is_main_node n) (inst_swim n) (inst_coordinator n)
              (inst_messages_processed n) uptime start (inst_sent n).

(** [instance->field = ...] through the pointer [node_manager_get_node]
    returned. *)
Definition on_instance (p : nat) (f : node_instance_t -> node_instance_t)
           (m : node_manager_t) : node_manager_t :=
  match nth_error (mgr_instances m) p with
  | Some n => mgr_with_instances (store p (f n) (mgr_instances m))
                                 (mgr_instance_count m) m
  | None => m
  end.

(** [node_manager_start_node]; the first component is the return code.
    [swim_start] spawns the worker thread, which is assumed to succeed. *)
Definition node_manager_start_node (now_s : Z) (node_id : string)
           (m : node_manager_t) : Z * node_manager_t :=
  match node_manager_get_node m node_id with
  | None => (-1, m)
  | Some p =>
      match nth_error (mgr_instances m) p with
      | None => (-1, m)
      | Some n =>
          if inst_is_running n then (0, m)
          else
            (0, on_instance p
                  (fun n => inst_with_running true (inst_uptime_seconds n)
                              now_s
                              (inst_with_world
                                 (on_ctx swim_start (inst_world n)) n)) m)
      end
  end.

(** [node_manager_stop_node] *)
Definition node_manager_stop_node (now_s now_ms rnd : Z) (node_id : string)
           (m : node_manager_t) : Z * node_manager_t :=
  match node_manager_get_node m node_id with
  | None => (-1, m)
  | Some p =>
      match nth_error (mgr_instances m) p with
      | None => (-1, m)
      | Some n =>
          if negb (inst_is_running n) then (0, m)
          else
            let w := swim_leave (inst_callback now_ms rnd) sendto now_s
                                (inst_world n) in
            let w := on_ctx swim_stop w in
            (0, on_instance p
                  (fun n => inst_with_running false
                              (u64 (inst_uptime_seconds n +
                                    (now_s - inst_start_time n)))
                              (inst_start_time n)
                              (inst_with_world w n)) m)
      end
  end.

(** [node_manager_remove_node] *)
Fixpoint unlink (node_id : string) (l : list node_instance_t)
  : option (list node_instance_t) :=
  match l with
  | [] => None
  | n :: t =>
      if streq (inst_id n) node_id then Some t
      else option_map (cons n) (unlink node_id t)
  end.

Definition node_manager_remove_node (now_s now_ms rnd : Z)
           (node_id : string) (m : node_manager_t) : Z * node_manager_t :=
  let m1 := snd (node_manager_stop_node now_s now_ms rnd node_id m) in
  match unlink node_id (mgr_instances m1) with
  | Some l => (0, mgr_with_instances l (u32 (mgr_instance_count m1 - 1)) m1)
  | None => (-1, m1)
  end.

(** [node_manager_create_node] *)
Definition node_manager_create_node (now_s now_ms rnd : Z)
           (config : node_instance_config_t) (m : node_manager_t)
  : option node_instance_t * node_manager_t :=
  if mgr_instance_count m >=? mgr_max_instances m then (None, m)
  else
    let '(swim_port, m1) :=
      if cfg_swim_port config =? 0 then node_manager_allocate_port m
      else (cfg_swim_port config, m) in
    if (cfg_swim_port config =? 0) && (swim_port =? 0) then (None, m1)
    else
      let '(ws_port, m2) :=
        if cfg_ws_port config =? 0 then node_manager_allocate_port m1
        else (cfg_ws_port config, m1) in
      let id := if (String.length (cfg_node_id config) =? 0)%nat
                then generate_node_id now_s (mgr_server_id m2)
                                      (mgr_instance_count m2)
                else strncpy 63 (cfg_node_id config) in
      match swim_init (sock_ok swim_port) now_s id swim_port
                      SWIM_DEFAULT_INTERVAL with
      | None => (None, m2)
      | Some swim =>
          let (swim1, coord) :=
            coordinator_init now_ms rnd (cfg_is_main_node config) swim in
          let node := mk_instance id swim_port ws_port false
                                  (cfg_is_main_node config) swim1 coord
                                  0 0 0 [] in
          let m3 := mgr_with_instances (node :: mgr_instances m2)
                                       (u32 (mgr_instance_count m2 + 1)) m2 in
          if cfg_auto_start config then
            let m4 := snd (node_manager_start_node now_s id m3) in
            let m5 :=
              if negb (String.length (cfg_seed_address config) =? 0)%nat
                 && (cfg_seed_port config >? 0)
              then
                (* [swim_join (node->swim, ...)]: [node] is the head *)
                on_instance 0
                  (fun n => inst_with_world
                              (swim_join (inst_callback now_ms rnd) sendto
                                 now_s (cfg_seed_address config)
                                 (cfg_seed_port config)
                                 (inst_world n)) n) m4
              else m4 in
            (nth_error (mgr_instances m5) 0, m5)
          else (Some node, m3)
      end.

(** [node_manager_total_count], [node_manager_running_count] *)
Definition node_manager_total_count (m : node_manager_t) : Z :=
  mgr_instance_count m.

Definition node_manager_running_count (m : node_manager_t) : Z :=
  u32 (Z.of_nat (List.length (filter inst_is_running (mgr_instances m)))).

(** [node_manager_start_all]: the walk follows the list and starts each
    instance by its id; the first component is the number of calls that
    returned 0. *)
Definition node_manager_start_all (now_s : Z) (m : node_manager_t)
  : Z * node_manager_t :=
  fold_left (fun (acc : Z * node_manager_t) id =>
               let (rc, m') := node_manager_start_node now_s id (snd acc) in
               (if rc =? 0 then fst acc + 1 else fst acc, m'))
            (map inst_id (mgr_instances m)) (0, m).

(** [node_manager_stop_all] *)
Definition node_manager_stop_all (now_s now_ms rnd : Z) (m : node_manager_t)
  : node_manager_t :=
  fold_left (fun m id => snd (node_manager_stop_node now_s now_ms rnd id m))
            (map inst_id (mgr_instances m)) m.

(** [node_manager_get_nodes] *)
Definition node_manager_get_nodes (m : node_manager_t) (max : Z)
  : list node_instance_t :=
  firstn (Z.to_nat max) (mgr_instances m).

(** One step of the walk of [node_manager_process]: a running instance
    drains its socket ([inbox] is what [recvfrom] has for it) and ticks
    its coordinator. *)
Definition process_instance (now_s now_ms rnd : Z)
           (inbox : list (string * Z * datagram_in)) (n : node_instance_t)
  : node_instance_t :=
  if inst_is_running n then
    let w := swim_process (inst_callback now_ms rnd) sendto now_s inbox
                          (inst_world n) in
    let (swim, coord) := coordinator_process now_ms rnd (w_ctx w, w_user w) in
    inst_with_world (mk_world swim coord (w_sent w)) n
  else n.

(** [node_manager_process]; [inbox i] belongs to the instance at position
    [i] of the list. *)
Definition node_manager_process (now_s now_ms rnd : Z)
           (inbox : nat -> list (string * Z * datagram_in))
           (m : node_manager_t) : node_manager_t :=
  mgr_with_instances
    (map (fun (it : nat * node_instance_t) =>
            process_instance now_s now_ms rnd (inbox (fst it)) (snd it))
         (combine (seq 0 (List.length (mgr_instances m))) (mgr_instances m)))
    (mgr_instance_count m) m.

(** [node_manager_get_stats]: total, running, messages, uptime.  The
    clock is not behind any start time. *)
Definition node_manager_get_stats (now_s : Z) (m : node_manager_t)
  : Z * Z * Z * Z :=
  fold_left (fun (acc : Z * Z * Z * Z) n =>
               let '(total, running, messages, uptime) := acc in
               let uptime1 := if inst_is_running n
                              then u64 (uptime + (now_s - inst_start_time n))
                              else uptime in
               (u32 (total + 1),
                if inst_is_running n then u32 (running + 1) else running,
                u64 (messages + inst_messages_processed n),
                u64 (uptime1 + inst_uptime_seconds n)))
            (mgr_instances m) (0, 0, 0, 0).

End Host.

End Manager.

(* ================================================================= *)
(** * Vocabulary of the properties *)

Import Swim Coordinator Manager.

(** Two records that differ at most in [is_main_node]. *)
Definition same_but_main (a b : swim_node_t) : Prop :=
  b = node_with_is_main (node_is_main_node b) a.

(** What a callback may do to the engine that called it without
    disturbing the engine's view of its peers: it keeps [local_id], the
    shape of the node list, every id and [is_local] flag, and every record
    that is not the local one. *)
Definition keeps_peers (c c' : swim_context_t) : Prop :=
  ctx_local_id c' = ctx_local_id c /\
  Forall2 (fun a b => node_id b = node_id a /\
                      node_is_local b = node_is_local a /\
                      (node_is_local a = false -> b = a))
          (ctx_nodes c) (ctx_nodes c').

Definition callback_keeps_peers (U : Type) (cb : option (swim_node_event_cb U))
  : Prop :=
  forall f, cb = Some f ->
            forall n old new c u, keeps_peers c (fst (f n old new c u)).

(** The engine holds, at position [p], the record [n] for the peer [id]. *)
Definition peer_copy (c : swim_context_t) (id : string) (p : node_ptr)
           (n : swim_node_t) : Prop :=
  swim_find_node c id = Some p /\ deref c p = Some n /\
  node_is_local n = false.

(** [id] names a peer of the engine: it is not the engine's own id, and
    the record held for it, if any, is not the local one. *)
Definition peer_id (c : swim_context_t) (id : string) : Prop :=
  streq id (ctx_local_id c) = false /\
  forall p n, swim_find_node c id = Some p -> deref c p = Some n ->
              node_is_local n = false.

(** What a Sync merge decides on: state, incarnation and [is_main] of the
    record held for an id. *)
Definition merge_view : Type := Z * Z * bool.

Definition node_view (c : swim_context_t) (id : string) : option merge_view :=
  match swim_find_node c id with
  | Some p =>
      match deref c p with
      | Some n => Some (node_state n, node_incarnation n, node_is_main_node n)
      | None => None
      end
  | None => None
  end.

Definition upd_view (upd : swim_node_update_t) : merge_view :=
  (upd_state upd, upd_incarnation upd, to_bool (upd_is_main_node upd)).

(** The merge rule in the words of the specification: an unknown id is
    created from the record; a strictly greater incarnation supersedes the
    copy; an equal or smaller one is ignored. *)
Definition spec_merge (copy : option merge_view) (upd : swim_node_update_t)
  : option merge_view :=
  match copy with
  | None => Some (upd_view upd)
  | Some (_, incarnation, _) =>
      if upd_incarnation upd >? incarnation then Some (upd_view upd) else copy
  end.

(** Sync records applied one after the other, each at its own time. *)
Definition sync_merge_records (U : Type) (cb : option (swim_node_event_cb U))
           (upds : list (Z * swim_node_update_t)) (w : world U) : world U :=
  fold_left (fun w tu => sync_merge_record cb (fst tu) (snd tu) w) upds w.

(** An engine with its coordinator, as an instance of the manager has
    them. *)
Definition instance_world (swim : swim_context_t) (c : node_coordinator_t)
  : world node_coordinator_t := mk_world swim c [].

(** A concrete engine, as [swim_init ("n1", 7946, 1000)] builds it. *)
Definition engine_n1 : swim_context_t :=
  mk_ctx "n1" 7946 1 0
         [mk_node "n1" "127.0.0.1" 7946 NODE_STATE_ALIVE 1 100 100 0 true false]
         1 false false 1000 500 5000 0 0 0 0.

(** The sum of the four per-state counts. *)
Definition count_all_states (c : swim_context_t) : Z :=
  swim_get_node_count c NODE_STATE_ALIVE +
  swim_get_node_count c NODE_STATE_SUSPECT +
  swim_get_node_count c NODE_STATE_DEAD +
  swim_get_node_count c NODE_STATE_LEFT.

(** A host on which every [sendto] succeeds. *)
Definition sendto_ok (d : datagram_out) : bool := true.

(** An engine without a registered callback, as the tests use it. *)
Definition bare_world (c : swim_context_t) : world unit := mk_world c tt [].

(** A complete Sync frame from "n2" with one record, for the unknown id
    "n3", whose state byte is 7. *)
Definition sync_with_state_7 : datagram_in :=
  mk_in (sync_total_len 1)
        (mk_header 1 SWIM_MSG_SYNC 140 1 "n2" 1) "" 1
        (fun _ => mk_update "n3" "10.0.0.3" 7948 7 1 0).

(** A Sync frame of 80 bytes: the header and [node_count = 1], and not one
    byte of the record it announces.  [in_updates] is what lies behind the
    80 bytes in the receive buffer. *)
Definition sync_without_records : datagram_in :=
  mk_in sizeof_swim_sync_t
        (mk_header 1 SWIM_MSG_SYNC 140 1 "n2" 1) "" 1
        (fun _ => mk_update "ghost" "10.6.6.6" 666 NODE_STATE_DEAD 9 1).

(** Two engines of one process: "n1" and "n2", each knowing the other. *)
Definition engine_a : swim_context_t :=
  mk_ctx "n1" 7946 1 0
         [mk_node "n2" "127.0.0.1" 7947 NODE_STATE_ALIVE 1 100 100 0 false false;
          mk_node "n1" "127.0.0.1" 7946 NODE_STATE_ALIVE 1 100 100 0 true false]
         2 true false 1000 500 5000 0 0 0 0.

Definition engine_b : swim_context_t :=
  mk_ctx "n2" 7947 1 0
         [mk_node "n1" "127.0.0.1" 7946 NODE_STATE_ALIVE 1 100 100 0 false false;
          mk_node "n2" "127.0.0.1" 7947 NODE_STATE_ALIVE 1 100 100 0 true false]
         2 true false 1000 500 5000 0 0 0 0.

(** The gossip rounds of a process that hosts two engines, in the order
    the workers happen to run them; the [static] counter of
    [swim_gossip_round] is the one piece of state the rounds share. *)
Inductive engine_name := EngineA | EngineB.

Record process := mk_process {
  proc_sync_counter : Z;
  proc_a : world unit;
  proc_b : world unit
}.

Definition process_round (now rnd : Z) (p : process) (e : engine_name)
  : process :=
  match e with
  | EngineA =>
      let (k, w) := swim_gossip_round None sendto_ok now rnd
                      (proc_sync_counter p) (proc_a p) in
      mk_process k w (proc_b p)
  | EngineB =>
      let (k, w) := swim_gossip_round None sendto_ok now rnd
                      (proc_sync_counter p) (proc_b p) in
      mk_process k (proc_a p) w
  end.

Definition process_rounds (now rnd : Z) (order : list engine_name)
           (p : process) : process :=
  fold_left (process_round now rnd) order p.

(** The message types an engine has sent, oldest first. *)
Definition sent_types (U : Type) (w : world U) : list Z :=
  map (fun d => hdr_type (out_header d)) (w_sent w).

(** The arguments of one [coordinator_submit_task] call, with the clock
    readings and the [rand()] value it consumes. *)
Record submission := mk_submission {
  sub_now_s : Z;
  sub_now_ms : Z;
  sub_rnd : Z;
  sub_type : task_type_t;
  sub_payload : option (list Z);
  sub_len : Z
}.

Definition submit (c : node_coordinator_t) (s : submission)
  : node_coordinator_t :=
  coordinator_submit_task (sub_now_s s) (sub_now_ms s) (sub_rnd s)
                          (sub_type s) (sub_payload s) (sub_len s) c.

Definition submit_all (subs : list submission) (c : node_coordinator_t)
  : node_coordinator_t := fold_left submit subs c.

(** The calls a drain of [tasks] makes to [on_task_complete]. *)
Definition completion_calls (tasks : list task_t) : list coord_call :=
  map (fun t => CallTaskComplete (task_id t) true) tasks.

(** A run of [coordinator_process] calls; each tick comes with its clock
    reading and its [rand()] value. *)
Definition ticks (ts : list (Z * Z)) (s : coord_sys) : coord_sys :=
  fold_left (fun s t => coordinator_process (fst t) (snd t) s) ts s.

(** A Leader with both callbacks registered, on the engine "n1". *)
Definition leader_n1 : coord_sys :=
  let (swim, c) := coordinator_init 1000 7 true engine_n1 in
  (swim, coordinator_set_callbacks true true c).

Definition three_submissions : list submission :=
  [mk_submission 1700000000 2000 4711 TASK_TYPE_AI_REQUEST (Some [1; 2; 3]) 3;
   mk_submission 1700000000 2001 42 TASK_TYPE_BROADCAST None 0;
   mk_submission 1700000001 2002 99999 TASK_TYPE_HEALTH_CHECK None 0].

(** The two ports an instance holds. *)
Definition inst_ports (n : node_instance_t) : Z * Z :=
  (inst_swim_port n, inst_ws_port n).

(** The fields of the manager that allocation reads. *)
Definition port_table (m : node_manager_t) :=
  (map inst_ports (mgr_instances m), mgr_instance_count m,
   mgr_max_instances m, mgr_port_range_start m, mgr_port_range_end m,
   mgr_next_available_port m).

(** The cursor of the allocator lies in the configured range, and the
    range in the [uint16_t] ports above 0. *)
Definition cursor_in_range (m : node_manager_t) : Prop :=
  0 < mgr_port_range_start m /\
  mgr_port_range_end m <= 65535 /\
  (mgr_port_range_start m < mgr_port_range_end m ->
   mgr_port_range_start m <= mgr_next_available_port m < mgr_port_range_end m).

(** No owned instance holds [port]. *)
Definition port_free (m : node_manager_t) (port : Z) : Prop :=
  forall n, In n (mgr_instances m) ->
            inst_swim_port n <> port /\ inst_ws_port n <> port.

(** A host on which every socket can be bound. *)
Definition sock_always (port : Z) : bool := true.

(** A configuration that leaves both ports to the allocator. *)
Definition auto_config : node_instance_config_t :=
  mk_config "" 0 0 false false "" 0.

(** The callback does to the engine what the coordinator's does: nothing,
    or [swim_set_main_node (swim, true)]. *)
Definition callback_sets_main_only (U : Type)
           (cb : option (swim_node_event_cb U)) : Prop :=
  forall f, cb = Some f ->
            forall n old new c u,
              fst (f n old new c u) = c \/
              fst (f n old new c u) = swim_set_main_node true c.

(** The ids of the membership list, head first. *)
Definition node_ids (c : swim_context_t) : list string :=
  map node_id (ctx_nodes c).

(** Two records with the same id and the same [is_local] flag. *)
Definition same_key (a b : swim_node_t) : Prop :=
  node_id b = node_id a /\ node_is_local b = node_is_local a.

(** The shape of a membership list: no id twice, exactly one local record,
    which carries the engine's id, and [node_count] counts the records. *)
Definition engine_wf (c : swim_context_t) : Prop :=
  NoDup (node_ids c) /\
  List.length (filter node_is_local (ctx_nodes c)) = 1%nat /\
  (forall n, In n (ctx_nodes c) -> node_is_local n = true ->
             node_id n = ctx_local_id c) /\
  ctx_node_count c = u32 (Z.of_nat (List.length (ctx_nodes c))).

(** From [c] to [c'] the membership list has only grown: the records of
    [c] are all there, in place, under the same ids; the new ones, none of
    them local, stand in front of them. *)
Definition grows (c c' : swim_context_t) : Prop :=
  exists fresh old,
    ctx_nodes c' = fresh ++ old /\
    Forall2 same_key (ctx_nodes c) old /\
    Forall (fun n => node_is_local n = false) fresh /\
    (NoDup (node_ids c) -> NoDup (node_ids c')) /\
    ctx_local_id c' = ctx_local_id c /\
    (forall k, ctx_node_count c = u32 k ->
               ctx_node_count c' = u32 (k + Z.of_nat (List.length fresh))).

(** The record the engine holds for an id. *)
Definition node_record (c : swim_context_t) (id : string)
  : option swim_node_t :=
  match swim_find_node c id with
  | Some p => deref c p
  | None => None
  end.

(** The engine "n1" with the coordinator of a Follower registered. *)
Definition follower_world : world node_coordinator_t :=
  instance_world engine_n1 (snd (coordinator_init 0 7 false engine_n1)).




(** What the handler makes of the sender's record before it looks at the
    message type: seen now, Alive, and with the header's incarnation if
    that is greater. *)
Definition refreshed (now hdr_inc : Z) (n : swim_node_t) : swim_node_t :=
  let n1 := node_with_last_seen now n in
  let n2 := if node_state n1 =? NODE_STATE_ALIVE then n1
            else node_with_state NODE_STATE_ALIVE now n1 in
  if hdr_inc >? node_incarnation n2
  then node_with_incarnation hdr_inc n2 else n2.

(** A Ping header as [swim_send_ping] builds it, and the datagram around
    it as the handler sees it. *)
Definition ping_from (sender : string) (seq incarnation : Z) : datagram_in :=
  mk_in sizeof_swim_ping_t
        (mk_header 1 SWIM_MSG_PING 0 seq sender incarnation)
        "n1" 0 (fun _ => mk_update "" "" 0 0 0 0).


(** A peer that [swim_broadcast] and [swim_leave] address. *)
Definition alive_peer (n : swim_node_t) : bool :=
  negb (node_is_local n) && (node_state n =? NODE_STATE_ALIVE).


(** The calls a client makes on a coordinator, the events its engine
    reports to it, and the engine's own progress in between. *)
Inductive coord_op :=
| OpProcess (now_ms rnd : Z)
| OpSubmit (s : submission)
| OpStartElection (now_ms rnd : Z)
| OpSetCallbacks (on_become_leader on_task_complete : bool)
| OpNodeEvent (now_ms rnd : Z) (node : swim_node_t)
              (old_state new_state : swim_node_state_t)
| OpEngine (f : swim_context_t -> swim_context_t).

Definition coord_step (s : coord_sys) (op : coord_op) : coord_sys :=
  match op with
  | OpProcess now_ms rnd => coordinator_process now_ms rnd s
  | OpSubmit sub => (fst s, submit (snd s) sub)
  | OpStartElection now_ms rnd => coordinator_start_election now_ms rnd s
  | OpSetCallbacks on_become_leader on_task_complete =>
      (fst s, coordinator_set_callbacks on_become_leader on_task_complete
                                        (snd s))
  | OpNodeEvent now_ms rnd node old_state new_state =>
      on_node_event now_ms rnd node old_state new_state (fst s) (snd s)
  | OpEngine f => (f (fst s), snd s)
  end.

Definition coord_run (ops : list coord_op) (s : coord_sys) : coord_sys :=
  fold_left coord_step ops s.

Definition is_submit (op : coord_op) : bool :=
  match op with OpSubmit _ => true | _ => false end.

(** How many tasks a run submits. *)
Definition submissions (ops : list coord_op) : nat :=
  List.length (filter is_submit ops).

(** The two queues of a coordinator and the counters kept beside them. *)
Definition coord_queues (c : node_coordinator_t) :=
  (coord_pending_tasks c, coord_completed_tasks c, coord_pending_count c,
   coord_completed_count c, coord_tasks_processed c, coord_tasks_failed c).

(** The counters say what the queues hold, [k] tasks in all. *)
Definition queues_counted (k : nat) (c : node_coordinator_t) : Prop :=
  coord_pending_count c
  = u32 (Z.of_nat (List.length (coord_pending_tasks c))) /\
  coord_completed_count c
  = u32 (Z.of_nat (List.length (coord_completed_tasks c))) /\
  coord_tasks_processed c
  = u64 (Z.of_nat (List.length (coord_completed_tasks c))) /\
  coord_tasks_failed c = 0 /\
  (List.length (coord_pending_tasks c) +
   List.length (coord_completed_tasks c))%nat = k.

(** No record but the one at [p] is Alive. *)
Definition alone_at (c : swim_context_t) (p : node_ptr) : Prop :=
  forall q m, deref c q = Some m -> q <> p ->
              node_state m <> NODE_STATE_ALIVE.

(** The calls a client makes on a manager. *)
Inductive mgr_op :=
| MgrCreate (now_s now_ms rnd : Z) (config : node_instance_config_t)
| MgrStart (now_s : Z) (node_id : string)
| MgrStop (now_s now_ms rnd : Z) (node_id : string)
| MgrRemove (now_s now_ms rnd : Z) (node_id : string)
| MgrStartAll (now_s : Z)
| MgrStopAll (now_s now_ms rnd : Z)
| MgrProcess (now_s now_ms rnd : Z)
             (inbox : nat -> list (string * Z * datagram_in))
| MgrAllocatePort
| MgrReleasePort (port : Z).

Definition mgr_step (sock_ok : Z -> bool) (sendto : datagram_out -> bool)
           (m : node_manager_t) (op : mgr_op) : node_manager_t :=
  match op with
  | MgrCreate now_s now_ms rnd config =>
      snd (node_manager_create_node sock_ok sendto now_s now_ms rnd config m)
  | MgrStart now_s node_id => snd (node_manager_start_node now_s node_id m)
  | MgrStop now_s now_ms rnd node_id =>
      snd (node_manager_stop_node sendto now_s now_ms rnd node_id m)
  | MgrRemove now_s now_ms rnd node_id =>
      snd (node_manager_remove_node sendto now_s now_ms rnd node_id m)
  | MgrStartAll now_s => snd (node_manager_start_all now_s m)
  | MgrStopAll now_s now_ms rnd =>
      node_manager_stop_all sendto now_s now_ms rnd m
  | MgrProcess now_s now_ms rnd inbox =>
      node_manager_process sendto now_s now_ms rnd inbox m
  | MgrAllocatePort => snd (node_manager_allocate_port m)
  | MgrReleasePort port => node_manager_release_port m port
  end.

Definition mgr_run (sock_ok : Z -> bool) (sendto : datagram_out -> bool)
           (ops : list mgr_op) (m : node_manager_t) : node_manager_t :=
  fold_left (mgr_step sock_ok sendto) ops m.

(** The books of a manager are in order: [instance_count] counts the
    list, which holds at most [MAX_NODES_PER_SERVER] instances, the cursor
    of the allocator is in range, and no instance has counted a message. *)
Definition manager_ok (m : node_manager_t) : Prop :=
  mgr_instance_count m = Z.of_nat (List.length (mgr_instances m)) /\
  (List.length (mgr_instances m) <= 16)%nat /\
  mgr_max_instances m = MAX_NODES_PER_SERVER /\
  cursor_in_range m /\
  Forall (fun n => inst_messages_processed n = 0) (mgr_instances m).

(** An instance after [node_manager_start_node] has reached it. *)
Definition started (now_s : Z) (n : node_instance_t) : node_instance_t :=
  if inst_is_running n then n
  else inst_with_running true (inst_uptime_seconds n) now_s
         (inst_with_world (on_ctx swim_start (inst_world n)) n).

(** The instance [n] at position [q] is the one a lookup of its id
    finds: no instance in front of it has the same id. *)
Definition found_by_id (m : node_manager_t) (q : nat) (n : node_instance_t)
  : bool :=
  match node_manager_get_node m (inst_id n) with
  | Some p => Nat.eqb p q
  | None => false
  end.

(** From [w] to [w'] the two message counters have kept pace with the
    traffic: [messages_sent] has grown by the number of datagrams that
    [sendto] accepted, [messages_received] by [received] (both as
    [uint64_t]). *)
Definition tallies (U : Type) (sendto : datagram_out -> bool) (received : Z)
           (w w' : world U) : Prop :=
  exists new,
    w_sent w' = w_sent w ++ new /\
    (forall k, ctx_messages_sent (w_ctx w) = u64 k ->
               ctx_messages_sent (w_ctx w')
               = u64 (k + Z.of_nat (List.length (filter sendto new)))) /\
    (forall k, ctx_messages_received (w_ctx w) = u64 k ->
               ctx_messages_received (w_ctx w') = u64 (k + received)).

(** The datagrams of an inbox that [swim_process] hands to the handler
    and that the handler counts: those before the first empty read that
    hold a whole header. *)
Fixpoint frames_counted (inbox : list (string * Z * datagram_in)) : Z :=
  match inbox with
  | [] => 0
  | (_, _, dg) :: rest =>
      if in_len dg <=? 0 then 0
      else (if in_len dg <? sizeof_swim_message_header_t then 0 else 1) +
           frames_counted rest
  end.

(* ================================================================= *)
(** * Properties *)

(** ** Lists addressed by position *)

Section Positions.
Variable A : Type.
Implicit Types (l : list A) (p q : nat) (f : A -> bool).

Lemma store_length l p x : List.length (store p x l) = List.length l.
Proof.
  revert p; induction l as [|h t IH]; intros [|p]; simpl; auto.
Qed.

Lemma nth_error_store_same l p x y :
  nth_error l p = Some y -> nth_error (store p x l) p = Some x.
Proof.
  revert p; induction l as [|h t IH]; intros [|p]; simpl; intros H;
    try discriminate; auto.
Qed.

Lemma nth_error_store_other l p q x :
  p <> q -> nth_error (store p x l) q = nth_error l q.
Proof.
  revert p q; induction l as [|h t IH]; intros [|p] [|q] H; simpl; auto.
  congruence.
Qed.

Lemma find_ptr_some l f p :
  find_ptr f l = Some p -> exists x, nth_error l p = Some x /\ f x = true.
Proof.
  revert p; induction l as [|h t IH]; simpl; intros p H; [discriminate|].
  destruct (f h) eqn:E.
  - inversion H; subst. exists h; auto.
  - destruct (find_ptr f t) as [q|]; simpl in H; [|discriminate].
    inversion H; subst. simpl. apply IH; reflexivity.
Qed.

(** Storing a record that answers the search like the one it replaces
    does not move what the search finds. *)
Lemma find_ptr_store l f p x y :
  nth_error l p = Some y -> f x = f y ->
  find_ptr f (store p x l) = find_ptr f l.
Proof.
  revert p; induction l as [|h t IH]; intros [|p]; simpl; intros H E;
    try discriminate.
  - inversion H; subst. rewrite E. reflexivity.
  - rewrite (IH p H E). reflexivity.
Qed.

(** Two lists whose records answer the search alike. *)
Lemma find_ptr_ext l l' f :
  Forall2 (fun a b => f b = f a) l l' -> find_ptr f l' = find_ptr f l.
Proof.
  induction 1 as [|a b l l' E _ IH]; simpl; [reflexivity|].
  rewrite E, IH. reflexivity.
Qed.

Lemma Forall2_nth_error (R : A -> A -> Prop) l l' p x :
  Forall2 R l l' -> nth_error l p = Some x ->
  exists y, nth_error l' p = Some y /\ R x y.
Proof.
  intros H; revert p; induction H as [|a b l l' Rab _ IH]; intros [|p];
    simpl; intros E; try discriminate.
  - inversion E; subst; eauto.
  - apply IH; assumption.
Qed.

Lemma Forall2_same (R : A -> A -> Prop) l :
  (forall a, R a a) -> Forall2 R l l.
Proof. intros H; induction l; constructor; auto. Qed.

Lemma Forall2_store (R : A -> A -> Prop) l p x y :
  (forall a, R a a) -> nth_error l p = Some y -> R y x ->
  Forall2 R l (store p x l).
Proof.
  intros Rrefl; revert p; induction l as [|h t IH]; intros [|p]; simpl;
    intros E Ryx; try discriminate.
  - inversion E; subst. constructor; auto using Forall2_same.
  - constructor; eauto.
Qed.

End Positions.

(** ** Machine integers *)

Lemma u32_range z : 0 <= u32 z < 2 ^ 32.
Proof. unfold u32, wrap. apply Z.mod_pos_bound. lia. Qed.

Lemma u32_small z : 0 <= z < 2 ^ 32 -> u32 z = z.
Proof. intros H. unfold u32, wrap. apply Z.mod_small; assumption. Qed.

Lemma u32_succ_u32 z k : u32 (u32 z + k) = u32 (z + k).
Proof. unfold u32, wrap. rewrite Zplus_mod_idemp_l. reflexivity. Qed.

Lemma u64_small z : 0 <= z < 2 ^ 64 -> u64 z = z.
Proof. intros H. unfold u64, wrap. apply Z.mod_small; assumption. Qed.

Lemma u64_succ_u64 z k : u64 (u64 z + k) = u64 (z + k).
Proof. unfold u64, wrap. rewrite Zplus_mod_idemp_l. reflexivity. Qed.

Lemma u16_small z : 0 <= z < 2 ^ 16 -> u16 z = z.
Proof. intros H. unfold u16, wrap. apply Z.mod_small; assumption. Qed.

(* ================================================================= *)
(** ** [swim_set_main_node] *)

Lemma same_but_main_refl a : same_but_main a a.
Proof. destruct a; reflexivity. Qed.

Lemma same_but_main_set b a : same_but_main a (node_with_is_main b a).
Proof. destruct a; reflexivity. Qed.

Lemma same_but_main_trans a b c :
  same_but_main a b -> same_but_main b c -> same_but_main a c.
Proof.
  unfold same_but_main; intros H1 H2. rewrite H2, H1. destruct a; reflexivity.
Qed.

Lemma Forall2_trans (A : Type) (R : A -> A -> Prop) :
  (forall a b c, R a b -> R b c -> R a c) ->
  forall l1 l2 l3, Forall2 R l1 l2 -> Forall2 R l2 l3 -> Forall2 R l1 l3.
Proof.
  intros T l1 l2 l3 H; revert l3.
  induction H as [|a b l1 l2 Rab _ IH]; intros l3 H3; inversion H3; subst;
    constructor; eauto.
Qed.

(** What one call does when the engine has a local record. *)
Lemma set_main_step b c p n :
  swim_get_local_node c = Some p -> deref c p = Some n ->
  let c' := swim_set_main_node b c in
  swim_get_local_node c' = Some p /\
  ctx_nodes c' = store p (node_with_is_main b n) (ctx_nodes c) /\
  ctx_is_main_node c' = b /\
  ctx_incarnation c' = u32 (ctx_incarnation c + 1) /\
  ctx_local_id c' = ctx_local_id c.
Proof.
  intros Hl Hd. unfold swim_set_main_node, swim_get_local_node in *.
  cbn [ctx_nodes ctx_with_main]. rewrite Hl.
  unfold assign, deref in *. cbn [ctx_nodes ctx_with_main]. rewrite Hd.
  cbn. repeat split.
  rewrite (@find_ptr_store _ (ctx_nodes c) node_is_local p
             (node_with_is_main b n) n Hd eq_refl); auto.
Qed.

(** Without a local record only the context flag changes. *)
Lemma set_main_no_local b c :
  swim_get_local_node c = None ->
  swim_set_main_node b c = ctx_with_main b (ctx_incarnation c) c.
Proof.
  intros Hl. unfold swim_set_main_node, swim_get_local_node in *.
  cbn [ctx_nodes ctx_with_main]. rewrite Hl. reflexivity.
Qed.

Lemma set_main_frame b c :
  Forall2 same_but_main (ctx_nodes c) (ctx_nodes (swim_set_main_node b c)) /\
  ctx_local_id (swim_set_main_node b c) = ctx_local_id c.
Proof.
  destruct (swim_get_local_node c) as [p|] eqn:Hl.
  - destruct (find_ptr_some _ _ Hl) as (n & Hn & _).
    destruct (set_main_step b c Hl Hn) as (_ & Hnodes & _ & _ & Hid).
    rewrite Hnodes, Hid. split; [|reflexivity].
    eapply Forall2_store; eauto using same_but_main_refl, same_but_main_set.
  - rewrite (set_main_no_local b c Hl). split; [|reflexivity].
    apply Forall2_same, same_but_main_refl.
Qed.

Lemma set_main_calls_frame calls c :
  Forall2 same_but_main (ctx_nodes c) (ctx_nodes (set_main_calls calls c)).
Proof.
  revert c; induction calls as [|b calls IH]; intros c; simpl.
  - apply Forall2_same, same_but_main_refl.
  - eapply Forall2_trans; [apply same_but_main_trans| |apply IH].
    apply set_main_frame.
Qed.

Lemma same_but_main_map (A : Type) (g : swim_node_t -> A) l l' :
  (forall b n, g (node_with_is_main b n) = g n) ->
  Forall2 same_but_main l l' -> map g l' = map g l.
Proof.
  intros Hg; induction 1 as [|a b l l' E _ IH]; simpl; [reflexivity|].
  rewrite IH. f_equal. rewrite E. apply Hg.
Qed.

Lemma Forall2_firstn (A : Type) (R : A -> A -> Prop) k l l' :
  Forall2 R l l' -> Forall2 R (firstn k l) (firstn k l').
Proof.
  intros H; revert k; induction H; intros [|k]; simpl; constructor; auto.
Qed.

Lemma engine_n1_init : swim_init true 100 "n1" 7946 1000 = Some engine_n1.
Proof. reflexivity. Qed.

(** C8.  [set_main(true)] followed by [set_main(false)] leaves the local
    record and the engine with [is_main = false], and raises the engine's
    own incarnation (the [incarnation] of the context, the one its message
    headers carry) by exactly 2: by 2 modulo [2^32] as a [uint32_t], hence
    by 2 whenever the counter has room for it. *)
Theorem set_main_true_then_false :
  forall (c : swim_context_t) (p : node_ptr),
    swim_get_local_node c = Some p ->
    let c' := swim_set_main_node false (swim_set_main_node true c) in
    (exists n, deref c p = Some n /\
               deref c' p = Some (node_with_is_main false n)) /\
    swim_get_local_node c' = Some p /\
    ctx_is_main_node c' = false /\
    ctx_incarnation c' = u32 (ctx_incarnation c + 2) /\
    (0 <= ctx_incarnation c -> ctx_incarnation c + 2 < 2 ^ 32 ->
     ctx_incarnation c' = ctx_incarnation c + 2).
Proof.
  intros c p Hl c'.
  destruct (find_ptr_some _ _ Hl) as (n & Hn & _).
  destruct (set_main_step true c Hl Hn) as (Hl1 & Hn1 & _ & Hi1 & _).
  assert (Hd1 : deref (swim_set_main_node true c) p
                = Some (node_with_is_main true n)).
  { unfold deref. rewrite Hn1. eapply nth_error_store_same; eauto. }
  destruct (set_main_step false _ Hl1 Hd1) as (Hl2 & Hn2 & Hm2 & Hi2 & _).
  fold c' in Hl2, Hn2, Hm2, Hi2.
  assert (Hinc : ctx_incarnation c' = u32 (ctx_incarnation c + 2)).
  { rewrite Hi2, Hi1, u32_succ_u32. f_equal. lia. }
  repeat split; auto.
  - exists n. split; [exact Hn|]. unfold deref. rewrite Hn2.
    eapply nth_error_store_same. exact Hd1.
  - intros H0 H2. rewrite Hinc. apply u32_small. lia.
Qed.

Lemma set_main_true_then_false_witness :
  swim_get_local_node engine_n1 = Some 0%nat /\
  ctx_incarnation
    (swim_set_main_node false (swim_set_main_node true engine_n1)) = 3.
Proof.
  split; [reflexivity|].
  destruct (set_main_true_then_false engine_n1 (p := 0%nat) eq_refl)
    as (_ & _ & _ & _ & H).
  apply H; vm_compute; [discriminate | reflexivity].
Defined.

(* ================================================================= *)
(** ** Sync records that do not supersede the local copy *)

Section Stale.
Variable U : Type.
Variable on_node_event : option (swim_node_event_cb U).

(** A record whose incarnation does not exceed the local copy's leaves
    the engine, and whatever its callback works on, untouched. *)
Lemma sync_merge_record_stale now upd (w : world U) p node :
  swim_find_node (w_ctx w) (upd_id upd) = Some p ->
  deref (w_ctx w) p = Some node ->
  upd_incarnation upd <= node_incarnation node ->
  sync_merge_record on_node_event now upd w = w.
Proof.
  intros Hf Hd Hle. unfold sync_merge_record.
  destruct (streq _ _); [reflexivity|].
  rewrite Hf, Hd.
  destruct (upd_incarnation upd >? node_incarnation node) eqn:E;
    [|reflexivity].
  apply Z.gtb_lt in E. lia.
Qed.
End Stale.

(** The engine [swim_init] returns, after any run of [set_main] calls. *)
Lemma fresh_engine_set_main now id port interval c0 calls :
  swim_init true now id port interval = Some c0 ->
  let c := set_main_calls calls c0 in
  ctx_incarnation c = u32 (1 + Z.of_nat (List.length calls)) /\
  exists local, ctx_nodes c = [local] /\ node_is_local local = true /\
                node_incarnation local = 1 /\
                node_id local = ctx_local_id c.
Proof.
  intros Hinit.
  assert (Inv : 0 <= ctx_incarnation c0 < 2 ^ 32 /\
                ctx_incarnation c0 = 1 /\
                exists local, ctx_nodes c0 = [local] /\
                  node_is_local local = true /\ node_incarnation local = 1 /\
                  node_id local = ctx_local_id c0).
  { unfold swim_init in Hinit. inversion Hinit; subst; clear Hinit. cbn.
    split; [lia|]. split; [reflexivity|]. eexists; repeat split. }
  destruct Inv as (_ & H1 & Hloc). clear Hinit.
  assert (G : forall c, (exists local, ctx_nodes c = [local] /\
                  node_is_local local = true /\ node_incarnation local = 1 /\
                  node_id local = ctx_local_id c) ->
              forall k, ctx_incarnation c = u32 k ->
              let c' := set_main_calls calls c in
              ctx_incarnation c' = u32 (k + Z.of_nat (List.length calls)) /\
              exists local, ctx_nodes c' = [local] /\
                  node_is_local local = true /\ node_incarnation local = 1 /\
                  node_id local = ctx_local_id c').
  { clear. induction calls as [|b calls IH]; intros c Hloc k Hk; simpl.
    - rewrite Z.add_0_r. auto.
    - destruct Hloc as (local & Hnodes & Hil & Hinc & Hid).
      assert (Hl : swim_get_local_node c = Some 0%nat).
      { unfold swim_get_local_node. rewrite Hnodes. simpl. rewrite Hil.
        reflexivity. }
      assert (Hd : deref c 0%nat = Some local).
      { unfold deref. rewrite Hnodes. reflexivity. }
      destruct (set_main_step b c Hl Hd) as (_ & Hn' & _ & Hi' & Hid').
      assert (Hloc' : exists local', ctx_nodes (swim_set_main_node b c)
                        = [local'] /\ node_is_local local' = true /\
                        node_incarnation local' = 1 /\
                        node_id local' = ctx_local_id (swim_set_main_node b c)).
      { exists (node_with_is_main b local). rewrite Hn', Hnodes, Hid'.
        cbn. auto. }
      assert (Hk' : ctx_incarnation (swim_set_main_node b c) = u32 (k + 1)).
      { rewrite Hi', Hk. apply u32_succ_u32. }
      destruct (IH _ Hloc' _ Hk') as (Hfin & Hfinal).
      split; [|exact Hfinal].
      cbn zeta in Hfin. unfold set_main_calls in *. cbn [fold_left].
      rewrite Hfin. f_equal. lia. }
  intros c. apply (G c0 Hloc 1). rewrite H1. reflexivity.
Qed.

(** What [swim_send_sync] puts on the wire. *)
Lemma swim_send_sync_body (U : Type) (sendto : datagram_out -> bool)
      (w : world U) target t :
  deref (w_ctx w) target = Some t ->
  exists d, w_sent (swim_send_sync sendto target w) = w_sent w ++ [d] /\
            out_address d = node_address t /\
            hdr_type (out_header d) = SWIM_MSG_SYNC /\
            hdr_incarnation (out_header d) = ctx_incarnation (w_ctx w) /\
            out_body d = BodySync
                           (Z.of_nat (List.length (sync_records (w_ctx w))))
                           (sync_records (w_ctx w)).
Proof.
  intros Hd. unfold swim_send_sync. rewrite Hd. cbn.
  eexists. split; [reflexivity|]. cbn. auto.
Qed.

(** C10.  [swim_set_main_node] raises the incarnation of the context, the
    one that goes into message headers, and leaves the [incarnation] field
    of every node record alone.  So for an engine fresh from [swim_init]
    and any run of [set_main] calls: the context counter has moved by the
    number of calls, the Sync message the engine sends consists of its
    local record with incarnation 1, and a peer that holds a record for
    that id with incarnation at least 1 is left unchanged by it: the
    [is_main] flag does not travel. *)
Theorem set_main_not_in_sync_records :
  forall (now : Z) (id : string) (port interval : Z) (c0 : swim_context_t)
         (calls : list bool),
    swim_init true now id port interval = Some c0 ->
    let c := set_main_calls calls c0 in
    (forall c1, map node_incarnation (ctx_nodes (set_main_calls calls c1))
                = map node_incarnation (ctx_nodes c1)) /\
    ctx_incarnation c = u32 (1 + Z.of_nat (List.length calls)) /\
    (exists local, ctx_nodes c = [local] /\ node_is_local local = true /\
                   node_incarnation local = 1 /\
                   sync_records c = [node_update_of local]) /\
    (forall (U : Type) (sendto : datagram_out -> bool) (w : world U) target t,
        w_ctx w = c -> deref c target = Some t ->
        exists d, w_sent (swim_send_sync sendto target w) = w_sent w ++ [d] /\
                  hdr_incarnation (out_header d) = ctx_incarnation c /\
                  out_body d = BodySync 1 (sync_records c)) /\
    (forall upd, In upd (sync_records c) -> upd_incarnation upd = 1) /\
    (forall (U : Type) (cb : option (swim_node_event_cb U)) (now' : Z)
            (peer : world U) upd p copy,
        In upd (sync_records c) ->
        swim_find_node (w_ctx peer) (upd_id upd) = Some p ->
        deref (w_ctx peer) p = Some copy ->
        1 <= node_incarnation copy ->
        sync_merge_record cb now' upd peer = peer).
Proof.
  intros now id port interval c0 calls Hinit c.
  destruct (fresh_engine_set_main calls Hinit) as (Hinc & local & Hn & Hl & Hi & _).
  fold c in Hinc, Hn.
  assert (Hrec : sync_records c = [node_update_of local]).
  { unfold sync_records. rewrite Hn. reflexivity. }
  assert (Hone : forall upd, In upd (sync_records c) -> upd_incarnation upd = 1).
  { intros upd Hin. rewrite Hrec in Hin. destruct Hin as [<-|[]]. exact Hi. }
  split; [|split; [|split; [|split; [|split]]]]; auto.
  - intros c1. apply same_but_main_map; [reflexivity|].
    apply set_main_calls_frame.
  - exists local. auto.
  - intros U sendto w target t Hw Hd. rewrite <- Hw in Hd.
    destruct (swim_send_sync_body sendto w target Hd)
      as (d & Hs & _ & _ & Hh & Hb).
    exists d. rewrite Hw in Hh, Hb. rewrite Hrec in Hb. rewrite Hrec.
    auto.
  - intros U cb now' peer upd p copy Hin Hf Hd Hge.
    eapply sync_merge_record_stale; eauto.
    rewrite (Hone upd Hin). exact Hge.
Qed.

Lemma set_main_not_in_sync_records_witness :
  swim_init true 100 "n1" 7946 1000 = Some engine_n1 /\
  ctx_incarnation (set_main_calls [true; false; true] engine_n1) = 4 /\
  map upd_incarnation
      (sync_records (set_main_calls [true; false; true] engine_n1)) = [1].
Proof.
  split; [reflexivity|].
  destruct (set_main_not_in_sync_records [true; false; true] engine_n1_init)
    as (_ & Hinc & (local & _ & _ & Hi & Hrec) & _).
  split.
  - rewrite Hinc. reflexivity.
  - rewrite Hrec. cbn. rewrite Hi. reflexivity.
Defined.

(* ================================================================= *)
(** ** Sync merge *)

Lemma strncpy_short n s : (String.length s <= n)%nat -> strncpy n s = s.
Proof.
  unfold strncpy. revert n; induction s as [|a s IH]; intros [|n] H; simpl in *;
    try reflexivity; try lia.
  f_equal. apply IH. lia.
Qed.

Lemma keeps_peers_refl c : keeps_peers c c.
Proof. split; [reflexivity|]. apply Forall2_same. auto. Qed.

Lemma keeps_peers_copy c c' id p n :
  keeps_peers c c' -> peer_copy c id p n -> peer_copy c' id p n.
Proof.
  intros (_ & HF) (Hf & Hd & Hl). unfold peer_copy, swim_find_node, deref in *.
  split; [|split; [|exact Hl]].
  - rewrite <- Hf. apply find_ptr_ext.
    eapply Forall2_impl; [|exact HF]. cbn. intros a b (E & _). rewrite E.
    reflexivity.
  - destruct (Forall2_nth_error p HF Hd) as (y & Hy & _ & _ & E).
    rewrite (E Hl) in Hy. exact Hy.
Qed.

(** The callback of the coordinator touches its engine only through
    [swim_set_main_node]. *)
Lemma set_main_keeps_peers b c : keeps_peers c (swim_set_main_node b c).
Proof.
  destruct (swim_get_local_node c) as [p|] eqn:Hl.
  - destruct (find_ptr_some _ _ Hl) as (n & Hn & Hloc).
    destruct (set_main_step b c Hl Hn) as (_ & Hnodes & _ & _ & Hid).
    split; [exact Hid|]. rewrite Hnodes.
    eapply Forall2_store; eauto.
    cbn. repeat split. intros E. congruence.
  - rewrite (set_main_no_local b c Hl).
    split; [reflexivity|]. cbn. apply Forall2_same. auto.
Qed.

Lemma take_leadership_keeps_peers flag swim c :
  keeps_peers swim (fst (take_leadership flag (swim, c))).
Proof.
  unfold take_leadership.
  destruct (swim_get_local_node swim) as [p|]; [|apply keeps_peers_refl].
  destruct (deref swim p); [|apply keeps_peers_refl].
  apply set_main_keeps_peers.
Qed.

Lemma start_election_keeps_peers now_ms rnd swim c :
  keeps_peers swim (fst (coordinator_start_election now_ms rnd (swim, c))).
Proof.
  unfold coordinator_start_election.
  destruct (swim_get_node_count swim NODE_STATE_ALIVE <=? 1).
  - apply take_leadership_keeps_peers.
  - apply keeps_peers_refl.
Qed.

Lemma coordinator_callback_keeps_peers now_ms rnd :
  callback_keeps_peers (Some (on_node_event now_ms rnd)).
Proof.
  intros f Hf n old new c u. inversion Hf; subst; clear Hf.
  unfold on_node_event.
  destruct (streq _ _ && _).
  - apply start_election_keeps_peers.
  - apply keeps_peers_refl.
Qed.

Lemma no_callback_keeps_peers (U : Type) : callback_keeps_peers (@None (swim_node_event_cb U)).
Proof. intros f Hf. discriminate. Qed.

Section Merge.
Variable U : Type.
Variable cb : option (swim_node_event_cb U).
Hypothesis cb_ok : callback_keeps_peers cb.

Lemma notify_keeps_peers n old new (w : world U) :
  keeps_peers (w_ctx w) (w_ctx (notify cb n old new w)).
Proof.
  unfold notify. destruct cb as [f|] eqn:E; [|apply keeps_peers_refl].
  specialize (cb_ok eq_refl n old new (w_ctx w) (w_user w)).
  destruct (f n old new (w_ctx w) (w_user w)); exact cb_ok.
Qed.

(** Assigning to a peer's record through its pointer. *)
Lemma assign_peer_copy c id p n g :
  peer_copy c id p n -> node_id (g n) = node_id n ->
  node_is_local (g n) = node_is_local n ->
  peer_copy (assign p g c) id p (g n) /\
  ctx_local_id (assign p g c) = ctx_local_id c.
Proof.
  intros (Hf & Hd & Hl) Hid Hloc. unfold peer_copy, assign. rewrite Hd.
  unfold swim_find_node, deref in *. cbn.
  split; [|reflexivity]. split; [|split].
  - rewrite <- Hf. eapply find_ptr_store; eauto. cbn. rewrite Hid. reflexivity.
  - eapply nth_error_store_same; eauto.
  - congruence.
Qed.

(** [swim_update_node_state] on a peer's record. *)
Lemma update_state_peer_copy now st (w : world U) id p n :
  peer_copy (w_ctx w) id p n ->
  let w' := swim_update_node_state cb now p st w in
  ctx_local_id (w_ctx w') = ctx_local_id (w_ctx w) /\
  exists n', peer_copy (w_ctx w') id p n' /\ node_state n' = st /\
             node_incarnation n' = node_incarnation n /\
             node_is_main_node n' = node_is_main_node n.
Proof.
  intros Hc. unfold swim_update_node_state.
  destruct Hc as (Hf & Hd & Hl). rewrite Hd.
  destruct (node_state n =? st) eqn:E.
  - apply Z.eqb_eq in E. cbn. split; [reflexivity|].
    exists n. repeat split; auto.
  - cbn zeta.
    destruct (@assign_peer_copy (w_ctx w) id p n (node_with_state st now))
      as (Hc1 & Hid1); [repeat split; auto|reflexivity|reflexivity|].
    set (w1 := on_ctx (assign p (node_with_state st now)) w).
    pose proof (notify_keeps_peers (node_with_state st now n)
                  (node_state n) st w1) as K.
    split.
    + destruct K as (K & _). rewrite K. exact Hid1.
    + exists (node_with_state st now n). split; [|auto].
      eapply keeps_peers_copy; [exact K|exact Hc1].
Qed.

End Merge.

Section MergeStep.
Variable U : Type.
Variable cb : option (swim_node_event_cb U).
Hypothesis cb_ok : callback_keeps_peers cb.

(** A record for a peer the engine already holds. *)
Lemma merge_known now upd (w : world U) p n :
  peer_copy (w_ctx w) (upd_id upd) p n ->
  streq (upd_id upd) (ctx_local_id (w_ctx w)) = false ->
  let w' := sync_merge_record cb now upd w in
  ctx_local_id (w_ctx w') = ctx_local_id (w_ctx w) /\
  if upd_incarnation upd >? node_incarnation n
  then exists n', peer_copy (w_ctx w') (upd_id upd) p n' /\
                  node_state n' = upd_state upd /\
                  node_incarnation n' = upd_incarnation upd /\
                  node_is_main_node n' = to_bool (upd_is_main_node upd)
  else w' = w.
Proof.
  intros Hc Hnl. pose proof Hc as (Hf & Hd & Hl).
  unfold sync_merge_record. rewrite Hnl, Hf, Hd.
  destruct (upd_incarnation upd >? node_incarnation n) eqn:E;
    [|split; reflexivity].
  set (g := fun n0 => node_with_is_main (to_bool (upd_is_main_node upd))
                        (node_with_incarnation (upd_incarnation upd) n0)).
  destruct (@assign_peer_copy (w_ctx w) (upd_id upd) p n g Hc eq_refl eq_refl)
    as (Hc1 & Hid1).
  destruct (negb (node_state n =? upd_state upd)) eqn:S.
  - destruct (update_state_peer_copy cb_ok now (upd_state upd)
                (on_ctx (assign p g) w) Hc1) as (Hid2 & n' & Hc2 & Hs & Hi & Hm).
    split; [rewrite Hid2; exact Hid1|].
    exists n'. repeat split; try apply Hc2; auto.
  - split; [exact Hid1|]. exists (g n). split; [exact Hc1|].
    apply negb_false_iff, Z.eqb_eq in S. auto.
Qed.

(** A record for an id the engine has not seen. *)
Lemma merge_unknown now upd (w : world U) :
  swim_find_node (w_ctx w) (upd_id upd) = None ->
  streq (upd_id upd) (ctx_local_id (w_ctx w)) = false ->
  (String.length (upd_id upd) <= 63)%nat ->
  let w' := sync_merge_record cb now upd w in
  ctx_local_id (w_ctx w') = ctx_local_id (w_ctx w) /\
  exists n', peer_copy (w_ctx w') (upd_id upd) 0%nat n' /\
             node_state n' = upd_state upd /\
             node_incarnation n' = upd_incarnation upd /\
             node_is_main_node n' = to_bool (upd_is_main_node upd).
Proof.
  intros Hf Hnl Hlen. unfold sync_merge_record. rewrite Hnl, Hf.
  unfold swim_add_node, swim_create_node. cbn [node_id node_with_is_main
    node_with_incarnation node_with_state].
  change (SWIM_NODE_ID_SIZE - 1)%nat with 63%nat.
  rewrite (strncpy_short _ Hlen), Hf.
  match goal with |- context [notify cb ?n ?o ?s ?w1] =>
    pose proof (notify_keeps_peers cb_ok n o s w1) as K;
    set (node := n) in *; set (w1' := w1) in * end.
  split; [destruct K as (K & _); rewrite K; reflexivity|].
  exists node. split; [|auto].
  eapply keeps_peers_copy; [exact K|].
  unfold peer_copy, swim_find_node, deref. cbn.
  unfold streq. rewrite String.eqb_refl. auto.
Qed.

Lemma find_deref c id p :
  swim_find_node c id = Some p -> exists n, deref c p = Some n.
Proof.
  intros H. destruct (find_ptr_some _ _ H) as (n & Hn & _). eauto.
Qed.

Lemma peer_copy_view c id p n :
  peer_copy c id p n ->
  node_view c id = Some (node_state n, node_incarnation n, node_is_main_node n).
Proof. intros (Hf & Hd & _). unfold node_view. rewrite Hf, Hd. reflexivity. Qed.

Lemma peer_copy_peer_id c id p n :
  peer_copy c id p n -> streq id (ctx_local_id c) = false -> peer_id c id.
Proof.
  intros (Hf & Hd & Hl) Hnl. split; [exact Hnl|].
  intros p' n' Hf' Hd'. congruence.
Qed.

(** One record, seen through [node_view]: the engine does what
    [spec_merge] says, and the id still belongs to a peer. *)
Lemma merge_step now upd (w : world U) :
  peer_id (w_ctx w) (upd_id upd) ->
  (String.length (upd_id upd) <= 63)%nat ->
  let w' := sync_merge_record cb now upd w in
  peer_id (w_ctx w') (upd_id upd) /\
  node_view (w_ctx w') (upd_id upd)
  = spec_merge (node_view (w_ctx w) (upd_id upd)) upd.
Proof.
  intros Hp Hlen. pose proof Hp as (Hnl & Hpeer).
  destruct (swim_find_node (w_ctx w) (upd_id upd)) as [p|] eqn:Hf.
  - destruct (find_deref _ _ Hf) as (n & Hd).
    assert (Hc : peer_copy (w_ctx w) (upd_id upd) p n)
      by (repeat split; eauto).
    destruct (merge_known now upd w Hc Hnl) as (Hid & Hres).
    cbn zeta. rewrite (peer_copy_view Hc). cbn [spec_merge].
    destruct (upd_incarnation upd >? node_incarnation n).
    + destruct Hres as (n' & Hc' & Hs & Hi & Hm).
      split.
      * eapply peer_copy_peer_id; [exact Hc'|]. rewrite Hid. exact Hnl.
      * rewrite (peer_copy_view Hc'), Hs, Hi, Hm. reflexivity.
    + rewrite Hres. split; [exact Hp|].
      apply (peer_copy_view Hc).
  - destruct (merge_unknown now upd w Hf Hnl Hlen)
      as (Hid & n' & Hc' & Hs & Hi & Hm).
    cbn zeta. split.
    + eapply peer_copy_peer_id; [exact Hc'|]. rewrite Hid. exact Hnl.
    + rewrite (peer_copy_view Hc'), Hs, Hi, Hm.
      unfold node_view. rewrite Hf. reflexivity.
Qed.

Lemma merge_steps upds (w : world U) id :
  (forall tu, In tu upds -> upd_id (snd tu) = id) ->
  peer_id (w_ctx w) id -> (String.length id <= 63)%nat ->
  node_view (w_ctx (sync_merge_records cb upds w)) id
  = fold_left spec_merge (map snd upds) (node_view (w_ctx w) id).
Proof.
  revert w; induction upds as [|[now upd] upds IH]; intros w Hids Hp Hlen;
    [reflexivity|].
  assert (E : upd_id upd = id) by (apply (Hids (now, upd)); left; reflexivity).
  subst id. cbn [sync_merge_records fold_left map fst snd].
  destruct (merge_step now upd w Hp Hlen) as (Hp' & Hv).
  rewrite <- Hv. apply IH; auto.
  intros tu Hin. apply Hids. right. exact Hin.
Qed.

End MergeStep.

(** C1.  Sync merge is monotonic per node id.  For an engine and the id of
    one of its peers (at most 63 bytes, as node ids are):
    - a record whose incarnation is strictly greater than the local copy's
      replaces state, incarnation and [is_main]; a record whose incarnation
      is equal or smaller changes nothing at all; either way the
      incarnation held for the id does not decrease;
    - any sequence of records for that id leaves what the merge rule of
      the specification leaves ([spec_merge], folded over the sequence);
    - in particular, of two records for an id not seen before, the one
      with the strictly greater incarnation decides the final state, and
      on a tie the earlier one does.
    The engine's callback may be any that leaves the peers' records alone,
    as the coordinator's does. *)
Theorem sync_merge_monotonic :
  forall (U : Type) (cb : option (swim_node_event_cb U)),
    callback_keeps_peers cb ->
    forall (w : world U) (id : string),
      peer_id (w_ctx w) id ->
      (String.length id <= 63)%nat ->
      (forall now upd st inc main,
          upd_id upd = id ->
          node_view (w_ctx w) id = Some (st, inc, main) ->
          (inc < upd_incarnation upd ->
           node_view (w_ctx (sync_merge_record cb now upd w)) id
           = Some (upd_view upd)) /\
          (upd_incarnation upd <= inc ->
           sync_merge_record cb now upd w = w) /\
          (exists st' inc' main',
              node_view (w_ctx (sync_merge_record cb now upd w)) id
              = Some (st', inc', main') /\ inc <= inc')) /\
      (forall upds,
          (forall tu, In tu upds -> upd_id (snd tu) = id) ->
          node_view (w_ctx (sync_merge_records cb upds w)) id
          = fold_left spec_merge (map snd upds) (node_view (w_ctx w) id)) /\
      (forall t1 r1 t2 r2,
          upd_id r1 = id -> upd_id r2 = id ->
          node_view (w_ctx w) id = None ->
          let final :=
            node_view (w_ctx (sync_merge_records cb [(t1, r1); (t2, r2)] w)) id in
          (upd_incarnation r1 < upd_incarnation r2 ->
           final = Some (upd_view r2)) /\
          (upd_incarnation r2 <= upd_incarnation r1 ->
           final = Some (upd_view r1))).
Proof.
  intros U cb Hcb w id Hp Hlen. split; [|split].
  - intros now upd st inc main Hid Hv. subst id.
    assert (Hgt : inc < upd_incarnation upd ->
                  node_view (w_ctx (sync_merge_record cb now upd w)) (upd_id upd)
                  = Some (upd_view upd)).
    { intros Hlt. destruct (merge_step Hcb now upd w Hp Hlen) as (_ & E).
      rewrite E, Hv. cbn. apply Z.gtb_lt in Hlt. rewrite Hlt. reflexivity. }
    assert (Hle : upd_incarnation upd <= inc ->
                  sync_merge_record cb now upd w = w).
    { intros Hle. unfold node_view in Hv.
      destruct (swim_find_node (w_ctx w) (upd_id upd)) as [p|] eqn:Hf;
        [|discriminate].
      destruct (deref (w_ctx w) p) as [n|] eqn:Hd; [|discriminate].
      inversion Hv; subst. eapply sync_merge_record_stale; eauto. }
    split; [exact Hgt|]. split; [exact Hle|].
    destruct (Z.lt_ge_cases inc (upd_incarnation upd)) as [Hlt|Hge].
    + exists (upd_state upd), (upd_incarnation upd),
        (to_bool (upd_is_main_node upd)).
      split; [apply Hgt; exact Hlt|lia].
    + exists st, inc, main. rewrite (Hle Hge). split; [exact Hv|lia].
  - intros upds Hids. apply merge_steps; auto.
  - intros t1 r1 t2 r2 H1 H2 Hnone final.
    assert (E : final = fold_left spec_merge (map snd [(t1, r1); (t2, r2)])
                                  (node_view (w_ctx w) id)).
    { apply merge_steps; auto. intros tu [<-|[<-|[]]]; assumption. }
    rewrite Hnone in E. cbn in E. rewrite E. split; intros H.
    + apply Z.gtb_lt in H. rewrite H. reflexivity.
    + destruct (upd_incarnation r2 >? upd_incarnation r1) eqn:G;
        [apply Z.gtb_lt in G; lia|reflexivity].
Qed.

Lemma sync_merge_monotonic_witness :
  let w := instance_world engine_n1
             (snd (coordinator_init 0 7 false engine_n1)) in
  let r1 := mk_update "n2" "10.0.0.2" 7947 NODE_STATE_DEAD 3 0 in
  let r2 := mk_update "n2" "10.0.0.2" 7947 NODE_STATE_ALIVE 3 1 in
  callback_keeps_peers (Some (on_node_event 0 7)) /\
  peer_id (w_ctx w) "n2" /\
  (String.length "n2" <= 63)%nat /\
  node_view (w_ctx (sync_merge_records (Some (on_node_event 0 7))
                      [(101, r1); (102, r2)] w)) "n2"
  = Some (NODE_STATE_DEAD, 3, false).
Proof.
  intros w r1 r2.
  assert (Hp : peer_id (w_ctx w) "n2").
  { split; [reflexivity|]. intros p n Hf. vm_compute in Hf. discriminate. }
  assert (Hlen : (String.length "n2" <= 63)%nat) by (vm_compute; lia).
  split; [apply coordinator_callback_keeps_peers|].
  split; [exact Hp|]. split; [exact Hlen|].
  destruct (sync_merge_monotonic (@coordinator_callback_keeps_peers 0 7)
              w Hp Hlen) as (_ & _ & H).
  destruct (H 101 r1 102 r2 eq_refl eq_refl eq_refl) as (_ & Htie).
  apply Htie. vm_compute. discriminate.
Defined.

(* ================================================================= *)
(** ** Per-state counts *)

(** As long as every record is in one of the four states, the counts
    partition the node list. *)
Lemma count_all_states_valid c :
  Forall (fun n => 0 <= node_state n <= 3) (ctx_nodes c) ->
  Z.of_nat (List.length (ctx_nodes c)) < 2 ^ 32 ->
  count_all_states c = Z.of_nat (List.length (ctx_nodes c)).
Proof.
  unfold count_all_states, swim_get_node_count.
  generalize (ctx_nodes c) as l. intros l Hall Hlen.
  assert (B : forall st,
             (List.length (filter (fun n => (node_state n =? st)%Z) l)
              <= List.length l)%nat).
  { intros st. clear. induction l as [|a l IH]; simpl; [lia|].
    destruct (node_state a =? st); simpl; lia. }
  rewrite !u32_small by (split; [lia|]; eapply Z.le_lt_trans;
                         [apply Nat2Z.inj_le; apply B|exact Hlen]).
  clear Hlen B. induction Hall as [|a l Ha _ IH]; [reflexivity|].
  cbn [filter List.length].
  unfold NODE_STATE_ALIVE, NODE_STATE_SUSPECT, NODE_STATE_DEAD,
    NODE_STATE_LEFT in *.
  assert (C : node_state a = 0 \/ node_state a = 1 \/ node_state a = 2 \/
              node_state a = 3) by lia.
  destruct C as [E|[E|[E|E]]]; rewrite E; cbn [Z.eqb Pos.eqb List.length];
    lia.
Qed.

(** C7.  The engine stores the state byte of a Sync record unchecked
    ([(swim_node_state_t) updates[i].state]): one well-formed frame with a
    record whose state byte is 7 takes an engine whose counts partition
    its node list to one with two node records of which the four counts
    cover one. *)
Theorem sync_state_byte_breaks_partition :
  let w := bare_world engine_n1 in
  let w' := swim_handle_message None sendto_ok 100 "10.0.0.2" 7947
                                sync_with_state_7 w in
  in_len sync_with_state_7 = sync_total_len (in_node_count sync_with_state_7) /\
  count_all_states (w_ctx w) = Z.of_nat (List.length (ctx_nodes (w_ctx w))) /\
  List.length (ctx_nodes (w_ctx w')) = 2%nat /\
  ctx_node_count (w_ctx w') = 2 /\
  count_all_states (w_ctx w') = 1 /\
  node_view (w_ctx w') "n3" = Some (7, 1, false).
Proof. vm_compute. repeat split; reflexivity. Qed.

(* ================================================================= *)
(** ** Length of a received datagram *)

Section Lengths.
Variable U : Type.
Variable cb : option (swim_node_event_cb U).
Variable sendto : datagram_out -> bool.

(** A datagram shorter than the header is dropped without a trace. *)
Lemma short_datagram_dropped now addr port dg (w : world U) :
  in_len dg < sizeof_swim_message_header_t ->
  swim_handle_message cb sendto now addr port dg w = w.
Proof.
  intros H. unfold swim_handle_message.
  apply Z.ltb_lt in H. rewrite H. reflexivity.
Qed.

(** That is the only use the handler makes of the length. *)
Lemma handler_ignores_length now addr port dg len (w : world U) :
  sizeof_swim_message_header_t <= in_len dg ->
  sizeof_swim_message_header_t <= len ->
  swim_handle_message cb sendto now addr port
    (mk_in len (in_header dg) (in_target_id dg) (in_node_count dg)
           (in_updates dg)) w
  = swim_handle_message cb sendto now addr port dg w.
Proof.
  intros H1 H2. unfold swim_handle_message, sync_merge. cbn [in_len in_header
    in_target_id in_node_count in_updates].
  apply Z.ltb_ge in H1, H2. rewrite H1, H2. reflexivity.
Qed.
End Lengths.

(** C2.  The handler checks the received length against the header only.
    A Sync frame of 80 bytes that announces one record is not dropped: the
    loop takes [updates[0]] from the 140 bytes behind the datagram and
    adds the node it describes. *)
Theorem sync_node_count_not_validated :
  let w := bare_world engine_n1 in
  let dg := sync_without_records in
  let w' := swim_handle_message None sendto_ok 100 "10.0.0.2" 7947 dg w in
  in_len dg = 80 /\
  sync_total_len (in_node_count dg) = 220 /\
  node_view (w_ctx w) "ghost" = None /\
  node_view (w_ctx w') "ghost" = Some (NODE_STATE_DEAD, 9, true) /\
  ctx_node_count (w_ctx w') = 2.
Proof. vm_compute. repeat split; reflexivity. Qed.

(* ================================================================= *)
(** ** The counter of [swim_gossip_round] *)

(** C9.  The round counter is a [static] of the function and so one
    counter for all engines of the process.  Engine A runs four rounds,
    engine B its first, engine A its fifth: B sends a Sync in its first
    round, and A's fifth round sends a Ping and nothing else.  (Left to
    itself, A sends its Sync in its fifth round.) *)
Theorem sync_counter_shared_between_engines :
  let p0 := mk_process 0 (bare_world engine_a) (bare_world engine_b) in
  let p4 := process_rounds 100 0 [EngineA; EngineA; EngineA; EngineA] p0 in
  let p5 := process_round 100 0 p4 EngineB in
  let p6 := process_round 100 0 p5 EngineA in
  sent_types (proc_a p4)
  = [SWIM_MSG_PING; SWIM_MSG_PING; SWIM_MSG_PING; SWIM_MSG_PING] /\
  sent_types (proc_b p5) = [SWIM_MSG_PING; SWIM_MSG_SYNC] /\
  sent_types (proc_a p6)
  = [SWIM_MSG_PING; SWIM_MSG_PING; SWIM_MSG_PING; SWIM_MSG_PING;
     SWIM_MSG_PING] /\
  proc_sync_counter p6 = 1 /\
  sent_types (proc_a (process_rounds 100 0
                        [EngineA; EngineA; EngineA; EngineA; EngineA] p0))
  = [SWIM_MSG_PING; SWIM_MSG_PING; SWIM_MSG_PING; SWIM_MSG_PING;
     SWIM_MSG_PING; SWIM_MSG_SYNC].
Proof. vm_compute. repeat split; reflexivity. Qed.

(* ================================================================= *)
(** ** Coordinator: task queue *)

Lemma u32_pred_u32 z k : u32 (u32 z - k) = u32 (z - k).
Proof. unfold u32, wrap. rewrite Zminus_mod_idemp_l. reflexivity. Qed.

(** What submitting does to the queue. *)
Lemma submit_all_spec subs c k :
  coord_pending_count c = u32 k ->
  let c' := submit_all subs c in
  coord_state c' = coord_state c /\
  coord_on_task_complete c' = coord_on_task_complete c /\
  coord_calls c' = coord_calls c /\
  coord_completed_tasks c' = coord_completed_tasks c /\
  coord_completed_count c' = coord_completed_count c /\
  coord_tasks_processed c' = coord_tasks_processed c /\
  List.length (coord_pending_tasks c')
  = (List.length subs + List.length (coord_pending_tasks c))%nat /\
  coord_pending_count c' = u32 (k + Z.of_nat (List.length subs)).
Proof.
  revert c k; induction subs as [|s subs IH]; intros c k Hk; cbn zeta.
  - cbn. rewrite Z.add_0_r. auto 10.
  - unfold submit_all. cbn [fold_left]. fold (submit_all subs (submit c s)).
    assert (Hk' : coord_pending_count (submit c s) = u32 (k + 1)).
    { cbn. rewrite Hk. apply u32_succ_u32. }
    destruct (IH (submit c s) (k + 1) Hk')
      as (H1 & H2 & H3 & H4 & H5 & H6 & H7 & H8).
    rewrite H1, H2, H3, H4, H5, H6, H7, H8. cbn.
    repeat split; try lia. f_equal. lia.
Qed.

(** What the drain loop does. *)
Lemma drain_spec tasks c kp kc kt :
  coord_pending_count c = u32 kp ->
  coord_completed_count c = u32 kc ->
  coord_tasks_processed c = u64 kt ->
  let n := Z.of_nat (List.length tasks) in
  let c' := drain tasks c in
  coord_state c' = coord_state c /\
  coord_pending_count c' = u32 (kp - n) /\
  coord_completed_count c' = u32 (kc + n) /\
  coord_tasks_processed c' = u64 (kt + n) /\
  coord_completed_tasks c' = rev tasks ++ coord_completed_tasks c /\
  coord_calls c' = coord_calls c ++
                   (if coord_on_task_complete c then completion_calls tasks
                    else []).
Proof.
  revert c kp kc kt; induction tasks as [|t tasks IH];
    intros c kp kc kt Hp Hc Ht; cbn zeta.
  - destruct (coord_on_task_complete c); cbn;
      rewrite ?Z.sub_0_r, ?Z.add_0_r, ?app_nil_r; auto 10.
  - cbn [drain].
    match goal with |- context [drain tasks ?c1] => set (c1' := c1) end.
    destruct (IH c1' (kp - 1) (kc + 1) (kt + 1))
      as (H1 & H2 & H3 & H4 & H5 & H6).
    + subst c1'; cbn. rewrite Hp. apply u32_pred_u32.
    + subst c1'; cbn. rewrite Hc. apply u32_succ_u32.
    + subst c1'; cbn. rewrite Ht. apply u64_succ_u64.
    + rewrite H1, H2, H3, H4, H5, H6. subst c1'. cbn.
      repeat split; try (f_equal; lia).
      * rewrite <- app_assoc. reflexivity.
      * destruct (coord_on_task_complete c); cbn;
          rewrite <- ?app_assoc; reflexivity.
Qed.

(** C4.  A Leader to which [n] tasks were submitted since its queue was
    last empty drains them all in one tick: the pending queue and its
    count are back at 0, the drained tasks stand at the head of the
    completed queue, [completed_count] and [tasks_processed] have grown by
    [n] (as a [uint32_t] and a [uint64_t]; by exactly [n] where the
    counters have room), and [on_task_complete], when registered, was
    called once for each drained task, with [success = true], in the order
    of the pending queue.  The engine is not touched. *)
Theorem leader_tick_drains_queue :
  forall (swim : swim_context_t) (c0 : node_coordinator_t)
         (subs : list submission) (now_ms rnd : Z),
    coord_state c0 = COORD_STATE_LEADER ->
    coord_pending_tasks c0 = [] ->
    coord_pending_count c0 = 0 ->
    0 <= coord_completed_count c0 < 2 ^ 32 ->
    0 <= coord_tasks_processed c0 < 2 ^ 64 ->
    let n := Z.of_nat (List.length subs) in
    let c := submit_all subs c0 in
    let s' := coordinator_process now_ms rnd (swim, c) in
    let c' := snd s' in
    List.length (coord_pending_tasks c) = List.length subs /\
    coord_pending_count c = u32 n /\
    fst s' = swim /\
    coord_state c' = COORD_STATE_LEADER /\
    coord_pending_tasks c' = [] /\
    coord_pending_count c' = 0 /\
    coord_completed_tasks c'
    = rev (coord_pending_tasks c) ++ coord_completed_tasks c0 /\
    coord_completed_count c' = u32 (coord_completed_count c0 + n) /\
    coord_tasks_processed c' = u64 (coord_tasks_processed c0 + n) /\
    (coord_completed_count c0 + n < 2 ^ 32 ->
     coord_completed_count c' = coord_completed_count c0 + n) /\
    (coord_tasks_processed c0 + n < 2 ^ 64 ->
     coord_tasks_processed c' = coord_tasks_processed c0 + n) /\
    (coord_on_task_complete c0 = true ->
     coord_calls c' = coord_calls c0 ++ completion_calls (coord_pending_tasks c) /\
     List.length (completion_calls (coord_pending_tasks c)) = List.length subs).
Proof.
  intros swim c0 subs now_ms rnd Hst Hpt Hpc Hcc Htp n c s' c'.
  destruct (@submit_all_spec subs c0 0) as (S1 & S2 & S3 & S4 & S5 & S6 & S7 & S8).
  { rewrite Hpc. reflexivity. }
  fold c in S1, S2, S3, S4, S5, S6, S7, S8.
  rewrite Hpt in S7. cbn [List.length] in S7. rewrite Nat.add_0_r in S7.
  rewrite Z.add_0_l in S8. fold n in S8.
  destruct (@drain_spec (coord_pending_tasks c) c n
              (coord_completed_count c0) (coord_tasks_processed c0))
    as (D1 & D2 & D3 & D4 & D5 & D6).
  { exact S8. }
  { rewrite S5. symmetry. apply u32_small. exact Hcc. }
  { rewrite S6. symmetry. apply u64_small. exact Htp. }
  rewrite S7 in D2, D3, D4. fold n in D2, D3, D4.
  rewrite Z.sub_diag in D2. rewrite S4 in D5. rewrite S3, S2 in D6.
  assert (E : s' = (swim,
             coord_with_queues [] (coord_completed_tasks (drain (coord_pending_tasks c) c))
               (coord_pending_count (drain (coord_pending_tasks c) c))
               (coord_completed_count (drain (coord_pending_tasks c) c))
               (coord_tasks_processed (drain (coord_pending_tasks c) c))
               (coord_calls (drain (coord_pending_tasks c) c))
               (drain (coord_pending_tasks c) c))).
  { subst s'. unfold coordinator_process. rewrite S1, Hst. reflexivity. }
  subst c'. rewrite E. cbn [fst snd coord_with_queues coord_state
    coord_pending_tasks coord_pending_count coord_completed_tasks
    coord_completed_count coord_tasks_processed coord_calls].
  rewrite D1, S1, Hst, D2, D3, D4, D5, D6.
  repeat split; auto.
  - intros H. apply u32_small. lia.
  - intros H. apply u64_small. lia.
  - rewrite H. reflexivity.
  - unfold completion_calls. rewrite length_map. exact S7.
Qed.

Lemma leader_tick_drains_queue_witness :
  let c0 := snd leader_n1 in
  let s' := coordinator_process 3000 5
              (fst leader_n1, submit_all three_submissions c0) in
  coord_state c0 = COORD_STATE_LEADER /\
  coord_pending_tasks c0 = [] /\
  coord_pending_count c0 = 0 /\
  0 <= coord_completed_count c0 < 2 ^ 32 /\
  0 <= coord_tasks_processed c0 < 2 ^ 64 /\
  coord_pending_count (snd s') = 0 /\
  coord_completed_count (snd s') = 3 /\
  coord_tasks_processed (snd s') = 3 /\
  coord_calls (snd s')
  = [CallTaskComplete "task-1700000001-9999" true;
     CallTaskComplete "task-1700000000-42" true;
     CallTaskComplete "task-1700000000-4711" true].
Proof.
  intros c0 s'.
  assert (H1 : coord_state c0 = COORD_STATE_LEADER) by reflexivity.
  assert (H2 : coord_pending_tasks c0 = []) by reflexivity.
  assert (H3 : coord_pending_count c0 = 0) by reflexivity.
  assert (H4 : 0 <= coord_completed_count c0 < 2 ^ 32) by (vm_compute; split; congruence).
  assert (H5 : 0 <= coord_tasks_processed c0 < 2 ^ 64) by (vm_compute; split; congruence).
  destruct (@leader_tick_drains_queue (fst leader_n1) c0 three_submissions
              3000 5 H1 H2 H3 H4 H5)
    as (_ & _ & _ & _ & _ & Hp & _ & _ & _ & Hc & Ht & Hcalls).
  split; [exact H1|]. split; [exact H2|]. split; [exact H3|].
  split; [exact H4|]. split; [exact H5|]. split; [exact Hp|].
  split; [apply Hc; vm_compute; reflexivity|].
  split; [apply Ht; vm_compute; reflexivity|].
  destruct (Hcalls eq_refl) as (E & _).
  etransitivity; [exact E|reflexivity].
Defined.

(* ================================================================= *)
(** ** Coordinator: election *)

Lemma take_leadership_state flag s :
  coord_state (snd (take_leadership flag s)) = COORD_STATE_LEADER.
Proof.
  destruct s as (swim, c). unfold take_leadership.
  destruct (swim_get_local_node swim) as [p|]; [destruct (deref swim p)|];
    reflexivity.
Qed.

Lemma take_leadership_election flag s :
  coord_term (snd (take_leadership flag s)) = coord_term (snd s) /\
  coord_votes_received (snd (take_leadership flag s))
  = coord_votes_received (snd s) /\
  coord_is_main_node (snd (take_leadership true s)) = true.
Proof.
  destruct s as (swim, c). unfold take_leadership.
  destruct (swim_get_local_node swim) as [p|]; [destruct (deref swim p)|];
    repeat split; reflexivity.
Qed.

(** A Follower whose deadline has not passed ignores the tick. *)
Lemma follower_waits swim c now rnd :
  coord_state c = COORD_STATE_FOLLOWER ->
  now <= coord_election_timeout c ->
  coordinator_process now rnd (swim, c) = (swim, c).
Proof.
  intros Hs Hle. unfold coordinator_process. rewrite Hs.
  destruct (now >? coord_election_timeout c) eqn:E; [|reflexivity].
  apply Z.gtb_lt in E. lia.
Qed.

Lemma follower_waits_all swim c early :
  coord_state c = COORD_STATE_FOLLOWER ->
  (forall tr, In tr early -> fst tr <= coord_election_timeout c) ->
  ticks early (swim, c) = (swim, c).
Proof.
  intros Hs. induction early as [|[now rnd] early IH]; intros Hle;
    [reflexivity|].
  unfold ticks. cbn [fold_left fst snd].
  rewrite follower_waits; auto.
  - apply IH. intros tr Hin. apply Hle. right. exact Hin.
  - apply (Hle (now, rnd)). left. reflexivity.
Qed.

(** C5.  A coordinator created with [start_as_main = false] is a Follower
    and stays one, unchanged, through every tick up to its election
    deadline; on the first tick after the deadline, if its engine counts
    at most one Alive node, it is Leader when the tick returns (term 2,
    [is_main] set).  A Candidate's tick makes it Leader exactly when
    [votes_received > alive_count / 2]; an election starts with the own
    vote, [votes_received = 1]. *)
Theorem election_by_timeout_and_majority :
  forall (swim : swim_context_t) (now0 rnd0 : Z),
    let s0 := coordinator_init now0 rnd0 false swim in
    let deadline := coord_election_timeout (snd s0) in
    (forall early t rnd,
        swim_get_node_count swim NODE_STATE_ALIVE <= 1 ->
        (forall tr, In tr early -> fst tr <= deadline) ->
        deadline < t ->
        let s1 := ticks (early ++ [(t, rnd)]) s0 in
        coord_state (snd s0) = COORD_STATE_FOLLOWER /\
        ticks early s0 = s0 /\
        coord_state (snd s1) = COORD_STATE_LEADER /\
        coordinator_is_leader (snd s1) = true /\
        coord_is_main_node (snd s1) = true /\
        coord_term (snd s1) = 2) /\
    (forall c now rnd,
        coord_state c = COORD_STATE_CANDIDATE ->
        0 <= coord_votes_received c < 2 ^ 31 ->
        (coord_state (snd (coordinator_process now rnd (swim, c)))
         = COORD_STATE_LEADER
         <-> coord_votes_received c
             > swim_get_node_count swim NODE_STATE_ALIVE / 2)) /\
    (forall c now rnd,
        coord_votes_received (snd (coordinator_start_election now rnd (swim, c)))
        = 1).
Proof.
  intros swim now0 rnd0 s0 deadline. split; [|split].
  - intros early t rnd Halive Hearly Hlate s1.
    assert (E0 : s0 = (swim, snd s0)) by reflexivity.
    assert (Hf : coord_state (snd s0) = COORD_STATE_FOLLOWER) by reflexivity.
    assert (Hw : ticks early s0 = s0).
    { rewrite E0 at 1 2. apply follower_waits_all; assumption. }
    assert (E1 : s1 = coordinator_start_election t rnd s0).
    { subst s1. unfold ticks. rewrite fold_left_app. fold (ticks early s0).
      rewrite Hw. cbn [fold_left fst snd]. rewrite E0 at 1.
      unfold coordinator_process. rewrite Hf.
      fold deadline. apply Z.gtb_lt in Hlate. rewrite Hlate. reflexivity. }
    assert (E2 : s1 = take_leadership true
                        (swim, coord_with_election COORD_STATE_CANDIDATE
                                 (u32 (coord_term (snd s0) + 1))
                                 (t + random_election_timeout rnd) 1 (snd s0))).
    { rewrite E1, E0. unfold coordinator_start_election.
      apply Z.leb_le in Halive. cbn [snd]. rewrite Halive. reflexivity. }
    split; [exact Hf|]. split; [exact Hw|].
    assert (Hl : coord_state (snd s1) = COORD_STATE_LEADER).
    { rewrite E2. apply take_leadership_state. }
    split; [exact Hl|]. split; [unfold coordinator_is_leader; rewrite Hl;
                                reflexivity|].
    rewrite E2.
    match goal with |- context [take_leadership true ?s] =>
      destruct (take_leadership_election true s) as (Ht & _ & Hm) end.
    split; [exact Hm|]. rewrite Ht. reflexivity.
  - intros c now rnd Hc Hv. unfold coordinator_process. rewrite Hc.
    rewrite u32_small by lia.
    destruct (coord_votes_received c
              >? swim_get_node_count swim NODE_STATE_ALIVE / 2) eqn:E.
    + rewrite take_leadership_state. apply Z.gtb_lt in E.
      split; intros; [lia|reflexivity].
    + cbn [snd]. rewrite Hc. split; intros H; [discriminate|].
      apply Z.gt_lt, Z.gtb_lt in H. congruence.
  - intros c now rnd. unfold coordinator_start_election.
    destruct (swim_get_node_count swim NODE_STATE_ALIVE <=? 1); [|reflexivity].
    match goal with |- context [take_leadership true ?s] =>
      destruct (take_leadership_election true s) as (_ & Hv & _) end.
    rewrite Hv. reflexivity.
Qed.

Lemma election_by_timeout_and_majority_witness :
  let s0 := coordinator_init 1000 7 false engine_n1 in
  swim_get_node_count engine_n1 NODE_STATE_ALIVE <= 1 /\
  (forall tr, In tr [(1100, 1); (1157, 2)] ->
              fst tr <= coord_election_timeout (snd s0)) /\
  coord_election_timeout (snd s0) < 1158 /\
  ticks [(1100, 1); (1157, 2)] s0 = s0 /\
  coordinator_is_leader
    (snd (ticks ([(1100, 1); (1157, 2)] ++ [(1158, 3)]) s0)) = true.
Proof.
  intros s0.
  assert (H1 : swim_get_node_count engine_n1 NODE_STATE_ALIVE <= 1)
    by (vm_compute; discriminate).
  assert (H2 : forall tr, In tr [(1100, 1); (1157, 2)] ->
                          fst tr <= coord_election_timeout (snd s0)).
  { intros tr [<-|[<-|[]]]; vm_compute; discriminate. }
  assert (H3 : coord_election_timeout (snd s0) < 1158) by reflexivity.
  destruct (election_by_timeout_and_majority engine_n1 1000 7) as (H & _ & _).
  destruct (H [(1100, 1); (1157, 2)] 1158 3 H1 H2 H3)
    as (_ & Hw & _ & Hl & _).
  split; [exact H1|]. split; [exact H2|]. split; [exact H3|].
  split; [exact Hw|exact Hl].
Defined.

(* ================================================================= *)
(** ** Instance manager: port allocation *)

Lemma port_in_use_false m port :
  port_in_use m port = false <-> port_free m port.
Proof.
  unfold port_in_use, port_free. induction (mgr_instances m) as [|a l IH];
    cbn [existsb In].
  - split; [intros _ n []|reflexivity].
  - rewrite orb_false_iff, orb_false_iff, IH, !Z.eqb_neq. split.
    + intros ((H1 & H2) & H3) n [<-|Hin]; auto.
    + intros H. split; [apply H; left; reflexivity|].
      intros n Hin. apply H. right. exact Hin.
Qed.

(** The scan stays inside the range and stops on a free port only. *)
Lemma scan_ports_sound m iters port q :
  mgr_port_range_end m <= 65535 ->
  mgr_port_range_start m <= port < mgr_port_range_end m ->
  0 < mgr_port_range_start m ->
  scan_ports m iters port = Some q ->
  mgr_port_range_start m <= q < mgr_port_range_end m /\ port_free m q.
Proof.
  intros Hend. revert port. induction iters as [|k IH]; intros port Hr H0 Hs;
    cbn [scan_ports] in Hs; [discriminate|].
  destruct (port_in_use m port) eqn:E.
  - apply IH in Hs; auto.
    rewrite u16_small by lia.
    destruct (port + 1 >=? mgr_port_range_end m) eqn:G; [lia|].
    rewrite Z.geb_leb in G. apply Z.leb_gt in G. lia.
  - inversion Hs; subst. split; [exact Hr|]. apply port_in_use_false. exact E.
Qed.

(** The allocator on a manager whose cursor is in range: the port it
    returns is 0, or a port of the range that no owned instance holds; the
    cursor stays in range and nothing else changes. *)
Lemma allocate_port_safe m :
  cursor_in_range m ->
  let (port, m') := node_manager_allocate_port m in
  (port = 0 \/
   (mgr_port_range_start m <= port < mgr_port_range_end m /\ port_free m port)) /\
  cursor_in_range m' /\
  mgr_instances m' = mgr_instances m /\
  mgr_instance_count m' = mgr_instance_count m /\
  mgr_port_range_start m' = mgr_port_range_start m /\
  mgr_port_range_end m' = mgr_port_range_end m.
Proof.
  intros (H0 & Hend & Hcur). unfold node_manager_allocate_port.
  destruct (scan_ports m _ _) as [q|] eqn:Hs.
  - assert (Hlt : mgr_port_range_start m < mgr_port_range_end m).
    { destruct (Z.to_nat (mgr_port_range_end m - mgr_port_range_start m))
        eqn:E; [discriminate|]. lia. }
    destruct (@scan_ports_sound m _ _ q Hend (Hcur Hlt) H0 Hs) as (Hq & Hfree).
    split; [right; split; assumption|].
    split; [|repeat split; reflexivity].
    unfold cursor_in_range. cbn. split; [exact H0|]. split; [exact Hend|].
    intros _. rewrite u16_small by lia.
    destruct (q + 1 >=? mgr_port_range_end m) eqn:G; [lia|].
    rewrite Z.geb_leb in G. apply Z.leb_gt in G. lia.
  - split; [left; reflexivity|].
    split; [exact (conj H0 (conj Hend Hcur))|repeat split; reflexivity].
Qed.

(** [node_manager_init] puts the cursor in range whatever the
    arguments (given as [uint16_t]). *)
Lemma init_cursor_in_range server_id port_start port_end :
  0 <= port_start <= 65535 -> 0 <= port_end <= 65535 ->
  cursor_in_range (node_manager_init server_id port_start port_end).
Proof.
  intros Hs He. unfold cursor_in_range, node_manager_init. cbn.
  assert (Hu : 0 <= u16 (port_start + 100) <= 65535).
  { unfold u16, wrap. pose proof (Z.mod_pos_bound (port_start + 100) (2 ^ 16)).
    lia. }
  destruct (port_start =? 0) eqn:E1; destruct (port_end =? 0) eqn:E2;
    try apply Z.eqb_neq in E1; try apply Z.eqb_neq in E2; lia.
Qed.

(** C6.  The range of a manager initialised without a configuration,
    [node_manager_init (id, 0, 0)], is not {7946, 8046}: the default end
    is computed from the argument [port_start], not from the start that
    was just defaulted, and comes out as 100.  The range [7946, 100) is
    empty, the allocator answers 0 and no instance with automatic ports
    can be created.  (With [port_start = 7946] given, the same default
    yields 8046.) *)
Theorem default_port_range_end_is_100 :
  let m := node_manager_init "srv" 0 0 in
  mgr_port_range_start m = 7946 /\
  mgr_port_range_end m = 100 /\
  fst (node_manager_allocate_port m) = 0 /\
  fst (node_manager_create_node sock_always sendto_ok 100 1000 7
                                auto_config m) = None /\
  mgr_port_range_end (node_manager_init "srv" 7946 0) = 8046.
Proof. vm_compute. repeat split; reflexivity. Qed.

(* ================================================================= *)
(** ** Instance manager: creation on a range of two ports *)

Lemma map_store (A B : Type) (g : A -> B) p x l y :
  nth_error l p = Some y -> g x = g y -> map g (store p x l) = map g l.
Proof.
  revert p; induction l as [|h t IH]; intros [|p]; simpl; intros H E;
    try discriminate.
  - inversion H; subst. rewrite E. reflexivity.
  - rewrite (IH p H E). reflexivity.
Qed.

Lemma on_instance_port_table p f m :
  (forall n, inst_ports (f n) = inst_ports n) ->
  port_table (on_instance p f m) = port_table m.
Proof.
  intros Hf. unfold on_instance.
  destruct (nth_error (mgr_instances m) p) as [n|] eqn:E; [|reflexivity].
  unfold port_table. cbn. rewrite (@map_store _ _ inst_ports p (f n) (mgr_instances m) n E (Hf n)).
  reflexivity.
Qed.

Lemma start_node_port_table now_s id m :
  port_table (snd (node_manager_start_node now_s id m)) = port_table m.
Proof.
  unfold node_manager_start_node.
  destruct (node_manager_get_node m id) as [p|]; [|reflexivity].
  destruct (nth_error (mgr_instances m) p) as [n|]; [|reflexivity].
  destruct (inst_is_running n); [reflexivity|].
  cbn [snd]. apply on_instance_port_table. reflexivity.
Qed.

Lemma port_in_use_table m m' port :
  map inst_ports (mgr_instances m') = map inst_ports (mgr_instances m) ->
  port_in_use m' port = port_in_use m port.
Proof.
  unfold port_in_use. generalize (mgr_instances m') (mgr_instances m).
  induction l as [|a l IH]; intros [|b l'] E; try discriminate;
    [reflexivity|].
  cbn in E. inversion E as [[E1 E2 E3]]. cbn [existsb].
  rewrite E1, E2, (IH l' E3). reflexivity.
Qed.

(** A manager whose two ports are both taken by its one instance refuses
    to allocate. *)
Lemma allocate_port_exhausted m :
  port_table m = ([(7946, 7947)], 1, 16, 7946, 7948, 7946) ->
  node_manager_allocate_port m = (0, m).
Proof.
  intros H. unfold port_table in H.
  apply pair_equal_spec in H as (H & Hn). apply pair_equal_spec in H as (H & He).
  apply pair_equal_spec in H as (H & Hs). apply pair_equal_spec in H as (H & _).
  apply pair_equal_spec in H as (Hp & _).
  assert (U : port_in_use m 7946 = true /\ port_in_use m 7947 = true).
  { unfold port_in_use. destruct (mgr_instances m) as [|a [|b l]];
      try discriminate. cbn in Hp. inversion Hp as [[E1 E2]]. cbn.
    rewrite E1, E2, orb_true_r. split; reflexivity. }
  destruct U as (U1 & U2).
  unfold node_manager_allocate_port. rewrite Hs, He, Hn.
  change (Z.to_nat (7948 - 7946)) with 2%nat. cbn [scan_ports].
  rewrite U1, He, Hs. change (u16 (7946 + 1)) with 7947.
  change (7947 >=? 7948) with false. cbv iota. rewrite U2.
  reflexivity.
Qed.

Lemma head_of_port_table m ports rest :
  map inst_ports (mgr_instances m) = ports :: rest ->
  exists n, nth_error (mgr_instances m) 0 = Some n /\ inst_ports n = ports.
Proof.
  destruct (mgr_instances m) as [|a l]; [discriminate|].
  cbn. intros E. inversion E; subst. eauto.
Qed.

(** The first instance with automatic ports takes both ports of the range
    and leaves the cursor where it started. *)
Lemma first_create sock_ok sendto now_s now_ms rnd server_id cfg :
  cfg_swim_port cfg = 0 -> cfg_ws_port cfg = 0 -> sock_ok 7946 = true ->
  let r := node_manager_create_node sock_ok sendto now_s now_ms rnd cfg
             (node_manager_init server_id 7946 7948) in
  (exists n, fst r = Some n /\ inst_ports n = (7946, 7947)) /\
  port_table (snd r) = ([(7946, 7947)], 1, 16, 7946, 7948, 7946).
Proof.
  intros Hs Hw Hsock r. subst r. unfold node_manager_create_node.
  rewrite Hs, Hw.
  change (node_manager_allocate_port (node_manager_init server_id 7946 7948))
    with (7946, mgr_with_next 7947 (node_manager_init server_id 7946 7948)).
  cbn [Z.eqb andb mgr_instance_count mgr_max_instances node_manager_init Z.geb Z.compare Pos.compare Pos.compare_cont MAX_NODES_PER_SERVER].
  cbv iota.
  change (node_manager_allocate_port
            (mgr_with_next 7947 (node_manager_init server_id 7946 7948)))
    with (7947, mgr_with_next 7946 (node_manager_init server_id 7946 7948)).
  cbv iota. rewrite Hsock. unfold swim_init.
  change (7946 =? 0) with false. change (SWIM_DEFAULT_INTERVAL =? 0) with false.
  cbv iota.
  match goal with |- context [coordinator_init ?a ?b ?c ?d] =>
    destruct (coordinator_init a b c d) as (swim1, coord) end.
  match goal with |- context [mgr_with_instances (?n :: _) _ _] =>
    set (node := n) end.
  match goal with |- context [mgr_with_instances ?l ?k ?m] =>
    set (m3 := mgr_with_instances l k m) end.
  assert (T3 : port_table m3 = ([(7946, 7947)], 1, 16, 7946, 7948, 7946))
    by reflexivity.
  destruct (cfg_auto_start cfg).
  - match goal with |- context [node_manager_start_node ?t ?i m3] =>
      pose proof (start_node_port_table t i m3) as T4;
      set (m4 := snd (node_manager_start_node t i m3)) in * end.
    rewrite T3 in T4.
    match goal with |- context [if ?b then on_instance 0 ?f m4 else m4] =>
      assert (T5 : port_table (if b then on_instance 0 f m4 else m4)
                   = ([(7946, 7947)], 1, 16, 7946, 7948, 7946));
      [destruct b; [rewrite on_instance_port_table; [exact T4|reflexivity]
                   |exact T4]|];
      set (m5 := if b then on_instance 0 f m4 else m4) in * end.
    cbn [fst snd]. split; [|exact T5].
    apply head_of_port_table with (rest := []).
    unfold port_table in T5. congruence.
  - cbn [fst snd]. split; [|exact T3]. exists node. split; reflexivity.
Qed.

(** With both ports taken, creation with automatic ports fails and leaves
    the manager as it was. *)
Lemma create_exhausted sock_ok sendto now_s now_ms rnd cfg m :
  cfg_swim_port cfg = 0 ->
  port_table m = ([(7946, 7947)], 1, 16, 7946, 7948, 7946) ->
  node_manager_create_node sock_ok sendto now_s now_ms rnd cfg m = (None, m).
Proof.
  intros Hs T. unfold node_manager_create_node.
  rewrite (allocate_port_exhausted T), Hs.
  unfold port_table in T.
  apply pair_equal_spec in T as (T & _). apply pair_equal_spec in T as (T & _).
  apply pair_equal_spec in T as (T & _). apply pair_equal_spec in T as (T & Hm).
  apply pair_equal_spec in T as (_ & Hc).
  rewrite Hc, Hm. reflexivity.
Qed.

(** C3, as the code has it.  Every instance takes two ports from the pool,
    one for the membership protocol and one for the application.  On the
    range [7946, 7948) the first create call with automatic ports succeeds
    and takes both (7946 and 7947); the second create call fails and
    leaves the manager unchanged, with one instance. *)
Theorem two_port_range_hosts_one_instance :
  forall (sock_ok : Z -> bool) (sendto : datagram_out -> bool)
         (server_id : string)
         (now_s1 now_ms1 rnd1 : Z) (cfg1 : node_instance_config_t)
         (now_s2 now_ms2 rnd2 : Z) (cfg2 : node_instance_config_t),
    cfg_swim_port cfg1 = 0 -> cfg_ws_port cfg1 = 0 ->
    cfg_swim_port cfg2 = 0 -> cfg_ws_port cfg2 = 0 ->
    sock_ok 7946 = true ->
    let m0 := node_manager_init server_id 7946 7948 in
    let r1 := node_manager_create_node sock_ok sendto now_s1 now_ms1 rnd1
                                       cfg1 m0 in
    let r2 := node_manager_create_node sock_ok sendto now_s2 now_ms2 rnd2
                                       cfg2 (snd r1) in
    (exists n1, fst r1 = Some n1 /\
                inst_swim_port n1 = 7946 /\ inst_ws_port n1 = 7947) /\
    node_manager_total_count (snd r1) = 1 /\
    fst r2 = None /\
    snd r2 = snd r1 /\
    node_manager_total_count (snd r2) = 1.
Proof.
  intros sock_ok sendto server_id now_s1 now_ms1 rnd1 cfg1 now_s2 now_ms2 rnd2
         cfg2 Hs1 Hw1 Hs2 Hw2 Hsock m0 r1 r2.
  destruct (@first_create sock_ok sendto now_s1 now_ms1 rnd1 server_id cfg1
              Hs1 Hw1 Hsock) as ((n1 & Hn1 & Hp1) & T).
  fold m0 in Hn1, T. fold r1 in Hn1, T.
  assert (E2 : r2 = (None, snd r1)).
  { subst r2. apply create_exhausted; assumption. }
  assert (Hc : node_manager_total_count (snd r1) = 1).
  { unfold port_table in T. unfold node_manager_total_count. congruence. }
  split.
  - exists n1. unfold inst_ports in Hp1. inversion Hp1. auto.
  - rewrite E2. cbn [fst snd]. auto.
Qed.

Lemma two_port_range_hosts_one_instance_witness :
  let m0 := node_manager_init "srv" 7946 7948 in
  let r1 := node_manager_create_node sock_always sendto_ok 100 1000 7
                                     auto_config m0 in
  let r2 := node_manager_create_node sock_always sendto_ok 101 1001 8
                                     auto_config (snd r1) in
  cfg_swim_port auto_config = 0 /\ cfg_ws_port auto_config = 0 /\
  sock_always 7946 = true /\
  option_map inst_ports (fst r1) = Some (7946, 7947) /\
  fst r2 = None /\ snd r2 = snd r1 /\
  node_manager_total_count (snd r2) = 1.
Proof.
  intros m0 r1 r2.
  destruct (@two_port_range_hosts_one_instance sock_always sendto_ok "srv"
              100 1000 7 auto_config 101 1001 8 auto_config
              eq_refl eq_refl eq_refl eq_refl eq_refl)
    as ((n1 & Hn1 & Hp1 & Hp2) & _ & Hf & Hm & Hc).
  fold m0 in Hn1, Hf, Hm, Hc. fold r1 in Hn1, Hf, Hm, Hc.
  fold r2 in Hf, Hm, Hc.
  split; [reflexivity|]. split; [reflexivity|]. split; [reflexivity|].
  split; [|auto].
  rewrite Hn1. unfold inst_ports. cbn. rewrite Hp1, Hp2. reflexivity.
Defined.

(** C3, as the specification has it, fails on the code: on the range
    [7946, 7948) the second create call with automatic ports does not
    succeed. *)
Lemma two_port_range_second_create_fails :
  let m0 := node_manager_init "srv" 7946 7948 in
  let r1 := node_manager_create_node sock_always sendto_ok 100 1000 7
                                     auto_config m0 in
  let r2 := node_manager_create_node sock_always sendto_ok 101 1001 8
                                     auto_config (snd r1) in
  let r3 := node_manager_create_node sock_always sendto_ok 102 1002 9
                                     auto_config (snd r2) in
  ~ (fst r1 <> None /\ fst r2 <> None /\ fst r3 = None /\
     snd r3 = snd r2 /\ node_manager_total_count (snd r3) = 2).
Proof.
  intros m0 r1 r2 r3 (_ & H2 & _). apply H2. vm_compute. reflexivity.
Qed.

(* ================================================================= *)
(** ** The membership list under the engine's operations *)

Lemma find_ptr_none (A : Type) (f : A -> bool) (l : list A) :
  find_ptr f l = None -> forall x, In x l -> f x = false.
Proof.
  induction l as [|h t IH]; simpl; intros H x Hin; [contradiction|].
  destruct (f h) eqn:E; [discriminate|].
  destruct (find_ptr f t); [discriminate|].
  destruct Hin as [<-|Hin]; auto.
Qed.

Lemma same_key_refl a : same_key a a.
Proof. split; reflexivity. Qed.

Lemma same_key_trans a b c : same_key a b -> same_key b c -> same_key a c.
Proof. intros (H1 & H2) (H3 & H4). split; congruence. Qed.

Lemma same_key_ids l l' :
  Forall2 same_key l l' -> map node_id l' = map node_id l.
Proof.
  induction 1 as [|a b l l' (E & _) _ IH]; simpl; [reflexivity|].
  rewrite E, IH. reflexivity.
Qed.

Lemma same_key_locals l l' :
  Forall2 same_key l l' ->
  List.length (filter node_is_local l') = List.length (filter node_is_local l).
Proof.
  induction 1 as [|a b l l' (_ & E) _ IH]; simpl; [reflexivity|].
  rewrite E. destruct (node_is_local a); simpl; rewrite IH; reflexivity.
Qed.

Lemma filter_all_false (A : Type) (f : A -> bool) (l : list A) :
  Forall (fun x => f x = false) l -> filter f l = [].
Proof.
  induction 1 as [|a l E _ IH]; simpl; [reflexivity|]. rewrite E. exact IH.
Qed.

Lemma grows_refl c : grows c c.
Proof.
  exists [], (ctx_nodes c). cbn. repeat split; auto.
  - apply Forall2_same, same_key_refl.
  - intros k Hk. rewrite Z.add_0_r. exact Hk.
Qed.

(** A change that leaves the list, the id and the count alone. *)
Lemma grows_same_nodes c c' :
  ctx_nodes c' = ctx_nodes c -> ctx_local_id c' = ctx_local_id c ->
  ctx_node_count c' = ctx_node_count c -> grows c c'.
Proof.
  intros Hn Hi Hc. exists [], (ctx_nodes c). cbn. repeat split; auto.
  - apply Forall2_same, same_key_refl.
  - unfold node_ids. rewrite Hn. auto.
  - intros k Hk. rewrite Z.add_0_r, Hc. exact Hk.
Qed.

Lemma grows_trans c1 c2 c3 : grows c1 c2 -> grows c2 c3 -> grows c1 c3.
Proof.
  intros (f1 & o1 & N1 & F1 & L1 & D1 & I1 & K1)
         (f2 & o2 & N2 & F2 & L2 & D2 & I2 & K2).
  rewrite N1 in F2. apply Forall2_app_inv_l in F2.
  destruct F2 as (f1' & o1' & Ff & Fo & E). subst o2.
  exists (f2 ++ f1'), o1'. split; [rewrite N2, app_assoc; reflexivity|].
  split; [eapply Forall2_trans; eauto using same_key_trans|].
  split.
  { apply Forall_app. split; [exact L2|].
    clear - Ff L1. induction Ff as [|a b l l' (_ & E) _ IH];
      [constructor|]. inversion L1; subst. constructor; [congruence|auto]. }
  split; [auto|]. split; [congruence|].
  intros k Hk. rewrite (K2 _ (K1 _ Hk)). f_equal.
  rewrite length_app, Nat2Z.inj_add.
  assert (List.length f1' = List.length f1)
    by (symmetry; eapply Forall2_length; eauto).
  lia.
Qed.

(** A list that has only grown keeps the shape. *)
Lemma grows_wf c c' : grows c c' -> engine_wf c -> engine_wf c'.
Proof.
  intros (fresh & old & N & F & L & D & I & K) (W1 & W2 & W3 & W4).
  unfold engine_wf. split; [auto|]. rewrite N.
  split; [|split].
  - rewrite filter_app, (filter_all_false _ L). cbn.
    rewrite (same_key_locals F). exact W2.
  - intros n Hin Hl. apply in_app_or in Hin. destruct Hin as [Hin|Hin].
    + rewrite Forall_forall in L. rewrite (L n Hin) in Hl. discriminate.
    + destruct (In_nth_error _ _ Hin) as (j & Hj).
      assert (exists a, nth_error (ctx_nodes c) j = Some a /\ same_key a n)
        as (a & Ha & E1 & E2).
      { clear - F Hj. revert j Hj. induction F as [|a b l l' S _ IH];
          intros [|j] Hj; simpl in *; try discriminate.
        - inversion Hj; subst. eauto.
        - apply IH; assumption. }
      rewrite I, E1. apply W3; [eapply nth_error_In; eauto|congruence].
  - rewrite (K _ W4). f_equal. rewrite length_app, Nat2Z.inj_add.
    rewrite <- (Forall2_length F). lia.
Qed.

(** The ids of a list that has only grown. *)
Lemma grows_ids c c' :
  grows c c' -> exists fresh, node_ids c' = fresh ++ node_ids c.
Proof.
  intros (fresh & old & N & F & _). exists (map node_id fresh).
  unfold node_ids. rewrite N, map_app, (same_key_ids F). reflexivity.
Qed.

Lemma grows_assign p g c :
  (forall n, same_key n (g n)) -> grows c (assign p g c).
Proof.
  intros Hg. unfold assign. destruct (deref c p) as [n|] eqn:E;
    [|apply grows_refl].
  exists [], (store p (g n) (ctx_nodes c)). cbn.
  assert (F : Forall2 same_key (ctx_nodes c) (store p (g n) (ctx_nodes c))).
  { eapply Forall2_store; eauto using same_key_refl. }
  repeat split; auto.
  - unfold node_ids. cbn. rewrite (same_key_ids F). auto.
  - intros k Hk. rewrite Z.add_0_r. exact Hk.
Qed.

Lemma grows_set_main b c : grows c (swim_set_main_node b c).
Proof.
  destruct (swim_get_local_node c) as [p|] eqn:Hl.
  - destruct (find_ptr_some _ _ Hl) as (n & Hn & _).
    destruct (set_main_step b c Hl Hn) as (_ & Hnodes & _ & _ & Hid).
    exists [], (ctx_nodes (swim_set_main_node b c)). cbn.
    assert (F : Forall2 same_key (ctx_nodes c)
                        (ctx_nodes (swim_set_main_node b c))).
    { rewrite Hnodes. eapply Forall2_store; eauto using same_key_refl.
      split; reflexivity. }
    repeat split; auto.
    + unfold node_ids. rewrite (same_key_ids F). auto.
    + intros k Hk. rewrite Z.add_0_r, <- Hk.
      unfold swim_set_main_node, swim_get_local_node in *.
      cbn [ctx_nodes ctx_with_main]. rewrite Hl.
      unfold assign, deref in *. cbn [ctx_nodes ctx_with_main]. rewrite Hn.
      reflexivity.
  - rewrite (set_main_no_local b c Hl). apply grows_same_nodes; reflexivity.
Qed.

Lemma sets_main_only_keeps_peers (U : Type) (cb : option (swim_node_event_cb U)) :
  callback_sets_main_only cb -> callback_keeps_peers cb.
Proof.
  intros H f Hf n old new c u.
  destruct (H f Hf n old new c u) as [E|E]; rewrite E.
  - apply keeps_peers_refl.
  - apply set_main_keeps_peers.
Qed.

Lemma take_leadership_engine flag swim c :
  fst (take_leadership flag (swim, c)) = swim \/
  fst (take_leadership flag (swim, c)) = swim_set_main_node true swim.
Proof.
  unfold take_leadership.
  destruct (swim_get_local_node swim) as [p|]; [|left; reflexivity].
  destruct (deref swim p); [right|left]; reflexivity.
Qed.

Lemma start_election_engine now_ms rnd swim c :
  fst (coordinator_start_election now_ms rnd (swim, c)) = swim \/
  fst (coordinator_start_election now_ms rnd (swim, c))
  = swim_set_main_node true swim.
Proof.
  unfold coordinator_start_election.
  destruct (swim_get_node_count swim NODE_STATE_ALIVE <=? 1).
  - apply take_leadership_engine.
  - left; reflexivity.
Qed.

Lemma coordinator_callback_sets_main_only now_ms rnd :
  callback_sets_main_only (Some (on_node_event now_ms rnd)).
Proof.
  intros f Hf n old new c u. inversion Hf; subst; clear Hf.
  unfold on_node_event. destruct (streq _ _ && _).
  - apply start_election_engine.
  - left; reflexivity.
Qed.

Lemma no_callback_sets_main_only (U : Type) :
  callback_sets_main_only (@None (swim_node_event_cb U)).
Proof. intros f Hf. discriminate. Qed.

Section Growth.
Variable U : Type.
Variable cb : option (swim_node_event_cb U).
Variable sendto : datagram_out -> bool.
Hypothesis cb_main : callback_sets_main_only cb.

Lemma grows_notify n old new (w : world U) :
  grows (w_ctx w) (w_ctx (notify cb n old new w)).
Proof.
  unfold notify. destruct cb as [f|] eqn:E; [|apply grows_refl].
  pose proof (cb_main eq_refl n old new (w_ctx w) (w_user w)) as H.
  destruct (f n old new (w_ctx w) (w_user w)) as (c', u'). cbn in *.
  destruct H as [->| ->]; [apply grows_refl|apply grows_set_main].
Qed.

Lemma grows_fold (A : Type) (f : world U -> A -> world U) l :
  (forall w x, grows (w_ctx w) (w_ctx (f w x))) ->
  forall w, grows (w_ctx w) (w_ctx (fold_left f l w)).
Proof.
  intros Hf. induction l as [|x l IH]; intros w; cbn; [apply grows_refl|].
  eapply grows_trans; [apply Hf|apply IH].
Qed.

Lemma grows_update_state now p st (w : world U) :
  grows (w_ctx w) (w_ctx (swim_update_node_state cb now p st w)).
Proof.
  unfold swim_update_node_state.
  destruct (deref (w_ctx w) p) as [n|]; [|apply grows_refl].
  destruct (node_state n =? st); [apply grows_refl|].
  eapply grows_trans; [|apply grows_notify].
  cbn. apply grows_assign. intros n0. split; reflexivity.
Qed.

Lemma grows_add_node now node (w : world U) :
  node_is_local node = false ->
  grows (w_ctx w) (w_ctx (swim_add_node cb now node w)).
Proof.
  intros Hl. unfold swim_add_node.
  destruct (swim_find_node (w_ctx w) (node_id node)) as [p|] eqn:Hf.
  - match goal with |- context [on_ctx (assign p ?g) w] =>
      assert (G : grows (w_ctx w) (w_ctx (on_ctx (assign p g) w)))
        by (cbn; apply grows_assign; intros n0; split; reflexivity);
      set (w1 := on_ctx (assign p g) w) in * end.
    destruct (deref (w_ctx w1) p) as [e|]; [|exact G].
    destruct (negb (node_state e =? node_state node)); [|exact G].
    eapply grows_trans; [exact G|apply grows_update_state].
  - eapply grows_trans; [|apply grows_notify]. cbn.
    exists [node], (ctx_nodes (w_ctx w)). cbn. repeat split.
    + apply Forall2_same, same_key_refl.
    + constructor; [exact Hl|constructor].
    + intros D. unfold node_ids. cbn. constructor; [|exact D].
      intros Hin. apply in_map_iff in Hin. destruct Hin as (x & E & Hin).
      pose proof (find_ptr_none _ _ Hf x Hin) as F. cbn in F.
      unfold streq in F. rewrite E, String.eqb_refl in F. discriminate.
    + intros k Hk. rewrite Hk. apply u32_succ_u32.
Qed.

Lemma grows_transmit d (w : world U) :
  grows (w_ctx w) (w_ctx (snd (transmit sendto d w))).
Proof.
  unfold transmit. cbn. destruct (sendto d); [|apply grows_refl].
  apply grows_same_nodes; reflexivity.
Qed.

Lemma grows_send_ping target (w : world U) :
  grows (w_ctx w) (w_ctx (swim_send_ping sendto target w)).
Proof.
  unfold swim_send_ping.
  destruct (deref (w_ctx w) target) as [t|]; [|apply grows_refl].
  match goal with |- context [transmit sendto ?d ?w1] =>
    pose proof (grows_transmit d w1) as G;
    destruct (transmit sendto d w1) as (ok, w2) end.
  cbn in G.
  assert (G1 : grows (w_ctx w) (w_ctx w2)).
  { eapply grows_trans; [|exact G]. apply grows_same_nodes; reflexivity. }
  destruct ok; [|exact G1].
  eapply grows_trans; [exact G1|]. cbn. apply grows_assign.
  intros n0. split; reflexivity.
Qed.

Lemma grows_send_ack target seq (w : world U) :
  grows (w_ctx w) (w_ctx (swim_send_ack sendto target seq w)).
Proof.
  unfold swim_send_ack.
  destruct (deref (w_ctx w) target) as [t|]; [|apply grows_refl].
  apply grows_transmit.
Qed.

Lemma grows_send_sync target (w : world U) :
  grows (w_ctx w) (w_ctx (swim_send_sync sendto target w)).
Proof.
  unfold swim_send_sync.
  destruct (deref (w_ctx w) target) as [t|]; [|apply grows_refl].
  eapply grows_trans; [|apply grows_transmit].
  cbn. apply grows_same_nodes; reflexivity.
Qed.

Lemma grows_sync_merge_record now upd (w : world U) :
  grows (w_ctx w) (w_ctx (sync_merge_record cb now upd w)).
Proof.
  unfold sync_merge_record.
  destruct (streq _ _); [apply grows_refl|].
  destruct (swim_find_node (w_ctx w) (upd_id upd)) as [p|].
  - destruct (deref (w_ctx w) p) as [n|]; [|apply grows_refl].
    destruct (upd_incarnation upd >? node_incarnation n); [|apply grows_refl].
    match goal with |- context [on_ctx (assign p ?g) w] =>
      assert (G : grows (w_ctx w) (w_ctx (on_ctx (assign p g) w)))
        by (cbn; apply grows_assign; intros n0; split; reflexivity) end.
    destruct (negb (node_state n =? upd_state upd)); [|exact G].
    eapply grows_trans; [exact G|apply grows_update_state].
  - apply grows_add_node. reflexivity.
Qed.

Lemma grows_sync_merge now dg (w : world U) :
  grows (w_ctx w) (w_ctx (sync_merge cb now dg w)).
Proof.
  unfold sync_merge. apply grows_fold. intros w0 i.
  apply grows_sync_merge_record.
Qed.

Lemma grows_refresh_sender now addr port h (w : world U) :
  grows (w_ctx w) (w_ctx (snd (refresh_sender cb now addr port h w))).
Proof.
  unfold refresh_sender.
  match goal with |- context [let '(sender, w1) := ?e in _] =>
    assert (G : grows (w_ctx w) (w_ctx (snd e)));
    [|destruct e as (sender, w1)] end.
  { destruct (swim_find_node (w_ctx w) (hdr_sender_id h));
      [apply grows_refl|].
    destruct (negb (hdr_type h =? SWIM_MSG_SYNC)); [|apply grows_refl].
    cbn. apply grows_add_node. reflexivity. }
  cbn in G. destruct sender as [p|]; [|exact G]. cbn [snd].
  set (w2 := on_ctx (assign p (node_with_last_seen now)) w1).
  assert (G2 : grows (w_ctx w) (w_ctx w2)).
  { eapply grows_trans; [exact G|]. cbn. apply grows_assign.
    intros n0. split; reflexivity. }
  match goal with |- context [match deref (w_ctx ?w3e) p with _ => _ end] =>
    assert (G3 : grows (w_ctx w) (w_ctx w3e)); [|set (w3 := w3e) in *] end.
  { destruct (deref (w_ctx w2) p) as [s|]; [|exact G2].
    destruct (negb (node_state s =? NODE_STATE_ALIVE)); [|exact G2].
    eapply grows_trans; [exact G2|apply grows_update_state]. }
  destruct (deref (w_ctx w3) p) as [s|]; [|exact G3].
  destruct (hdr_incarnation h >? node_incarnation s); [|exact G3].
  eapply grows_trans; [exact G3|]. cbn. apply grows_assign.
  intros n0. split; reflexivity.
Qed.

Lemma grows_handle_message now addr port dg (w : world U) :
  grows (w_ctx w) (w_ctx (swim_handle_message cb sendto now addr port dg w)).
Proof.
  unfold swim_handle_message.
  destruct (in_len dg <? sizeof_swim_message_header_t); [apply grows_refl|].
  pose proof (grows_refresh_sender now addr port (in_header dg)
                (on_ctx ctx_bump_received w)) as G.
  destruct (refresh_sender cb now addr port (in_header dg)
              (on_ctx ctx_bump_received w)) as (sender, w1).
  cbn [snd] in G.
  assert (G1 : grows (w_ctx w) (w_ctx w1)).
  { eapply grows_trans; [|exact G]. cbn. apply grows_same_nodes; reflexivity. }
  destruct (hdr_type (in_header dg) =? SWIM_MSG_PING).
  { destruct sender; [|exact G1].
    eapply grows_trans; [exact G1|apply grows_send_ack]. }
  destruct (hdr_type (in_header dg) =? SWIM_MSG_PING_REQ).
  { destruct (swim_find_node (w_ctx w1) (in_target_id dg)); [|exact G1].
    eapply grows_trans; [exact G1|apply grows_send_ping]. }
  destruct (hdr_type (in_header dg) =? SWIM_MSG_ACK).
  { destruct sender as [p|]; [|exact G1].
    set (w2 := on_ctx ctx_bump_probe_success w1).
    assert (G2 : grows (w_ctx w) (w_ctx w2)).
    { eapply grows_trans; [exact G1|]. cbn. apply grows_same_nodes;
        reflexivity. }
    destruct (deref (w_ctx w2) p) as [s|]; [|exact G2].
    destruct (node_state s =? NODE_STATE_SUSPECT); [|exact G2].
    eapply grows_trans; [exact G2|apply grows_update_state]. }
  destruct (hdr_type (in_header dg) =? SWIM_MSG_SYNC); [|exact G1].
  eapply grows_trans; [exact G1|apply grows_sync_merge].
Qed.

Lemma grows_process now inbox (w : world U) :
  grows (w_ctx w) (w_ctx (swim_process cb sendto now inbox w)).
Proof.
  revert w; induction inbox as [|[[addr port] dg] inbox IH]; intros w; cbn;
    [apply grows_refl|].
  destruct (in_len dg <=? 0); [apply grows_refl|].
  eapply grows_trans; [apply grows_handle_message|apply IH].
Qed.

Lemma grows_check_timeouts now (w : world U) :
  grows (w_ctx w) (w_ctx (swim_check_timeouts cb now w)).
Proof.
  unfold swim_check_timeouts. apply grows_fold. intros w0 p.
  unfold check_timeout_at.
  destruct (deref (w_ctx w0) p) as [n|]; [|apply grows_refl].
  destruct (negb (node_is_local n)); [|apply grows_refl].
  destruct (_ && _).
  - eapply grows_trans; [apply grows_update_state|].
    cbn. apply grows_same_nodes; reflexivity.
  - destruct (_ && _); [apply grows_update_state|apply grows_refl].
Qed.

Lemma grows_gossip_round now rnd k (w : world U) :
  grows (w_ctx w) (w_ctx (snd (swim_gossip_round cb sendto now rnd k w))).
Proof.
  unfold swim_gossip_round.
  pose proof (grows_check_timeouts now w) as G.
  destruct (swim_select_random_node rnd _) as [t|]; [|exact G].
  assert (G1 : grows (w_ctx w)
                 (w_ctx (swim_send_ping sendto t (swim_check_timeouts cb now w))))
    by (eapply grows_trans; [exact G|apply grows_send_ping]).
  destruct (k + 1 >=? 5); cbn [snd]; [|exact G1].
  eapply grows_trans; [exact G1|apply grows_send_sync].
Qed.

Lemma grows_join now address port (w : world U) :
  grows (w_ctx w) (w_ctx (swim_join cb sendto now address port w)).
Proof.
  unfold swim_join.
  match goal with |- context [swim_add_node cb now ?n w] =>
    pose proof (grows_add_node now n w eq_refl) as G;
    set (w1 := swim_add_node cb now n w) in * end.
  destruct (swim_find_node (w_ctx w1) _) as [seed|]; [|exact G].
  eapply grows_trans; [exact G|].
  eapply grows_trans; [apply grows_send_ping|apply grows_send_sync].
Qed.

Lemma grows_leave now (w : world U) :
  grows (w_ctx w) (w_ctx (swim_leave cb sendto now w)).
Proof.
  unfold swim_leave.
  set (w1 := match swim_get_local_node (w_ctx w) with
             | Some local => swim_update_node_state cb now local NODE_STATE_LEFT w
             | None => w end).
  assert (G : grows (w_ctx w) (w_ctx w1)).
  { subst w1. destruct (swim_get_local_node (w_ctx w));
      [apply grows_update_state|apply grows_refl]. }
  eapply grows_trans; [exact G|]. apply grows_fold. intros w0 p.
  unfold leave_at. destruct (deref (w_ctx w0) p) as [n|]; [|apply grows_refl].
  destruct (_ && _); [apply grows_send_sync|apply grows_refl].
Qed.

End Growth.

Lemma swim_init_wf now id port interval c :
  swim_init true now id port interval = Some c -> engine_wf c.
Proof.
  unfold swim_init. intros H. inversion H; subst; clear H.
  unfold engine_wf, node_ids. cbn. repeat split.
  - constructor; [intros []|constructor].
  - intros n [<-|[]] _. reflexivity.
Qed.

(** X1.  The shape of the membership list is an invariant of the engine:
    [swim_init] builds a list without a repeated id, with exactly one
    local record, which carries the engine's id, and with [node_count]
    equal to its length; handling a datagram, draining the socket, a
    gossip round, [swim_join] and [swim_leave] keep it so, whatever
    arrives, when the callback is the coordinator's or none. *)
Theorem engine_shape_kept :
  forall (U : Type) (cb : option (swim_node_event_cb U))
         (sendto : datagram_out -> bool),
    callback_sets_main_only cb ->
    (forall now id port interval c,
        swim_init true now id port interval = Some c -> engine_wf c) /\
    forall w : world U,
      engine_wf (w_ctx w) ->
      (forall now addr port dg,
          engine_wf (w_ctx (swim_handle_message cb sendto now addr port dg w))) /\
      (forall now inbox,
          engine_wf (w_ctx (swim_process cb sendto now inbox w))) /\
      (forall now rnd k,
          engine_wf (w_ctx (snd (swim_gossip_round cb sendto now rnd k w)))) /\
      (forall now address port,
          engine_wf (w_ctx (swim_join cb sendto now address port w))) /\
      (forall now, engine_wf (w_ctx (swim_leave cb sendto now w))).
Proof.
  intros U cb sendto Hcb.
  split; [intros now id port interval c; apply swim_init_wf|].
  intros w Hwf.
  split; [|split; [|split; [|split]]]; intros;
    (eapply grows_wf; [|exact Hwf]).
  - apply grows_handle_message; assumption.
  - apply grows_process; assumption.
  - apply grows_gossip_round; assumption.
  - apply grows_join; assumption.
  - apply grows_leave; assumption.
Qed.

Lemma engine_shape_kept_witness :
  callback_sets_main_only (Some (on_node_event 0 7)) /\
  engine_wf (w_ctx follower_world) /\
  engine_wf (w_ctx (swim_handle_message (Some (on_node_event 0 7)) sendto_ok
                      100 "10.0.0.2" 7947 sync_with_state_7 follower_world)).
Proof.
  assert (H1 : callback_sets_main_only (Some (on_node_event 0 7)))
    by apply coordinator_callback_sets_main_only.
  destruct (@engine_shape_kept _ _ sendto_ok H1) as (Hinit & Hkept).
  assert (H2 : engine_wf (w_ctx follower_world))
    by (apply (Hinit _ _ _ _ _ engine_n1_init)).
  split; [exact H1|]. split; [exact H2|].
  destruct (Hkept follower_world H2) as (H & _).
  apply H.
Defined.

(** X2.  The engine never forgets a node and never reorders what it knows:
    after handling a datagram, after draining the socket, after a gossip
    round (timeout scan included), after [swim_join] and after
    [swim_leave], the list of ids is the old list with the new ids put in
    front.  Dead and Left records stay. *)
Theorem membership_only_grows :
  forall (U : Type) (cb : option (swim_node_event_cb U))
         (sendto : datagram_out -> bool),
    callback_sets_main_only cb ->
    forall w : world U,
      (forall now addr port dg,
          exists fresh,
            node_ids (w_ctx (swim_handle_message cb sendto now addr port dg w))
            = fresh ++ node_ids (w_ctx w)) /\
      (forall now inbox,
          exists fresh,
            node_ids (w_ctx (swim_process cb sendto now inbox w))
            = fresh ++ node_ids (w_ctx w)) /\
      (forall now rnd k,
          exists fresh,
            node_ids (w_ctx (snd (swim_gossip_round cb sendto now rnd k w)))
            = fresh ++ node_ids (w_ctx w)) /\
      (forall now address port,
          exists fresh,
            node_ids (w_ctx (swim_join cb sendto now address port w))
            = fresh ++ node_ids (w_ctx w)) /\
      (forall now,
          exists fresh,
            node_ids (w_ctx (swim_leave cb sendto now w))
            = fresh ++ node_ids (w_ctx w)).
Proof.
  intros U cb sendto Hcb w.
  split; [|split; [|split; [|split]]]; intros; apply grows_ids.
  - apply grows_handle_message; assumption.
  - apply grows_process; assumption.
  - apply grows_gossip_round; assumption.
  - apply grows_join; assumption.
  - apply grows_leave; assumption.
Qed.

Lemma membership_only_grows_witness :
  callback_sets_main_only (Some (on_node_event 0 7)) /\
  exists fresh,
    node_ids (w_ctx (swim_join (Some (on_node_event 0 7)) sendto_ok 100
                               "10.0.0.9" 7946 follower_world))
    = fresh ++ node_ids (w_ctx follower_world).
Proof.
  assert (H1 : callback_sets_main_only (Some (on_node_event 0 7)))
    by apply coordinator_callback_sets_main_only.
  split; [exact H1|].
  destruct (@membership_only_grows _ _ sendto_ok H1 follower_world)
    as (_ & _ & _ & H & _).
  apply H.
Defined.

(** In a list of the engine's shape the local record is the record found
    under the engine's id. *)
Lemma local_is_found lid (l : list swim_node_t) p :
  NoDup (map node_id l) ->
  (forall n, In n l -> node_is_local n = true -> node_id n = lid) ->
  find_ptr node_is_local l = Some p ->
  find_ptr (fun n => streq (node_id n) lid) l = Some p.
Proof.
  revert p; induction l as [|h t IH]; intros p D Hid Hf; [discriminate|].
  cbn in Hf |- *. inversion D as [|? ? Hnotin D']; subst.
  destruct (node_is_local h) eqn:E.
  - inversion Hf; subst. rewrite (Hid h (or_introl eq_refl) E).
    unfold streq. rewrite String.eqb_refl. reflexivity.
  - destruct (find_ptr node_is_local t) as [q|] eqn:Ft; [|discriminate].
    inversion Hf; subst.
    destruct (streq (node_id h) lid) eqn:S.
    + exfalso. apply Hnotin. apply String.eqb_eq in S. rewrite S.
      destruct (find_ptr_some _ _ Ft) as (n & Hn & Hl).
      apply nth_error_In in Hn. apply in_map_iff. exists n. split; [|exact Hn].
      apply Hid; [right; exact Hn|exact Hl].
    + rewrite (IH q D'); [reflexivity| |reflexivity].
      intros n Hin. apply Hid. right. exact Hin.
Qed.

(** X3.  In every engine of that shape [swim_get_local_node] and
    [swim_find_node] under the engine's own id return the same record: the
    one flagged local, whose id is the engine's. *)
Theorem local_node_is_found_by_id :
  forall c : swim_context_t,
    engine_wf c ->
    exists p n,
      swim_get_local_node c = Some p /\
      swim_find_node c (ctx_local_id c) = Some p /\
      deref c p = Some n /\
      node_is_local n = true /\
      node_id n = ctx_local_id c.
Proof.
  intros c (D & L & I & _).
  destruct (swim_get_local_node c) as [p|] eqn:Hl.
  - destruct (find_ptr_some _ _ Hl) as (n & Hn & Hloc).
    exists p, n. split; [reflexivity|].
    split; [apply local_is_found; assumption|].
    split; [exact Hn|]. split; [exact Hloc|].
    apply I; [eapply nth_error_In; exact Hn|exact Hloc].
  - exfalso. unfold swim_get_local_node in Hl.
    rewrite (@filter_all_false _ node_is_local (ctx_nodes c)) in L;
      [discriminate|].
    apply Forall_forall. intros x Hx. eapply find_ptr_none; eauto.
Qed.

Lemma local_node_is_found_by_id_witness :
  engine_wf engine_a /\
  swim_get_local_node engine_a = Some 1%nat /\
  swim_find_node engine_a "n1" = Some 1%nat.
Proof.
  assert (H : engine_wf engine_a).
  { unfold engine_wf, node_ids. cbn. repeat split.
    - constructor; [intros [E|[]]; discriminate|].
      constructor; [intros []|constructor].
    - intros n [<-|[<-|[]]] E; [discriminate|reflexivity]. }
  split; [exact H|].
  destruct (local_node_is_found_by_id H) as (p & n & H1 & H2 & _).
  assert (E : p = 1%nat) by (vm_compute in H1; congruence).
  subst p. split; assumption.
Defined.

(* ================================================================= *)
(** ** Probe target selection *)

Lemma nth_eligible_sound l idx p0 p :
  nth_eligible idx p0 l = Some p ->
  exists n, (p0 <= p)%nat /\ nth_error l (p - p0) = Some n /\
            eligible n = true.
Proof.
  revert idx p0; induction l as [|h t IH]; intros idx p0 H; cbn in H;
    [discriminate|].
  destruct (eligible h) eqn:E.
  - destruct idx as [|idx].
    + inversion H; subst. exists h. rewrite Nat.sub_diag. auto.
    + destruct (IH _ _ H) as (n & Hle & Hn & He). exists n.
      split; [lia|]. split; [|exact He].
      replace (p - p0)%nat with (S (p - S p0)) by lia. exact Hn.
  - destruct (IH _ _ H) as (n & Hle & Hn & He). exists n.
    split; [lia|]. split; [|exact He].
    replace (p - p0)%nat with (S (p - S p0)) by lia. exact Hn.
Qed.

Lemma nth_eligible_complete l idx p0 :
  (idx < List.length (filter eligible l))%nat ->
  exists p, nth_eligible idx p0 l = Some p.
Proof.
  revert idx p0; induction l as [|h t IH]; intros idx p0 H; cbn in *; [lia|].
  destruct (eligible h); [|apply IH; exact H].
  destruct idx as [|idx]; [eauto|]. apply IH. cbn in H. lia.
Qed.

Lemma select_none_without_eligible rnd c :
  (forall n, In n (ctx_nodes c) -> eligible n = false) ->
  swim_select_random_node rnd c = None.
Proof.
  intros Hnone. unfold swim_select_random_node.
  destruct (ctx_node_count c =? 0); [reflexivity|].
  rewrite (@filter_all_false _ eligible (ctx_nodes c))
    by (apply Forall_forall; exact Hnone).
  reflexivity.
Qed.

(** X4.  The probe picker returns only a peer that can be probed: a record
    that is not the local one and is Alive or Suspect.  It returns nothing
    when no such record exists; and when one exists (and [rand()] is not
    negative) it returns one, so the local record and Dead or Left peers
    are never probed and a live peer is never starved by them. *)
Theorem select_picks_live_peer :
  forall (rnd : Z) (c : swim_context_t),
    (forall p, swim_select_random_node rnd c = Some p ->
               exists n, deref c p = Some n /\ node_is_local n = false /\
                         (node_state n = NODE_STATE_ALIVE \/
                          node_state n = NODE_STATE_SUSPECT)) /\
    ((forall n, In n (ctx_nodes c) -> eligible n = false) ->
     swim_select_random_node rnd c = None) /\
    (0 <= rnd -> ctx_node_count c <> 0 ->
     Z.of_nat (List.length (ctx_nodes c)) < 2 ^ 32 ->
     (exists n, In n (ctx_nodes c) /\ eligible n = true) ->
     exists p, swim_select_random_node rnd c = Some p).
Proof.
  intros rnd c. unfold swim_select_random_node. split; [|split].
  - intros p H. destruct (ctx_node_count c =? 0); [discriminate|].
    destruct (u32 _ =? 0); [discriminate|].
    destruct (nth_eligible_sound _ _ _ H) as (n & _ & Hn & He).
    rewrite Nat.sub_0_r in Hn. exists n. split; [exact Hn|].
    unfold eligible in He. apply andb_true_iff in He. destruct He as (H1 & H2).
    apply negb_true_iff in H1. split; [exact H1|].
    apply orb_true_iff in H2. destruct H2 as [H2|H2]; apply Z.eqb_eq in H2;
      auto.
  - intros Hnone. fold (swim_select_random_node rnd c).
    apply select_none_without_eligible. exact Hnone.
  - intros Hr Hc Hlen (n & Hin & He).
    apply Z.eqb_neq in Hc. rewrite Hc.
    assert (Hpos : (0 < List.length (filter eligible (ctx_nodes c)))%nat).
    { assert (In n (filter eligible (ctx_nodes c)))
        by (apply filter_In; auto).
      destruct (filter eligible (ctx_nodes c)); [contradiction|cbn; lia]. }
    assert (Hle : (List.length (filter eligible (ctx_nodes c))
                   <= List.length (ctx_nodes c))%nat).
    { clear. induction (ctx_nodes c) as [|a l IH]; cbn; [lia|].
      destruct (eligible a); cbn; lia. }
    rewrite u32_small by lia.
    destruct (Z.of_nat (List.length (filter eligible (ctx_nodes c))) =? 0)
      eqn:E; [apply Z.eqb_eq in E; lia|].
    apply nth_eligible_complete.
    pose proof (Z.mod_pos_bound rnd
                  (Z.of_nat (List.length (filter eligible (ctx_nodes c))))).
    lia.
Qed.

Lemma select_picks_live_peer_witness :
  0 <= 7 /\ ctx_node_count engine_a <> 0 /\
  (exists n, In n (ctx_nodes engine_a) /\ eligible n = true) /\
  exists p n, swim_select_random_node 7 engine_a = Some p /\
              deref engine_a p = Some n /\ node_is_local n = false.
Proof.
  destruct (select_picks_live_peer 7 engine_a) as (H1 & _ & H3).
  assert (A : 0 <= 7) by lia.
  assert (B : ctx_node_count engine_a <> 0) by discriminate.
  assert (C : exists n, In n (ctx_nodes engine_a) /\ eligible n = true).
  { eexists. split; [left; reflexivity|reflexivity]. }
  split; [exact A|]. split; [exact B|]. split; [exact C|].
  destruct (H3 A B ltac:(cbn; lia) C) as (p & Hp).
  destruct (H1 p Hp) as (n & Hn & Hl & _).
  exists p, n. auto.
Defined.

(* ================================================================= *)
(** ** A gossip round without peers *)

Section Quiet.
Variable U : Type.
Variable cb : option (swim_node_event_cb U).
Variable sendto : datagram_out -> bool.

Lemma check_timeout_quiet now (w : world U) p :
  (forall n, In n (ctx_nodes (w_ctx w)) -> eligible n = false) ->
  check_timeout_at cb now w p = w.
Proof.
  intros H. unfold check_timeout_at.
  destruct (deref (w_ctx w) p) as [n|] eqn:E; [|reflexivity].
  apply nth_error_In in E. specialize (H n E). unfold eligible in H.
  destruct (negb (node_is_local n)); [|reflexivity]. cbn in H.
  apply orb_false_iff in H. destruct H as (H1 & H2). rewrite H1, H2.
  reflexivity.
Qed.

Lemma check_timeouts_quiet now (w : world U) :
  (forall n, In n (ctx_nodes (w_ctx w)) -> eligible n = false) ->
  swim_check_timeouts cb now w = w.
Proof.
  intros H. unfold swim_check_timeouts.
  induction (seq 0 (List.length (ctx_nodes (w_ctx w)))) as [|p l IH];
    [reflexivity|].
  cbn. rewrite check_timeout_quiet; assumption.
Qed.

End Quiet.

(** X5.  When no peer is Alive or Suspect (an engine on its own, or one
    whose peers are all Dead or Left), a gossip round does nothing: no
    record changes, nothing is sent, no callback runs, and the round
    counter stays where it is. *)
Theorem gossip_round_without_live_peers :
  forall (U : Type) (cb : option (swim_node_event_cb U))
         (sendto : datagram_out -> bool) (now rnd k : Z) (w : world U),
    (forall n, In n (ctx_nodes (w_ctx w)) -> eligible n = false) ->
    swim_gossip_round cb sendto now rnd k w = (k, w).
Proof.
  intros U cb sendto now rnd k w H. unfold swim_gossip_round.
  rewrite check_timeouts_quiet by exact H.
  rewrite (select_none_without_eligible rnd _ H). reflexivity.
Qed.

Lemma gossip_round_without_live_peers_witness :
  (forall n, In n (ctx_nodes (w_ctx follower_world)) -> eligible n = false) /\
  swim_gossip_round (Some (on_node_event 0 7)) sendto_ok 200 5 3 follower_world
  = (3, follower_world).
Proof.
  assert (H : forall n, In n (ctx_nodes (w_ctx follower_world)) ->
                        eligible n = false).
  { intros n [<-|[]]. reflexivity. }
  split; [exact H|]. apply gossip_round_without_live_peers. exact H.
Defined.

(* ================================================================= *)
(** ** The timeout scan *)






Section Scan.
Variable U : Type.
Variable cb : option (swim_node_event_cb U).
Hypothesis cb_main : callback_sets_main_only cb.




End Scan.

Lemma store_same (A : Type) (l : list A) p x :
  nth_error l p = Some x -> store p x l = l.
Proof.
  revert p; induction l as [|h t IH]; intros [|p] H; simpl in *;
    try discriminate; [inversion H; reflexivity|].
  rewrite (IH p H). reflexivity.
Qed.


Section ScanLoop.
Variable U : Type.
Variable cb : option (swim_node_event_cb U).
Hypothesis cb_main : callback_sets_main_only cb.



End ScanLoop.



(* ================================================================= *)
(** ** The sender of a datagram *)

Section Sender.
Variable U : Type.
Variable cb : option (swim_node_event_cb U).
Variable sendto : datagram_out -> bool.
Hypothesis cb_ok : callback_keeps_peers cb.

Lemma notify_sent n old new (w : world U) :
  w_sent (notify cb n old new w) = w_sent w.
Proof.
  unfold notify. destruct cb as [f|]; [|reflexivity].
  destruct (f n old new (w_ctx w) (w_user w)). reflexivity.
Qed.

Lemma update_state_exact now st (w : world U) id p n :
  peer_copy (w_ctx w) id p n ->
  let w' := swim_update_node_state cb now p st w in
  peer_copy (w_ctx w') id p
            (if node_state n =? st then n else node_with_state st now n) /\
  w_sent w' = w_sent w.
Proof.
  intros Hc. pose proof Hc as (Hf & Hd & Hl).
  unfold swim_update_node_state. rewrite Hd.
  destruct (node_state n =? st); [split; [exact Hc|reflexivity]|].
  cbn zeta. rewrite notify_sent. split; [|reflexivity].
  eapply keeps_peers_copy; [apply notify_keeps_peers; exact cb_ok|].
  apply (@assign_peer_copy (w_ctx w) id p n (node_with_state st now));
    [exact Hc|reflexivity|reflexivity].
Qed.

Lemma add_node_new_exact now node (w : world U) :
  swim_find_node (w_ctx w) (node_id node) = None ->
  node_is_local node = false ->
  let w' := swim_add_node cb now node w in
  peer_copy (w_ctx w') (node_id node) 0%nat node /\ w_sent w' = w_sent w.
Proof.
  intros Hf Hl. unfold swim_add_node. rewrite Hf. cbn zeta.
  rewrite notify_sent. split; [|reflexivity].
  eapply keeps_peers_copy; [apply notify_keeps_peers; exact cb_ok|].
  unfold peer_copy, swim_find_node, deref. cbn.
  unfold streq. rewrite String.eqb_refl. auto.
Qed.

(** The refresh of a sender whose record the engine holds. *)
Lemma refresh_known now addr port h (w : world U) p n :
  peer_copy (w_ctx w) (hdr_sender_id h) p n ->
  let r := refresh_sender cb now addr port h w in
  fst r = Some p /\
  peer_copy (w_ctx (snd r)) (hdr_sender_id h) p
            (refreshed now (hdr_incarnation h) n) /\
  w_sent (snd r) = w_sent w /\
  ctx_local_id (w_ctx (snd r)) = ctx_local_id (w_ctx w).
Proof.
  intros Hc. pose proof Hc as (Hf & Hd & Hl).
  unfold refresh_sender. rewrite Hf.
  destruct (@assign_peer_copy (w_ctx w) (hdr_sender_id h) p n
              (node_with_last_seen now) Hc eq_refl eq_refl) as (C1 & I1).
  set (w2 := on_ctx (assign p (node_with_last_seen now)) w).
  change (peer_copy (w_ctx w2) (hdr_sender_id h) p (node_with_last_seen now n))
    in C1.
  pose proof C1 as (_ & D1 & _). rewrite D1.
  destruct (update_state_exact now NODE_STATE_ALIVE w2 C1) as (C2 & S2).
  assert (I2 : ctx_local_id
                 (w_ctx (swim_update_node_state cb now p NODE_STATE_ALIVE w2))
               = ctx_local_id (w_ctx w)).
  { destruct (update_state_peer_copy cb_ok now NODE_STATE_ALIVE w2 C1)
      as (E & _). rewrite E. exact I1. }
  unfold refreshed.
  destruct (node_state (node_with_last_seen now n) =? NODE_STATE_ALIVE) eqn:E.
  - cbn [negb]. rewrite D1.
    destruct (hdr_incarnation h >? node_incarnation (node_with_last_seen now n)).
    + cbn [fst snd]. split; [reflexivity|].
      destruct (@assign_peer_copy (w_ctx w2) (hdr_sender_id h) p _
                  (node_with_incarnation (hdr_incarnation h)) C1
                  eq_refl eq_refl) as (C3 & I3).
      split; [exact C3|]. split; [reflexivity|]. cbn. rewrite <- I1.
      exact I3.
    + cbn [fst snd]. split; [reflexivity|]. split; [exact C1|].
      split; [reflexivity|exact I1].
  - cbn [negb]. cbn zeta iota in C2.
    pose proof C2 as (_ & D2 & _). rewrite D2.
    set (w3 := swim_update_node_state cb now p NODE_STATE_ALIVE w2) in *.
    destruct (hdr_incarnation h >?
              node_incarnation
                (node_with_state NODE_STATE_ALIVE now
                   (node_with_last_seen now n))).
    + cbn [fst snd]. split; [reflexivity|].
      destruct (@assign_peer_copy (w_ctx w3) (hdr_sender_id h) p _
                  (node_with_incarnation (hdr_incarnation h)) C2
                  eq_refl eq_refl) as (C3 & I3).
      split; [exact C3|]. split; [exact S2|]. cbn. rewrite <- I2.
      exact I3.
    + cbn [fst snd]. split; [reflexivity|]. split; [exact C2|].
      split; [exact S2|exact I2].
Qed.


Lemma refreshed_fields now inc n :
  node_state (refreshed now inc n) = NODE_STATE_ALIVE /\
  node_last_seen (refreshed now inc n) = now /\
  node_incarnation (refreshed now inc n) = Z.max (node_incarnation n) inc /\
  node_id (refreshed now inc n) = node_id n /\
  node_address (refreshed now inc n) = node_address n /\
  node_port (refreshed now inc n) = node_port n /\
  node_is_main_node (refreshed now inc n) = node_is_main_node n.
Proof.
  unfold refreshed. cbn [node_with_last_seen node_state].
  destruct (node_state n =? NODE_STATE_ALIVE) eqn:E; cbn;
    [apply Z.eqb_eq in E|];
    (destruct (inc >? node_incarnation n) eqn:G; cbn;
     [apply Z.gtb_lt in G|rewrite Z.gtb_ltb in G; apply Z.ltb_ge in G];
     repeat split; auto; lia).
Qed.

(** Records of peers under the senders. *)
Lemma assign_other_peer_copy c id p n t g :
  peer_copy c id p n -> t <> p -> (forall x, node_id (g x) = node_id x) ->
  peer_copy (assign t g c) id p n.
Proof.
  intros (Hf & Hd & Hl) Hne Hg. unfold assign.
  destruct (deref c t) as [x|] eqn:E; [|repeat split; assumption].
  unfold peer_copy, swim_find_node, deref in *. cbn.
  split; [|split; [|exact Hl]].
  - rewrite <- Hf. eapply find_ptr_store; eauto. cbn. rewrite Hg. reflexivity.
  - rewrite nth_error_store_other; auto.
Qed.

Lemma send_ping_peer_copy target (w : world U) id p n :
  peer_copy (w_ctx w) id p n ->
  exists n', peer_copy (w_ctx (swim_send_ping sendto target w)) id p n' /\
             (n' = n \/ exists q, n' = node_with_ping_seq q n).
Proof.
  intros Hc. unfold swim_send_ping.
  destruct (deref (w_ctx w) target) as [t|]; [|eauto].
  unfold transmit. cbn zeta.
  match goal with |- context [sendto ?d] => destruct (sendto d) end;
    [|exists n; split; [exact Hc|auto]].
  cbn [on_ctx w_ctx].
  match goal with |- context [assign target ?g ?c1] =>
    assert (Hc1 : peer_copy c1 id p n) by exact Hc;
    set (c1' := c1) in *; set (g' := g) end.
  destruct (Nat.eq_dec target p) as [->|Hne].
  - destruct (@assign_peer_copy c1' id p n g' Hc1 eq_refl eq_refl)
      as (C & _).
    exists (g' n). split; [exact C|]. right. subst g'. eauto.
  - exists n. split; [|auto]. apply assign_other_peer_copy; auto.
Qed.

End Sender.



(** X8.  Any frame other than a Sync from a peer the engine knows brings
    that peer's record up to date, whatever its state was, Dead included:
    afterwards the record is Alive, [last_seen] is the time of arrival and
    the incarnation is the greater of the one held and the one in the
    header; address, port and [is_main] stay as they were. *)
Theorem frame_revives_sender :
  forall (U : Type) (cb : option (swim_node_event_cb U))
         (sendto : datagram_out -> bool) (now : Z) (addr : string) (port : Z)
         (dg : datagram_in) (w : world U) (p : node_ptr) (n : swim_node_t),
    callback_keeps_peers cb ->
    sizeof_swim_message_header_t <= in_len dg ->
    hdr_type (in_header dg) <> SWIM_MSG_SYNC ->
    peer_copy (w_ctx w) (hdr_sender_id (in_header dg)) p n ->
    let w' := swim_handle_message cb sendto now addr port dg w in
    exists n',
      peer_copy (w_ctx w') (hdr_sender_id (in_header dg)) p n' /\
      node_state n' = NODE_STATE_ALIVE /\
      node_last_seen n' = now /\
      node_incarnation n'
      = Z.max (node_incarnation n) (hdr_incarnation (in_header dg)) /\
      node_address n' = node_address n /\
      node_port n' = node_port n /\
      node_is_main_node n' = node_is_main_node n.
Proof.
  intros U cb sendto now addr port dg w p n Hcb Hlen Hty Hc w'.
  destruct (@refresh_known U cb Hcb now addr port (in_header dg)
              (on_ctx ctx_bump_received w) p n Hc) as (R1 & R2 & _ & _).
  destruct (refreshed_fields now (hdr_incarnation (in_header dg)) n)
    as (F1 & F2 & F3 & _ & F5 & F6 & F7).
  set (r := refreshed now (hdr_incarnation (in_header dg)) n) in *.
  subst w'. unfold swim_handle_message.
  apply Z.ltb_ge in Hlen. rewrite Hlen.
  destruct (refresh_sender _ _ _ _ _ _) as (sender, w1).
  cbn [fst snd] in R1, R2. subst sender.
  apply Z.eqb_neq in Hty.
  destruct (hdr_type (in_header dg) =? SWIM_MSG_PING).
  { exists r. split; [|auto 10]. pose proof R2 as (_ & Hd & _).
    unfold swim_send_ack, transmit. rewrite Hd. cbn [snd w_ctx].
    destruct (sendto _); exact R2. }
  destruct (hdr_type (in_header dg) =? SWIM_MSG_PING_REQ).
  { destruct (swim_find_node (w_ctx w1) (in_target_id dg)) as [t|];
      [|exists r; auto 10].
    destruct (@send_ping_peer_copy U sendto t w1 _ p r R2)
      as (n' & Hc' & [->|(q & ->)]);
      [exists r|exists (node_with_ping_seq q r)];
      (split; [exact Hc'|auto 10]). }
  destruct (hdr_type (in_header dg) =? SWIM_MSG_ACK).
  { exists r. split; [|auto 10]. pose proof R2 as (_ & Hd & _).
    cbn [on_ctx w_ctx]. change (deref (ctx_bump_probe_success (w_ctx w1)) p)
      with (deref (w_ctx w1) p). rewrite Hd, F1. exact R2. }
  rewrite Hty. exists r. auto 10.
Qed.

Lemma frame_revives_sender_witness :
  let w := mk_world
             (assign 0%nat (node_with_state NODE_STATE_DEAD 50) engine_a)
             (snd (coordinator_init 0 7 false engine_a)) [] in
  let dg := ping_from "n2" 41 1 in
  callback_keeps_peers (Some (on_node_event 0 7)) /\
  sizeof_swim_message_header_t <= in_len dg /\
  hdr_type (in_header dg) <> SWIM_MSG_SYNC /\
  node_view (w_ctx w) "n2" = Some (NODE_STATE_DEAD, 1, false) /\
  node_view (w_ctx (swim_handle_message (Some (on_node_event 0 7)) sendto_ok
                      200 "127.0.0.1" 7947 dg w)) "n2"
  = Some (NODE_STATE_ALIVE, 1, false).
Proof.
  intros w dg.
  assert (H1 : callback_keeps_peers (Some (on_node_event 0 7)))
    by apply coordinator_callback_keeps_peers.
  assert (H2 : sizeof_swim_message_header_t <= in_len dg)
    by (vm_compute; discriminate).
  assert (H3 : hdr_type (in_header dg) <> SWIM_MSG_SYNC)
    by (vm_compute; discriminate).
  assert (Hc : peer_copy (w_ctx w) (hdr_sender_id (in_header dg)) 0%nat
                 (mk_node "n2" "127.0.0.1" 7947 NODE_STATE_DEAD 1 100 50 0
                          false false))
    by (repeat split).
  split; [exact H1|]. split; [exact H2|]. split; [exact H3|].
  split; [reflexivity|].
  destruct (@frame_revives_sender _ _ sendto_ok 200 "127.0.0.1" 7947 dg w
              _ _ H1 H2 H3 Hc) as (n' & (Hf & Hd & _) & S1 & _ & S3 & _ & _ & S6).
  unfold node_view. cbn [hdr_sender_id in_header dg ping_from] in Hf.
  rewrite Hf, Hd, S1, S3, S6. reflexivity.
Defined.

(* ================================================================= *)
(** ** Sync frames *)

(** X9.  A record travels unchanged: when an engine merges the Sync
    record [swim_send_sync] makes of a node (id and address of at most 63
    bytes, state a byte) and has not seen the id before, the record it
    creates has the node's id, address, port, state, incarnation and
    [is_main]; it is not local, was last seen at the time of the merge and
    stands at the head of the list. *)
Theorem sync_record_reproduces_node :
  forall (U : Type) (cb : option (swim_node_event_cb U)) (now : Z)
         (w : world U) (n : swim_node_t),
    callback_keeps_peers cb ->
    (String.length (node_id n) <= 63)%nat ->
    (String.length (node_address n) <= 63)%nat ->
    0 <= node_state n < 256 ->
    streq (node_id n) (ctx_local_id (w_ctx w)) = false ->
    swim_find_node (w_ctx w) (node_id n) = None ->
    peer_copy (w_ctx (sync_merge_record cb now (node_update_of n) w))
              (node_id n) 0%nat
              (mk_node (node_id n) (node_address n) (node_port n)
                       (node_state n) (node_incarnation n) now now 0 false
                       (node_is_main_node n)).
Proof.
  intros U cb now w n Hcb Hid Haddr Hst Hnl Hf.
  unfold sync_merge_record, node_update_of.
  cbn [upd_id upd_address upd_port upd_state upd_incarnation upd_is_main_node].
  change (SWIM_NODE_ID_SIZE - 1)%nat with 63%nat.
  rewrite (strncpy_short _ Hid), (strncpy_short _ Haddr), Hnl, Hf.
  match goal with |- context [swim_add_node cb now ?x w] =>
    assert (E : x = mk_node (node_id n) (node_address n) (node_port n)
                       (node_state n) (node_incarnation n) now now 0 false
                       (node_is_main_node n)) end.
  { unfold swim_create_node. cbn.
    change (SWIM_NODE_ID_SIZE - 1)%nat with 63%nat.
    rewrite (strncpy_short _ Hid), (strncpy_short _ Haddr).
    unfold u8, wrap. rewrite Z.mod_small by (cbn; lia).
    destruct (node_is_main_node n); reflexivity. }
  rewrite E.
  match goal with |- context [swim_add_node cb now ?x w] =>
    destruct (@add_node_new_exact U cb Hcb now x w Hf eq_refl) as (C & _) end.
  exact C.
Qed.

Lemma sync_record_reproduces_node_witness :
  let n := mk_node "n9" "10.0.0.9" 7955 NODE_STATE_SUSPECT 4 90 80 3 true true in
  callback_keeps_peers (Some (on_node_event 0 7)) /\
  (String.length (node_id n) <= 63)%nat /\
  (String.length (node_address n) <= 63)%nat /\
  0 <= node_state n < 256 /\
  node_record (w_ctx (sync_merge_record (Some (on_node_event 0 7)) 200
                        (node_update_of n) follower_world)) "n9"
  = Some (mk_node "n9" "10.0.0.9" 7955 NODE_STATE_SUSPECT 4 200 200 0 false
                  true).
Proof.
  intros n.
  assert (H1 : callback_keeps_peers (Some (on_node_event 0 7)))
    by apply coordinator_callback_keeps_peers.
  assert (H2 : (String.length (node_id n) <= 63)%nat) by (vm_compute; lia).
  assert (H3 : (String.length (node_address n) <= 63)%nat)
    by (vm_compute; lia).
  assert (H4 : 0 <= node_state n < 256) by (vm_compute; split; congruence).
  split; [exact H1|]. split; [exact H2|]. split; [exact H3|].
  split; [exact H4|].
  destruct (@sync_record_reproduces_node _ _ 200 follower_world n
              H1 H2 H3 H4 eq_refl eq_refl) as (Hf & Hd & _).
  unfold node_record. cbn [node_id n] in Hf. rewrite Hf. exact Hd.
Defined.



(* ================================================================= *)
(** ** Application datagrams *)




(* ================================================================= *)
(** ** Joining through a seed *)



Section Join.
Variable U : Type.
Variable cb : option (swim_node_event_cb U).
Variable sendto : datagram_out -> bool.
Hypothesis cb_ok : callback_keeps_peers cb.


End Join.



(* ================================================================= *)
(** ** Coordinator: the queues over a run *)

Lemma take_leadership_queues flag s :
  coord_queues (snd (take_leadership flag s)) = coord_queues (snd s).
Proof.
  destruct s as (swim, c). unfold take_leadership.
  destruct (swim_get_local_node swim) as [p|]; [destruct (deref swim p)|];
    reflexivity.
Qed.

Lemma start_election_queues now_ms rnd s :
  coord_queues (snd (coordinator_start_election now_ms rnd s))
  = coord_queues (snd s).
Proof.
  destruct s as (swim, c). unfold coordinator_start_election.
  destruct (swim_get_node_count swim NODE_STATE_ALIVE <=? 1); [|reflexivity].
  rewrite take_leadership_queues. reflexivity.
Qed.

Lemma node_event_queues now_ms rnd node old_state new_state swim c :
  coord_queues (snd (on_node_event now_ms rnd node old_state new_state swim c))
  = coord_queues c.
Proof.
  unfold on_node_event.
  destruct (streq (node_id node) (coord_leader_id c) &&
            negb (new_state =? NODE_STATE_ALIVE)); [|reflexivity].
  apply (start_election_queues now_ms rnd (swim, c)).
Qed.

Lemma queues_counted_eq k c c' :
  coord_queues c' = coord_queues c -> queues_counted k c ->
  queues_counted k c'.
Proof.
  unfold coord_queues, queues_counted. intros E. inversion E as [[E1 E2 E3 E4 E5 E6]].
  rewrite E1, E2, E3, E4, E5, E6. auto.
Qed.

Lemma drain_failed tasks c :
  coord_tasks_failed (drain tasks c) = coord_tasks_failed c.
Proof.
  revert c; induction tasks as [|t tasks IH]; intros c; [reflexivity|].
  cbn [drain]. rewrite IH. reflexivity.
Qed.

(** A tick of a coordinator that is not Leader moves no task. *)
Lemma idle_tick_queues now_ms rnd swim c :
  coord_state c <> COORD_STATE_LEADER ->
  coord_queues (snd (coordinator_process now_ms rnd (swim, c)))
  = coord_queues c.
Proof.
  intros Hs. unfold coordinator_process.
  destruct (coord_state c); [| |congruence].
  - destruct (now_ms >? coord_election_timeout c); [|reflexivity].
    apply (start_election_queues now_ms rnd (swim, c)).
  - destruct (u32 (coord_votes_received c)
              >? swim_get_node_count swim NODE_STATE_ALIVE / 2);
      [|reflexivity].
    apply (take_leadership_queues true (swim, c)).
Qed.

Lemma process_queues_counted now_ms rnd s k :
  queues_counted k (snd s) ->
  queues_counted k (snd (coordinator_process now_ms rnd s)).
Proof.
  destruct s as (swim, c). cbn [snd]. intros H.
  destruct (coord_state c) eqn:Hs.
  - eapply queues_counted_eq; [|exact H].
    apply idle_tick_queues. congruence.
  - eapply queues_counted_eq; [|exact H].
    apply idle_tick_queues. congruence.
  - destruct H as (H1 & H2 & H3 & H4 & H5).
    destruct (@drain_spec (coord_pending_tasks c) c _ _ _ H1 H2 H3)
      as (_ & D2 & D3 & D4 & D5 & _).
    pose proof (drain_failed (coord_pending_tasks c) c) as D6.
    unfold coordinator_process. rewrite Hs. cbn [snd].
    unfold queues_counted.
    cbn [coord_with_queues coord_pending_tasks coord_pending_count
         coord_completed_tasks coord_completed_count coord_tasks_processed
         coord_tasks_failed].
    rewrite D2, D3, D4, D5, D6, Z.sub_diag, length_app, length_rev.
    cbn [List.length].
    repeat split; auto; try (f_equal; lia); lia.
Qed.

Lemma submit_queues_counted sub c k :
  queues_counted k c -> queues_counted (S k) (submit c sub).
Proof.
  intros (H1 & H2 & H3 & H4 & H5). unfold queues_counted, submit.
  cbn [coordinator_submit_task coord_with_queues coord_pending_tasks
       coord_pending_count coord_completed_tasks coord_completed_count
       coord_tasks_processed coord_tasks_failed List.length].
  rewrite H1, u32_succ_u32. repeat split; auto.
  - f_equal. lia.
  - lia.
Qed.

Lemma run_queues_counted ops s k :
  queues_counted k (snd s) ->
  queues_counted (k + submissions ops) (snd (coord_run ops s)).
Proof.
  revert s k; induction ops as [|op ops IH]; intros s k H.
  - unfold submissions. cbn. rewrite Nat.add_0_r. exact H.
  - unfold coord_run. cbn [fold_left]. fold (coord_run ops (coord_step s op)).
    unfold submissions. cbn [filter].
    destruct op as [now_ms rnd|sub|now_ms rnd|a b|now_ms rnd node o n|f];
      cbn [is_submit List.length];
      fold (submissions ops);
      try (apply IH; cbn [coord_step snd]).
    + apply process_queues_counted. exact H.
    + replace (k + S (submissions ops))%nat with (S k + submissions ops)%nat
        by lia.
      apply IH. cbn [coord_step snd]. apply submit_queues_counted. exact H.
    + eapply queues_counted_eq; [apply start_election_queues|exact H].
    + exact H.
    + eapply queues_counted_eq; [apply node_event_queues|exact H].
    + exact H.
Qed.

(** X13.  The counters of a coordinator say what its queues hold, whatever
    is done with it after [coordinator_init] (ticks, submissions, forced
    elections, callbacks registered, node events from its engine):
    [pending_count] and [completed_count] are the lengths of the two
    queues as [uint32_t], [tasks_processed] is the length of the completed
    queue as [uint64_t], [tasks_failed] stays 0, and the two queues hold
    between them exactly as many tasks as were submitted: no task is lost
    and none is completed twice. *)
Theorem queue_counters_hold :
  forall (swim : swim_context_t) (now_ms rnd : Z) (start_as_main : bool)
         (ops : list coord_op),
    let c := snd (coord_run ops
                    (coordinator_init now_ms rnd start_as_main swim)) in
    coord_pending_count c
    = u32 (Z.of_nat (List.length (coord_pending_tasks c))) /\
    coord_completed_count c
    = u32 (Z.of_nat (List.length (coord_completed_tasks c))) /\
    coord_tasks_processed c
    = u64 (Z.of_nat (List.length (coord_completed_tasks c))) /\
    coord_tasks_failed c = 0 /\
    (List.length (coord_pending_tasks c) +
     List.length (coord_completed_tasks c))%nat = submissions ops /\
    coordinator_get_stats c
    = (u64 (Z.of_nat (List.length (coord_completed_tasks c))), 0).
Proof.
  intros swim now_ms rnd start_as_main ops c.
  assert (H0 : queues_counted 0
                 (snd (coordinator_init now_ms rnd start_as_main swim))).
  { unfold coordinator_init. destruct start_as_main.
    - eapply queues_counted_eq; [apply take_leadership_queues|].
      cbn [snd]. repeat split.
    - cbn [snd]. repeat split. }
  destruct (run_queues_counted ops _ H0) as (H1 & H2 & H3 & H4 & H5).
  fold c in H1, H2, H3, H4, H5.
  repeat split; auto.
  unfold coordinator_get_stats. rewrite H3, H4. reflexivity.
Qed.

Lemma drain_completed tasks c :
  coord_completed_tasks (drain tasks c) = rev tasks ++ coord_completed_tasks c.
Proof.
  revert c; induction tasks as [|t tasks IH]; intros c; [reflexivity|].
  cbn [drain rev]. rewrite IH, <- app_assoc. reflexivity.
Qed.

Lemma take_leadership_calls s :
  coord_calls (snd (take_leadership true s))
  = if coord_on_become_leader (snd s)
    then coord_calls (snd s) ++ [CallBecomeLeader] else coord_calls (snd s).
Proof.
  destruct s as (swim, c). unfold take_leadership.
  destruct (swim_get_local_node swim) as [p|]; [destruct (deref swim p)|];
    reflexivity.
Qed.

Lemma start_election_calls now_ms rnd s :
  coord_calls (snd (coordinator_start_election now_ms rnd s))
  = coord_calls (snd s) \/
  coord_calls (snd (coordinator_start_election now_ms rnd s))
  = coord_calls (snd s) ++ [CallBecomeLeader].
Proof.
  destruct s as (swim, c). unfold coordinator_start_election.
  destruct (swim_get_node_count swim NODE_STATE_ALIVE <=? 1);
    [|left; reflexivity].
  rewrite take_leadership_calls. cbn [snd coord_with_election
    coord_on_become_leader coord_calls].
  destruct (coord_on_become_leader c); auto.
Qed.

(** X14.  Tasks wait for a Leader: a tick of a coordinator that is not
    Leader moves no task and changes no counter, also when that tick wins
    the election; the only call it can make is [on_become_leader], and it
    makes it once.  If the tick ended as Leader, the next tick empties
    the pending queue and puts everything that was waiting in front of
    the completed queue, in reverse order. *)
Theorem tasks_wait_for_leader :
  forall (swim : swim_context_t) (c : node_coordinator_t) (now_ms rnd : Z),
    coord_state c <> COORD_STATE_LEADER ->
    let s' := coordinator_process now_ms rnd (swim, c) in
    coord_queues (snd s') = coord_queues c /\
    (coord_calls (snd s') = coord_calls c \/
     coord_calls (snd s') = coord_calls c ++ [CallBecomeLeader]) /\
    (coord_state (snd s') = COORD_STATE_LEADER ->
     forall now_ms' rnd',
       let s'' := coordinator_process now_ms' rnd' s' in
       coord_pending_tasks (snd s'') = [] /\
       coord_completed_tasks (snd s'')
       = rev (coord_pending_tasks c) ++ coord_completed_tasks c).
Proof.
  intros swim c now_ms rnd Hs s'.
  assert (Q : coord_queues (snd s') = coord_queues c)
    by (apply idle_tick_queues; exact Hs).
  split; [exact Q|]. split.
  - subst s'. unfold coordinator_process.
    destruct (coord_state c); [| |congruence].
    + destruct (now_ms >? coord_election_timeout c); [|left; reflexivity].
      apply (start_election_calls now_ms rnd (swim, c)).
    + destruct (u32 (coord_votes_received c)
                >? swim_get_node_count swim NODE_STATE_ALIVE / 2);
        [|left; reflexivity].
      rewrite take_leadership_calls. cbn [snd].
      destruct (coord_on_become_leader c); auto.
  - intros Hl now_ms' rnd' s''. subst s''.
    destruct s' as (swim', c'). cbn [snd] in *.
    unfold coordinator_process. rewrite Hl. cbn [snd coord_with_queues
      coord_pending_tasks coord_completed_tasks].
    rewrite drain_completed. unfold coord_queues in Q.
    inversion Q as [[Q1 Q2 Q3 Q4 Q5 Q6]]. auto.
Qed.

Lemma tasks_wait_for_leader_witness :
  let c := submit_all three_submissions (w_user follower_world) in
  let s' := coordinator_process 500 3 (engine_n1, c) in
  coord_state c <> COORD_STATE_LEADER /\
  coord_state (snd s') = COORD_STATE_LEADER /\
  List.length (coord_pending_tasks (snd s')) = 3%nat /\
  coord_completed_tasks (snd s') = [] /\
  coord_pending_tasks (snd (coordinator_process 501 4 s')) = [] /\
  coord_completed_tasks (snd (coordinator_process 501 4 s'))
  = rev (coord_pending_tasks c).
Proof.
  intros c s'.
  assert (H : coord_state c <> COORD_STATE_LEADER) by (vm_compute; discriminate).
  assert (Hl : coord_state (snd s') = COORD_STATE_LEADER) by reflexivity.
  destruct (@tasks_wait_for_leader engine_n1 c 500 3 H) as (Q & _ & N).
  fold s' in Q, N.
  pose proof (f_equal (fun q => fst (fst (fst (fst (fst q))))) Q) as Q1.
  pose proof (f_equal (fun q => snd (fst (fst (fst (fst q))))) Q) as Q2.
  cbn [coord_queues fst snd] in Q1, Q2.
  destruct (N Hl 501 4) as (N1 & N2).
  split; [exact H|]. split; [exact Hl|].
  split; [etransitivity; [exact (f_equal (@List.length _) Q1)|reflexivity]|].
  split; [etransitivity; [exact Q2|reflexivity]|].
  split; [exact N1|]. etransitivity; [exact N2|apply app_nil_r].
Defined.

(* ================================================================= *)
(** ** A Leader that leaves *)

Lemma filter_none (A : Type) (f : A -> bool) (l : list A) :
  (forall x, In x l -> f x = false) -> filter f l = [].
Proof.
  induction l as [|h t IH]; intros H; [reflexivity|]. cbn.
  rewrite (H h) by (left; reflexivity). apply IH.
  intros x Hx. apply H. right. exact Hx.
Qed.

Lemma leave_loop_quiet (U : Type) (sendto : datagram_out -> bool)
      (w : world U) (l : list node_ptr) :
  (forall q m, deref (w_ctx w) q = Some m -> alive_peer m = false) ->
  fold_left (leave_at sendto) l w = w.
Proof.
  intros H. induction l as [|q l IH]; [reflexivity|].
  cbn [fold_left].
  assert (E : leave_at sendto w q = w).
  { unfold leave_at. destruct (deref (w_ctx w) q) as [m|] eqn:D;
      [|reflexivity].
    pose proof (H q m D) as A. unfold alive_peer in A. rewrite A.
    reflexivity. }
  rewrite E. exact IH.
Qed.

(** X15.  A Leader that leaves the mesh elects itself again.  When the
    coordinator of an engine names the engine's own node as leader and no
    other record is Alive, [swim_leave] marks the local record Left, the
    coordinator's callback takes that for the loss of the leader and
    starts an election, which it wins at once, as the engine no longer
    counts any Alive node: when [swim_leave] returns, the coordinator is
    Leader in the next term with [is_main_node] set, [on_become_leader]
    (when registered) was called once more, the local record is Left and
    flagged as the main node, and no datagram was sent. *)
Theorem leaving_leader_elects_itself :
  forall (sendto : datagram_out -> bool) (now now_ms rnd : Z)
         (w : world node_coordinator_t) (p : node_ptr) (n : swim_node_t),
    swim_get_local_node (w_ctx w) = Some p ->
    deref (w_ctx w) p = Some n ->
    node_id n = coord_leader_id (w_user w) ->
    node_state n <> NODE_STATE_LEFT ->
    alone_at (w_ctx w) p ->
    let w' := swim_leave (Some (on_node_event now_ms rnd)) sendto now w in
    coord_state (w_user w') = COORD_STATE_LEADER /\
    coord_term (w_user w') = u32 (coord_term (w_user w) + 1) /\
    coord_is_main_node (w_user w') = true /\
    coord_leader_id (w_user w') = strncpy 63 (node_id n) /\
    coord_calls (w_user w')
    = (if coord_on_become_leader (w_user w)
       then coord_calls (w_user w) ++ [CallBecomeLeader]
       else coord_calls (w_user w)) /\
    deref (w_ctx w') p
    = Some (node_with_is_main true (node_with_state NODE_STATE_LEFT now n)) /\
    swim_get_node_count (w_ctx w') NODE_STATE_ALIVE = 0 /\
    w_sent w' = w_sent w.
Proof.
  intros sendto now now_ms rnd w p n Hloc Hd Hid Hst Halone w'.
  set (n1 := node_with_state NODE_STATE_LEFT now n).
  set (c1 := assign p (node_with_state NODE_STATE_LEFT now) (w_ctx w)).
  destruct (find_ptr_some _ _ Hloc) as (x & Hx & Hlocal).
  pose proof Hd as Hd'.
  unfold deref in Hd. rewrite Hd in Hx. inversion Hx; subst x; clear Hx.
  assert (F1 : ctx_nodes c1 = store p n1 (ctx_nodes (w_ctx w))).
  { subst c1. unfold assign, deref. rewrite Hd. reflexivity. }
  assert (F2 : swim_get_local_node c1 = Some p).
  { unfold swim_get_local_node. rewrite F1, <- Hloc.
    eapply find_ptr_store; [exact Hd|reflexivity]. }
  assert (F3 : deref c1 p = Some n1).
  { unfold deref. rewrite F1. eapply nth_error_store_same. exact Hd. }
  assert (F4 : swim_get_node_count c1 NODE_STATE_ALIVE = 0).
  { unfold swim_get_node_count. rewrite filter_none; [reflexivity|].
    intros m Hm. apply In_nth_error in Hm. destruct Hm as (q & Hq).
    rewrite F1 in Hq. destruct (Nat.eq_dec q p) as [->|Hne].
    - rewrite (nth_error_store_same _ _ _ Hd) in Hq. inversion Hq.
      reflexivity.
    - rewrite nth_error_store_other in Hq by congruence.
      apply Z.eqb_neq. eapply Halone; eauto. }
  set (c2 := swim_set_main_node true c1).
  destruct (@set_main_step true c1 p n1 F2 F3) as (_ & G2 & _).
  fold c2 in G2.
  set (u1 := coord_with_election COORD_STATE_CANDIDATE
               (u32 (coord_term (w_user w) + 1))
               (now_ms + random_election_timeout rnd) 1 (w_user w)).
  set (u2 := coord_with_leader COORD_STATE_LEADER true
               (strncpy 63 (node_id n1))
               (if coord_on_become_leader u1
                then coord_calls u1 ++ [CallBecomeLeader] else coord_calls u1)
               u1).
  assert (Hq : forall q m, deref c2 q = Some m -> alive_peer m = false).
  { intros q m Hm. unfold deref in Hm. rewrite G2, F1 in Hm.
    unfold alive_peer. destruct (Nat.eq_dec q p) as [->|Hne].
    - erewrite nth_error_store_same in Hm
        by (eapply nth_error_store_same; exact Hd).
      inversion Hm. cbn. rewrite Hlocal. reflexivity.
    - rewrite !nth_error_store_other in Hm by congruence.
      assert (E : (node_state m =? NODE_STATE_ALIVE) = false)
        by (apply Z.eqb_neq; eapply Halone; eauto).
      rewrite E. apply andb_false_r. }
  assert (E1 : swim_update_node_state (Some (on_node_event now_ms rnd)) now p
                 NODE_STATE_LEFT w
               = mk_world c2 u2 (w_sent w)).
  { unfold swim_update_node_state. rewrite Hd'.
    apply Z.eqb_neq in Hst. rewrite Hst. cbn zeta.
    unfold notify, on_ctx. cbn [w_ctx w_user w_sent]. fold c1 n1.
    unfold on_node_event.
    change (node_id n1) with (node_id n). rewrite Hid.
    unfold streq at 1. rewrite String.eqb_refl.
    change (negb (NODE_STATE_LEFT =? NODE_STATE_ALIVE)) with true.
    cbn [andb]. unfold coordinator_start_election. rewrite F4.
    change (0 <=? 1) with true. cbn iota. fold u1.
    unfold take_leadership. rewrite F2, F3. fold c2.
    cbn [andb]. reflexivity. }
  assert (E2 : w' = mk_world c2 u2 (w_sent w)).
  { subst w'. unfold swim_leave. rewrite Hloc, E1.
    apply leave_loop_quiet. exact Hq. }
  rewrite E2. cbn [w_ctx w_user w_sent].
  split; [reflexivity|]. split; [reflexivity|]. split; [reflexivity|].
  split; [reflexivity|]. split; [reflexivity|]. split; [|split].
  - unfold deref. rewrite G2. eapply nth_error_store_same.
    rewrite F1. eapply nth_error_store_same. exact Hd.
  - unfold swim_get_node_count. rewrite filter_none; [reflexivity|].
    intros m Hm. apply In_nth_error in Hm. destruct Hm as (q & Hm).
    rewrite G2, F1 in Hm. destruct (Nat.eq_dec q p) as [->|Hne].
    + erewrite nth_error_store_same in Hm
        by (eapply nth_error_store_same; exact Hd).
      inversion Hm. reflexivity.
    + rewrite !nth_error_store_other in Hm by congruence.
      apply Z.eqb_neq. eapply Halone; eauto.
  - reflexivity.
Qed.

Lemma leaving_leader_elects_itself_witness :
  let w := mk_world (fst leader_n1) (snd leader_n1) [] in
  let w' := swim_leave (Some (on_node_event 2000 7)) sendto_ok 5 w in
  coord_state (w_user w) = COORD_STATE_LEADER /\
  coord_term (w_user w) = 1 /\
  alone_at (w_ctx w) 0%nat /\
  coord_state (w_user w') = COORD_STATE_LEADER /\
  coord_term (w_user w') = 2 /\
  coord_calls (w_user w') = [CallBecomeLeader] /\
  node_view (w_ctx w') "n1" = Some (NODE_STATE_LEFT, 1, true).
Proof.
  intros w w'.
  assert (Ha : alone_at (w_ctx w) 0%nat).
  { intros [|[|q]] m Hm Hne; [congruence|discriminate|discriminate]. }
  destruct (@leaving_leader_elects_itself sendto_ok 5 2000 7 w 0%nat
              (node_with_is_main true
                 (mk_node "n1" "127.0.0.1" 7946 NODE_STATE_ALIVE 1 100 100 0
                          true false))
              eq_refl eq_refl eq_refl) as (H1 & H2 & _ & _ & H5 & H6 & _);
    [discriminate|exact Ha|].
  fold w' in H1, H2, H5, H6.
  split; [reflexivity|]. split; [reflexivity|]. split; [exact Ha|].
  split; [exact H1|]. split; [etransitivity; [exact H2|reflexivity]|].
  split; [etransitivity; [exact H5|reflexivity]|].
  unfold node_view.
  assert (F : swim_find_node (w_ctx w') "n1" = Some 0%nat) by reflexivity.
  rewrite F, H6. reflexivity.
Defined.

(* ================================================================= *)
(** ** Instance manager: the books over a run *)

Lemma Forall_store (A : Type) (P : A -> Prop) (l : list A) p x :
  Forall P l -> P x -> Forall P (store p x l).
Proof.
  intros H Hx. revert p; induction H as [|h t Hh Ht IH]; intros [|p]; cbn;
    auto.
Qed.

Lemma on_instance_ok p f m :
  (forall n, inst_messages_processed (f n) = inst_messages_processed n) ->
  manager_ok m -> manager_ok (on_instance p f m).
Proof.
  intros Hf (H1 & H2 & H3 & H4 & H5). unfold on_instance.
  destruct (nth_error (mgr_instances m) p) as [n|] eqn:E;
    [|exact (conj H1 (conj H2 (conj H3 (conj H4 H5))))].
  unfold manager_ok. cbn [mgr_with_instances mgr_instances mgr_instance_count
                          mgr_max_instances].
  rewrite store_length. split; [exact H1|]. split; [exact H2|].
  split; [exact H3|]. split; [exact H4|].
  apply Forall_store; [exact H5|]. rewrite Hf.
  rewrite Forall_forall in H5. apply H5. eapply nth_error_In. exact E.
Qed.

Lemma start_node_ok now_s id m :
  manager_ok m -> manager_ok (snd (node_manager_start_node now_s id m)).
Proof.
  intros H. unfold node_manager_start_node.
  destruct (node_manager_get_node m id) as [p|]; [|exact H].
  destruct (nth_error (mgr_instances m) p) as [n|]; [|exact H].
  destruct (inst_is_running n); [exact H|].
  cbn [snd]. apply on_instance_ok; [reflexivity|exact H].
Qed.

Lemma stop_node_ok sendto now_s now_ms rnd id m :
  manager_ok m ->
  manager_ok (snd (node_manager_stop_node sendto now_s now_ms rnd id m)).
Proof.
  intros H. unfold node_manager_stop_node.
  destruct (node_manager_get_node m id) as [p|]; [|exact H].
  destruct (nth_error (mgr_instances m) p) as [n|]; [|exact H].
  destruct (negb (inst_is_running n)); [exact H|].
  cbn [snd]. apply on_instance_ok; [reflexivity|exact H].
Qed.

Lemma unlink_some (P : node_instance_t -> Prop) id l l' :
  unlink id l = Some l' ->
  List.length l = S (List.length l') /\ (Forall P l -> Forall P l').
Proof.
  revert l'; induction l as [|n t IH]; intros l' H; cbn in H;
    [discriminate|].
  destruct (streq (inst_id n) id).
  - inversion H; subst. split; [reflexivity|].
    intros F. inversion F; assumption.
  - destruct (unlink id t) as [t'|]; [|discriminate]. cbn in H.
    inversion H; subst. destruct (IH t' eq_refl) as (L & F).
    split; [cbn; rewrite L; reflexivity|].
    intros G. inversion G; subst. constructor; auto.
Qed.

Lemma remove_node_ok sendto now_s now_ms rnd id m :
  manager_ok m ->
  manager_ok (snd (node_manager_remove_node sendto now_s now_ms rnd id m)).
Proof.
  intros H. unfold node_manager_remove_node.
  pose proof (@stop_node_ok sendto now_s now_ms rnd id m H) as H1.
  set (m1 := snd (node_manager_stop_node sendto now_s now_ms rnd id m)) in *.
  destruct (unlink id (mgr_instances m1)) as [l|] eqn:E; [|exact H1].
  destruct (unlink_some (fun n => inst_messages_processed n = 0) _ _ E)
    as (L & F).
  destruct H1 as (K1 & K2 & K3 & K4 & K5).
  unfold manager_ok. cbn [snd mgr_with_instances mgr_instances
                          mgr_instance_count mgr_max_instances].
  split; [|split; [lia|split; [exact K3|split; [exact K4|auto]]]].
  rewrite K1, L. rewrite u32_small by lia. lia.
Qed.

Lemma allocate_port_ok m :
  manager_ok m -> manager_ok (snd (node_manager_allocate_port m)).
Proof.
  intros (H1 & H2 & H3 & H4 & H5).
  pose proof (allocate_port_safe H4) as S.
  destruct (node_manager_allocate_port m) as (port, m') eqn:E.
  destruct S as (_ & S2 & S3 & S4 & _).
  assert (M : mgr_max_instances m' = mgr_max_instances m).
  { unfold node_manager_allocate_port in E.
    destruct (scan_ports m _ _); inversion E; reflexivity. }
  cbn [snd]. unfold manager_ok. rewrite S3, S4, M. auto.
Qed.

Lemma allocate_port_count m :
  mgr_instance_count (snd (node_manager_allocate_port m))
  = mgr_instance_count m.
Proof.
  unfold node_manager_allocate_port. destruct (scan_ports m _ _); reflexivity.
Qed.

Lemma create_node_ok sock_ok sendto now_s now_ms rnd config m :
  manager_ok m ->
  manager_ok (snd (node_manager_create_node sock_ok sendto now_s now_ms rnd
                                            config m)).
Proof.
  intros H. unfold node_manager_create_node.
  destruct (mgr_instance_count m >=? mgr_max_instances m) eqn:Full;
    [exact H|].
  set (r1 := if cfg_swim_port config =? 0 then node_manager_allocate_port m
             else (cfg_swim_port config, m)).
  assert (R1 : manager_ok (snd r1) /\
               mgr_instance_count (snd r1) = mgr_instance_count m).
  { subst r1. destruct (cfg_swim_port config =? 0).
    - split; [apply allocate_port_ok; exact H|apply allocate_port_count].
    - split; [exact H|reflexivity]. }
  destruct r1 as (swim_port, m1). cbn [snd] in R1. destruct R1 as (R1 & C1).
  destruct ((cfg_swim_port config =? 0) && (swim_port =? 0)); [exact R1|].
  set (r2 := if cfg_ws_port config =? 0 then node_manager_allocate_port m1
             else (cfg_ws_port config, m1)).
  assert (R2 : manager_ok (snd r2) /\
               mgr_instance_count (snd r2) = mgr_instance_count m1).
  { subst r2. destruct (cfg_ws_port config =? 0).
    - split; [apply allocate_port_ok; exact R1|apply allocate_port_count].
    - split; [exact R1|reflexivity]. }
  destruct r2 as (ws_port, m2). cbn [snd] in R2. destruct R2 as (R2 & C2).
  match goal with |- context [swim_init ?a ?b ?c ?d ?e] =>
    destruct (swim_init a b c d e) as [swim|] end; [|exact R2].
  match goal with |- context [coordinator_init ?a ?b ?c ?d] =>
    destruct (coordinator_init a b c d) as (swim1, coord) end.
  match goal with |- context [mgr_with_instances (?n :: ?l) ?k m2] =>
    set (m3 := mgr_with_instances (n :: l) k m2) end.
  assert (R3 : manager_ok m3).
  { destruct R2 as (K1 & K2 & K3 & K4 & K5).
    destruct H as (_ & _ & Hmax & _).
    rewrite Z.geb_leb in Full. apply Z.leb_gt in Full.
    rewrite Hmax in Full. unfold MAX_NODES_PER_SERVER in Full.
    rewrite <- C1, <- C2, K1 in Full.
    subst m3. unfold manager_ok.
    cbn [mgr_with_instances mgr_instances mgr_instance_count
         mgr_max_instances List.length].
    split; [rewrite K1, u32_small by lia; lia|].
    split; [lia|]. split; [exact K3|]. split; [exact K4|].
    constructor; [reflexivity|exact K5]. }
  destruct (cfg_auto_start config); [|exact R3].
  cbn [snd].
  match goal with |- manager_ok (if ?b then _ else _) => destruct b end.
  - apply on_instance_ok; [reflexivity|]. apply start_node_ok. exact R3.
  - apply start_node_ok. exact R3.
Qed.

Lemma start_all_ok now_s m :
  manager_ok m -> manager_ok (snd (node_manager_start_all now_s m)).
Proof.
  unfold node_manager_start_all. intros H.
  assert (G : manager_ok (snd (0, m))) by exact H.
  revert G. generalize (0, m). generalize (map inst_id (mgr_instances m)).
  clear H. intros ids.
  induction ids as [|id ids IH]; intros acc H; [exact H|].
  cbn [fold_left]. apply IH.
  pose proof (@start_node_ok now_s id (snd acc) H) as H1.
  destruct (node_manager_start_node now_s id (snd acc)) as (rc, m').
  exact H1.
Qed.

Lemma stop_all_ok sendto now_s now_ms rnd m :
  manager_ok m -> manager_ok (node_manager_stop_all sendto now_s now_ms rnd m).
Proof.
  unfold node_manager_stop_all.
  generalize (map inst_id (mgr_instances m)). intros ids. revert m.
  induction ids as [|id ids IH]; intros m H; [exact H|].
  cbn [fold_left]. apply IH. apply stop_node_ok. exact H.
Qed.

Lemma process_instance_messages sendto now_s now_ms rnd inbox n :
  inst_messages_processed (process_instance sendto now_s now_ms rnd inbox n)
  = inst_messages_processed n.
Proof.
  unfold process_instance. destruct (inst_is_running n); [|reflexivity].
  destruct (coordinator_process _ _ _). reflexivity.
Qed.

Lemma process_ok sendto now_s now_ms rnd inbox m :
  manager_ok m ->
  manager_ok (node_manager_process sendto now_s now_ms rnd inbox m).
Proof.
  intros (H1 & H2 & H3 & H4 & H5). unfold node_manager_process, manager_ok.
  cbn [mgr_with_instances mgr_instances mgr_instance_count
       mgr_max_instances].
  rewrite length_map, length_combine, length_seq, Nat.min_id.
  split; [exact H1|]. split; [exact H2|]. split; [exact H3|].
  split; [exact H4|].
  apply Forall_forall. intros x Hx. apply in_map_iff in Hx.
  destruct Hx as ((i, n) & <- & Hin). cbn [fst snd].
  rewrite process_instance_messages.
  apply in_combine_r in Hin. rewrite Forall_forall in H5. auto.
Qed.

Lemma mgr_run_ok sock_ok sendto ops m :
  manager_ok m -> manager_ok (mgr_run sock_ok sendto ops m).
Proof.
  revert m; induction ops as [|op ops IH]; intros m H; [exact H|].
  unfold mgr_run. cbn [fold_left]. apply IH.
  destruct op; cbn [mgr_step].
  - apply create_node_ok; exact H.
  - apply start_node_ok; exact H.
  - apply stop_node_ok; exact H.
  - apply remove_node_ok; exact H.
  - apply start_all_ok; exact H.
  - apply stop_all_ok; exact H.
  - apply process_ok; exact H.
  - apply allocate_port_ok; exact H.
  - exact H.
Qed.

(** The walk of [node_manager_get_stats] from any point on. *)
Lemma get_stats_walk now_s l t r u :
  Forall (fun n => inst_messages_processed n = 0) l ->
  exists uptime,
    fold_left (fun (acc : Z * Z * Z * Z) n =>
                 let '(total, running, messages, uptime) := acc in
                 let uptime1 := if inst_is_running n
                                then u64 (uptime + (now_s - inst_start_time n))
                                else uptime in
                 (u32 (total + 1),
                  if inst_is_running n then u32 (running + 1) else running,
                  u64 (messages + inst_messages_processed n),
                  u64 (uptime1 + inst_uptime_seconds n)))
              l (u32 t, u32 r, 0, u)
    = (u32 (t + Z.of_nat (List.length l)),
       u32 (r + Z.of_nat (List.length (filter inst_is_running l))),
       0, uptime).
Proof.
  intros F. revert t r u; induction F as [|n l Hn _ IH]; intros t r u.
  - cbn. rewrite !Z.add_0_r. eauto.
  - cbn [fold_left filter]. rewrite Hn.
    change (u64 (0 + 0)) with 0. rewrite u32_succ_u32.
    destruct (inst_is_running n).
    + rewrite u32_succ_u32.
      destruct (IH (t + 1) (r + 1)
                   (u64 (u64 (u + (now_s - inst_start_time n)) +
                         inst_uptime_seconds n))) as (up & E).
      exists up. refine (eq_trans E _). cbn [List.length].
      f_equal; f_equal; f_equal; f_equal; lia.
    + destruct (IH (t + 1) r (u64 (u + inst_uptime_seconds n))) as (up & E).
      exists up. refine (eq_trans E _). cbn [List.length].
      f_equal; f_equal; f_equal; f_equal; lia.
Qed.

(** X16.  The books of the manager stay in order whatever is done with it
    after [node_manager_init] (instances created, started, stopped,
    removed, processed, ports allocated): [instance_count] is the number
    of instances in the list, never more than 16; the cursor of the
    allocator stays within the port range; and no instance ever counts a
    message, so that [node_manager_get_stats] reports the number of
    instances, the number of running ones, and 0 messages at all times. *)
Theorem manager_books_in_order :
  forall (sock_ok : Z -> bool) (sendto : datagram_out -> bool)
         (server_id : string) (port_start port_end : Z) (ops : list mgr_op),
    0 <= port_start <= 65535 -> 0 <= port_end <= 65535 ->
    let m := mgr_run sock_ok sendto ops
               (node_manager_init server_id port_start port_end) in
    node_manager_total_count m = Z.of_nat (List.length (mgr_instances m)) /\
    node_manager_total_count m <= MAX_NODES_PER_SERVER /\
    cursor_in_range m /\
    Forall (fun n => inst_messages_processed n = 0) (mgr_instances m) /\
    (forall now_s,
        exists uptime,
          node_manager_get_stats now_s m
          = (node_manager_total_count m, node_manager_running_count m,
             0, uptime)).
Proof.
  intros sock_ok sendto server_id port_start port_end ops Hs He m.
  assert (H0 : manager_ok (node_manager_init server_id port_start port_end)).
  { split; [reflexivity|]. split; [cbn; lia|]. split; [reflexivity|].
    split; [apply init_cursor_in_range; assumption|constructor]. }
  pose proof (@mgr_run_ok sock_ok sendto ops _ H0) as H. fold m in H.
  destruct H as (H1 & H2 & H3 & H4 & H5).
  unfold node_manager_total_count, MAX_NODES_PER_SERVER.
  split; [exact H1|]. split; [lia|]. split; [exact H4|]. split; [exact H5|].
  intros now_s.
  destruct (@get_stats_walk now_s (mgr_instances m) 0 0 0 H5) as (up & E).
  exists up. unfold node_manager_get_stats, node_manager_running_count.
  change (u32 0) with 0 in E. refine (eq_trans E _).
  rewrite H1, !Z.add_0_l.
  rewrite (@u32_small (Z.of_nat (List.length (mgr_instances m)))) by lia.
  reflexivity.
Qed.

Lemma manager_books_in_order_witness :
  let m := mgr_run sock_always sendto_ok
             [MgrCreate 100 1000 7 auto_config;
              MgrCreate 101 1001 8 (mk_config "b" 0 0 true true "" 0);
              MgrProcess 102 2000 9 (fun _ => []);
              MgrRemove 103 2001 10 "b"]
             (node_manager_init "srv" 7946 7956) in
  0 <= 7946 <= 65535 /\ 0 <= 7956 <= 65535 /\
  node_manager_total_count m = 1 /\
  cursor_in_range m /\
  exists uptime, node_manager_get_stats 104 m = (1, 0, 0, uptime).
Proof.
  intros m.
  assert (Hs : 0 <= 7946 <= 65535) by lia.
  assert (He : 0 <= 7956 <= 65535) by lia.
  destruct (@manager_books_in_order sock_always sendto_ok "srv" 7946 7956
              [MgrCreate 100 1000 7 auto_config;
               MgrCreate 101 1001 8 (mk_config "b" 0 0 true true "" 0);
               MgrProcess 102 2000 9 (fun _ => []);
               MgrRemove 103 2001 10 "b"] Hs He)
    as (H1 & _ & H3 & _ & H5).
  fold m in H1, H3, H5.
  split; [exact Hs|]. split; [exact He|].
  assert (L : List.length (mgr_instances m) = 1%nat) by (vm_compute; reflexivity).
  assert (R : node_manager_running_count m = 0) by (vm_compute; reflexivity).
  split; [rewrite H1, L; reflexivity|]. split; [exact H3|].
  destruct (H5 104) as (up & E). exists up.
  rewrite E, H1, L, R. reflexivity.
Defined.

(* ================================================================= *)
(** ** Instance manager: creating, finding and removing instances *)

Lemma allocate_port_instances m :
  mgr_instances (snd (node_manager_allocate_port m)) = mgr_instances m /\
  mgr_instance_count (snd (node_manager_allocate_port m))
  = mgr_instance_count m.
Proof.
  unfold node_manager_allocate_port. destruct (scan_ports m _ _);
    split; reflexivity.
Qed.

Lemma streq_refl s : streq s s = true.
Proof. unfold streq. apply String.eqb_refl. Qed.

(** What [node_manager_create_node] leaves behind, by its result. *)
Lemma create_node_result sock_ok sendto now_s now_ms rnd config m :
  let r := node_manager_create_node sock_ok sendto now_s now_ms rnd config m in
  match fst r with
  | Some node =>
      mgr_instances (snd r) = node :: mgr_instances m /\
      mgr_instance_count (snd r) = u32 (mgr_instance_count m + 1) /\
      mgr_instance_count m < mgr_max_instances m /\
      inst_is_running node = cfg_auto_start config /\
      inst_is_main_node node = cfg_is_main_node config /\
      sock_ok (inst_swim_port node) = true /\
      (cfg_swim_port config <> 0 ->
       inst_swim_port node = cfg_swim_port config) /\
      (cfg_ws_port config <> 0 -> inst_ws_port node = cfg_ws_port config) /\
      (cfg_node_id config <> ""%string ->
       inst_id node = strncpy 63 (cfg_node_id config))
  | None =>
      mgr_instances (snd r) = mgr_instances m /\
      mgr_instance_count (snd r) = mgr_instance_count m
  end.
Proof.
  unfold node_manager_create_node.
  destruct (mgr_instance_count m >=? mgr_max_instances m) eqn:Full;
    [split; reflexivity|].
  rewrite Z.geb_leb in Full. apply Z.leb_gt in Full.
  set (r1 := if cfg_swim_port config =? 0 then node_manager_allocate_port m
             else (cfg_swim_port config, m)).
  assert (R1 : mgr_instances (snd r1) = mgr_instances m /\
               mgr_instance_count (snd r1) = mgr_instance_count m /\
               (cfg_swim_port config <> 0 -> fst r1 = cfg_swim_port config)).
  { subst r1. destruct (cfg_swim_port config =? 0) eqn:E.
    - destruct (allocate_port_instances m) as (A1 & A2).
      apply Z.eqb_eq in E. split; [exact A1|]. split; [exact A2|]. congruence.
    - repeat split. }
  destruct r1 as (swim_port, m1). cbn [fst snd] in R1.
  destruct R1 as (I1 & C1 & P1).
  destruct ((cfg_swim_port config =? 0) && (swim_port =? 0));
    [cbn [fst snd]; split; assumption|].
  set (r2 := if cfg_ws_port config =? 0 then node_manager_allocate_port m1
             else (cfg_ws_port config, m1)).
  assert (R2 : mgr_instances (snd r2) = mgr_instances m1 /\
               mgr_instance_count (snd r2) = mgr_instance_count m1 /\
               (cfg_ws_port config <> 0 -> fst r2 = cfg_ws_port config)).
  { subst r2. destruct (cfg_ws_port config =? 0) eqn:E.
    - destruct (allocate_port_instances m1) as (A1 & A2).
      apply Z.eqb_eq in E. split; [exact A1|]. split; [exact A2|]. congruence.
    - repeat split. }
  destruct r2 as (ws_port, m2). cbn [fst snd] in R2.
  destruct R2 as (I2 & C2 & P2).
  rewrite I1 in I2. rewrite C1 in C2.
  match goal with |- context [swim_init _ ?b ?c ?d ?e] =>
    set (id := c) end.
  assert (Hidc : cfg_node_id config <> ""%string ->
                 id = strncpy 63 (cfg_node_id config)).
  { intros Hne. subst id. destruct (cfg_node_id config); [congruence|].
    reflexivity. }
  unfold swim_init. destruct (sock_ok swim_port) eqn:Sock;
    [|cbn [fst snd]; split; assumption].
  match goal with |- context [coordinator_init ?a ?b ?c ?d] =>
    destruct (coordinator_init a b c d) as (swim1, coord) end.
  set (node := mk_instance id swim_port ws_port false
                           (cfg_is_main_node config) swim1 coord 0 0 0 []).
  destruct (cfg_auto_start config) eqn:Auto.
  - unfold node_manager_start_node, node_manager_get_node.
    cbn [mgr_with_instances mgr_instances find_ptr].
    change (inst_id node) with id. rewrite streq_refl.
    cbn [nth_error]. change (inst_is_running node) with false. cbv iota.
    unfold on_instance at 2.
    cbn [mgr_with_instances mgr_instances nth_error store snd
         mgr_instance_count].
    match goal with |- context [if ?b then on_instance 0 ?f ?m4 else ?m4] =>
      destruct b end.
    + unfold on_instance.
      cbn [mgr_with_instances mgr_instances nth_error store snd fst
           mgr_instance_count mgr_max_instances].
      rewrite I2, C2. repeat split; auto.
    + cbn [mgr_with_instances mgr_instances nth_error store snd fst
           mgr_instance_count mgr_max_instances].
      rewrite I2, C2. repeat split; auto.
  - cbn [fst snd mgr_with_instances mgr_instances mgr_instance_count].
    rewrite I2, C2. repeat split; auto.
Qed.

Lemma unlink_find id l :
  unlink id l
  = match find_ptr (fun n => streq (inst_id n) id) l with
    | Some p => Some (firstn p l ++ skipn (S p) l)
    | None => None
    end.
Proof.
  induction l as [|n t IH]; [reflexivity|]. cbn [unlink find_ptr].
  destruct (streq (inst_id n) id); [reflexivity|].
  rewrite IH. destruct (find_ptr _ t); reflexivity.
Qed.

(** X17.  An instance that [node_manager_create_node] returns stands at
    the head of the list, in front of the instances that were there, and
    is what [node_manager_get_node] finds under its id (also when an older
    instance has the same id: ids are not checked for duplicates); the
    count has grown by one; the instance runs exactly when [auto_start]
    was set; ports given in the configuration are taken as they are, an
    id given there is cut to 63 bytes, and the membership socket could be
    bound.  A call that returns NULL leaves the list and the count as
    they were. *)
Theorem created_instance_is_found :
  forall (sock_ok : Z -> bool) (sendto : datagram_out -> bool)
         (now_s now_ms rnd : Z) (config : node_instance_config_t)
         (m : node_manager_t),
    let r := node_manager_create_node sock_ok sendto now_s now_ms rnd
                                      config m in
    (forall node,
        fst r = Some node ->
        mgr_instances (snd r) = node :: mgr_instances m /\
        node_manager_get_node (snd r) (inst_id node) = Some 0%nat /\
        node_manager_total_count (snd r)
        = u32 (node_manager_total_count m + 1) /\
        node_manager_total_count m < mgr_max_instances m /\
        inst_is_running node = cfg_auto_start config /\
        inst_is_main_node node = cfg_is_main_node config /\
        sock_ok (inst_swim_port node) = true /\
        (cfg_swim_port config <> 0 ->
         inst_swim_port node = cfg_swim_port config) /\
        (cfg_ws_port config <> 0 -> inst_ws_port node = cfg_ws_port config) /\
        (cfg_node_id config <> ""%string ->
         inst_id node = strncpy 63 (cfg_node_id config))) /\
    (fst r = None ->
     mgr_instances (snd r) = mgr_instances m /\
     node_manager_total_count (snd r) = node_manager_total_count m).
Proof.
  intros sock_ok sendto now_s now_ms rnd config m r.
  pose proof (create_node_result sock_ok sendto now_s now_ms rnd config m)
    as H. cbn zeta in H. fold r in H.
  split.
  - intros node E. rewrite E in H.
    destruct H as (H1 & H2 & H3 & H4 & H5 & H6 & H7 & H8 & H9).
    unfold node_manager_total_count, node_manager_get_node.
    rewrite H1. cbn [find_ptr]. rewrite streq_refl. auto 12.
  - intros E. rewrite E in H. exact H.
Qed.

Lemma created_instance_is_found_witness :
  let m1 := snd (node_manager_create_node sock_always sendto_ok 100 1000 7
                   (mk_config "a" 0 0 false false "" 0)
                   (node_manager_init "srv" 7946 7956)) in
  let r := node_manager_create_node sock_always sendto_ok 101 1001 8
             (mk_config "a" 9000 0 true true "" 0) m1 in
  exists node,
    fst r = Some node /\
    node_manager_get_node (snd r) "a" = Some 0%nat /\
    inst_ports node = (9000, 7948) /\
    inst_is_running node = true /\
    node_manager_total_count (snd r) = 2.
Proof.
  intros m1 r.
  destruct (@created_instance_is_found sock_always sendto_ok 101 1001 8
              (mk_config "a" 9000 0 true true "" 0) m1) as (H & _).
  fold r in H.
  assert (E : exists node, fst r = Some node /\ inst_id node = "a"%string /\
                           inst_ws_port node = 7948).
  { eexists. split; [reflexivity|]. split; reflexivity. }
  destruct E as (node & E & Eid & Ews). exists node.
  destruct (H node E) as (_ & H2 & H3 & _ & H5 & _ & _ & H8 & _).
  split; [exact E|]. split; [rewrite <- Eid; exact H2|].
  split; [unfold inst_ports; rewrite (H8 ltac:(discriminate)), Ews;
          reflexivity|].
  split; [exact H5|]. etransitivity; [exact H3|reflexivity].
Defined.

(** X18.  [node_manager_remove_node] unlinks the first instance that has
    the id, and that one only.  When no instance has the id the call
    answers -1 and leaves the manager as it was.  When the first instance
    with the id is not running the call answers 0, the instances before
    and behind it stay in the list, in their order and unchanged, and the
    count goes down by one; nothing else of the manager changes, the
    cursor of the allocator included. *)
Theorem remove_unlinks_first_match :
  forall (sendto : datagram_out -> bool) (now_s now_ms rnd : Z)
         (node_id : string) (m : node_manager_t),
    (node_manager_get_node m node_id = None ->
     node_manager_remove_node sendto now_s now_ms rnd node_id m = (-1, m)) /\
    (forall p n,
        node_manager_get_node m node_id = Some p ->
        nth_error (mgr_instances m) p = Some n ->
        inst_is_running n = false ->
        let r := node_manager_remove_node sendto now_s now_ms rnd node_id m in
        r = (0, mgr_with_instances
                  (firstn p (mgr_instances m) ++ skipn (S p) (mgr_instances m))
                  (u32 (mgr_instance_count m - 1)) m) /\
        inst_id n = node_id /\
        (forall q, (q < p)%nat ->
                   nth_error (mgr_instances (snd r)) q
                   = nth_error (mgr_instances m) q) /\
        (forall q, (p <= q)%nat ->
                   nth_error (mgr_instances (snd r)) q
                   = nth_error (mgr_instances m) (S q)) /\
        mgr_next_available_port (snd r) = mgr_next_available_port m).
Proof.
  intros sendto now_s now_ms rnd node_id m. split.
  - intros Hn. unfold node_manager_remove_node, node_manager_stop_node.
    rewrite Hn. cbn [snd]. rewrite unlink_find.
    unfold node_manager_get_node in Hn. rewrite Hn. reflexivity.
  - intros p n Hp Hn Hrun r.
    assert (E : r = (0, mgr_with_instances
                          (firstn p (mgr_instances m) ++
                           skipn (S p) (mgr_instances m))
                          (u32 (mgr_instance_count m - 1)) m)).
    { subst r. unfold node_manager_remove_node, node_manager_stop_node.
      rewrite Hp, Hn, Hrun. cbn [negb snd]. rewrite unlink_find.
      unfold node_manager_get_node in Hp. rewrite Hp. reflexivity. }
    assert (Hlen : (p < List.length (mgr_instances m))%nat)
      by (apply nth_error_Some; congruence).
    assert (Hf : List.length (firstn p (mgr_instances m)) = p)
      by (rewrite length_firstn; lia).
    split; [exact E|]. rewrite E.
    cbn [snd mgr_with_instances mgr_instances mgr_next_available_port].
    split; [|split; [|split; [|reflexivity]]].
    + destruct (find_ptr_some _ _ Hp) as (x & Hx & Ex).
      rewrite Hn in Hx. inversion Hx; subst x.
      unfold streq in Ex. apply String.eqb_eq in Ex. exact Ex.
    + intros q Hq. rewrite nth_error_app1 by lia.
      rewrite nth_error_firstn. apply Nat.ltb_lt in Hq. rewrite Hq.
      reflexivity.
    + intros q Hq. rewrite nth_error_app2 by lia. rewrite Hf.
      rewrite nth_error_skipn. f_equal. lia.
Qed.

Lemma remove_unlinks_first_match_witness :
  let m1 := snd (node_manager_create_node sock_always sendto_ok 100 1000 7
                   (mk_config "a" 0 0 false false "" 0)
                   (node_manager_init "srv" 7946 7956)) in
  let m2 := snd (node_manager_create_node sock_always sendto_ok 101 1001 8
                   (mk_config "b" 0 0 false false "" 0) m1) in
  node_manager_get_node m2 "a" = Some 1%nat /\
  node_manager_get_node m2 "zz" = None /\
  node_manager_remove_node sendto_ok 102 1002 9 "zz" m2 = (-1, m2) /\
  fst (node_manager_remove_node sendto_ok 102 1002 9 "a" m2) = 0 /\
  map inst_id
      (mgr_instances (snd (node_manager_remove_node sendto_ok 102 1002 9
                                                    "a" m2)))
  = ["b"%string].
Proof.
  intros m1 m2.
  destruct (@remove_unlinks_first_match sendto_ok 102 1002 9 "zz" m2)
    as (Hnone & _).
  destruct (@remove_unlinks_first_match sendto_ok 102 1002 9 "a" m2)
    as (_ & Hsome).
  assert (E : exists n, nth_error (mgr_instances m2) 1 = Some n /\
                        inst_is_running n = false).
  { eexists. split; reflexivity. }
  destruct E as (n & En & Er).
  destruct (Hsome 1%nat n eq_refl En Er) as (H1 & _).
  split; [reflexivity|]. split; [reflexivity|].
  split; [exact (Hnone eq_refl)|].
  rewrite H1. split; reflexivity.
Defined.

(* ================================================================= *)
(** ** Instance manager: the allocator finds a free port if there is one *)

(** A scan that gives up has seen every port on its way in use. *)
Lemma scan_ports_none m k port :
  mgr_port_range_end m <= 65535 ->
  0 < mgr_port_range_start m ->
  mgr_port_range_start m <= port < mgr_port_range_end m ->
  scan_ports m k port = None ->
  forall i, 0 <= i < Z.of_nat k ->
    port_in_use m (mgr_port_range_start m +
                   (port - mgr_port_range_start m + i)
                     mod (mgr_port_range_end m - mgr_port_range_start m))
    = true.
Proof.
  intros Hend H0. revert port. induction k as [|k IH]; intros port Hr Hs i Hi;
    [cbn in Hi; lia|].
  cbn [scan_ports] in Hs.
  destruct (port_in_use m port) eqn:E; [|discriminate].
  set (n := mgr_port_range_end m - mgr_port_range_start m) in *.
  assert (Hn : 0 < n) by (subst n; lia).
  destruct (Z.eq_dec i 0) as [->|Hne].
  - rewrite Z.add_0_r, Z.mod_small by (subst n; lia).
    replace (mgr_port_range_start m + (port - mgr_port_range_start m))
      with port by lia.
    exact E.
  - rewrite u16_small in Hs by lia.
    set (port' := if port + 1 >=? mgr_port_range_end m
                  then mgr_port_range_start m else port + 1) in *.
    assert (Hr' : mgr_port_range_start m <= port' < mgr_port_range_end m).
    { subst port'. destruct (port + 1 >=? mgr_port_range_end m) eqn:G;
        [lia|]. rewrite Z.geb_leb in G. apply Z.leb_gt in G. lia. }
    assert (Hp' : port' - mgr_port_range_start m
                  = (port - mgr_port_range_start m + 1) mod n).
    { subst port'. destruct (port + 1 >=? mgr_port_range_end m) eqn:G.
      - rewrite Z.geb_leb in G. apply Z.leb_le in G.
        replace (port - mgr_port_range_start m + 1) with n by (subst n; lia).
        rewrite Z.mod_same by lia. lia.
      - rewrite Z.geb_leb in G. apply Z.leb_gt in G.
        rewrite Z.mod_small by (subst n; lia). lia. }
    specialize (IH port' Hr' Hs (i - 1) ltac:(lia)).
    rewrite Hp', Zplus_mod_idemp_l in IH.
    replace (port - mgr_port_range_start m + 1 + (i - 1))
      with (port - mgr_port_range_start m + i) in IH by lia.
    exact IH.
Qed.

(** X19.  The allocator, on a manager whose cursor is in range, finds a
    free port whenever the range has one.  A port it returns lies in
    [port_range_start, port_range_end) and is neither the membership port
    nor the application port of any instance; it answers 0 only when
    every port of the range is held by an instance.  Either way the
    instances are not touched and the cursor stays in range. *)
Theorem allocator_finds_free_port :
  forall (m : node_manager_t),
    cursor_in_range m ->
    let r := node_manager_allocate_port m in
    (fst r <> 0 ->
     mgr_port_range_start m <= fst r < mgr_port_range_end m /\
     port_free m (fst r)) /\
    (fst r = 0 ->
     forall q, mgr_port_range_start m <= q < mgr_port_range_end m ->
               port_in_use m q = true) /\
    cursor_in_range (snd r) /\
    mgr_instances (snd r) = mgr_instances m.
Proof.
  intros m Hc r. subst r.
  pose proof (allocate_port_safe Hc) as S.
  destruct (node_manager_allocate_port m) as (port, m') eqn:Er.
  cbn [fst snd].
  destruct S as (S1 & S2 & S3 & _).
  split; [intros Hne; destruct S1 as [->|S1]; [congruence|exact S1]|].
  split; [|split; assumption].
  intros Hz q Hq. destruct Hc as (H0 & Hend & Hcur).
  assert (Hlt : mgr_port_range_start m < mgr_port_range_end m) by lia.
  specialize (Hcur Hlt).
  unfold node_manager_allocate_port in Er.
  destruct (scan_ports m _ _) as [x|] eqn:Hs.
  - destruct (@scan_ports_sound m _ _ x Hend Hcur H0 Hs) as (Hx & _).
    inversion Er; subst. lia.
  - set (n := mgr_port_range_end m - mgr_port_range_start m) in *.
    pose proof (@scan_ports_none m _ _ Hend H0 Hcur Hs
                  ((q - mgr_next_available_port m) mod n)) as H.
    assert (Hi : 0 <= (q - mgr_next_available_port m) mod n
                 < Z.of_nat (Z.to_nat n)).
    { rewrite Z2Nat.id by lia. apply Z.mod_pos_bound. lia. }
    specialize (H Hi). fold n in H.
    rewrite Zplus_mod_idemp_r in H.
    replace (mgr_next_available_port m - mgr_port_range_start m +
             (q - mgr_next_available_port m))
      with (q - mgr_port_range_start m) in H by lia.
    rewrite Z.mod_small in H by (subst n; lia).
    replace (mgr_port_range_start m + (q - mgr_port_range_start m))
      with q in H by lia.
    exact H.
Qed.

Lemma allocator_finds_free_port_witness :
  let m0 := node_manager_init "srv" 7946 7950 in
  let m1 := snd (node_manager_create_node sock_always sendto_ok 100 1000 7
                                          auto_config m0) in
  let m2 := snd (node_manager_create_node sock_always sendto_ok 101 1001 8
                                          auto_config m1) in
  cursor_in_range m1 /\ cursor_in_range m2 /\
  fst (node_manager_allocate_port m1) = 7948 /\
  port_free m1 7948 /\
  fst (node_manager_allocate_port m2) = 0 /\
  port_in_use m2 7949 = true.
Proof.
  intros m0 m1 m2.
  assert (C1 : cursor_in_range m1).
  { unfold cursor_in_range. vm_compute. repeat split; congruence. }
  assert (C2 : cursor_in_range m2).
  { unfold cursor_in_range. vm_compute. repeat split; congruence. }
  destruct (@allocator_finds_free_port m1 C1) as (H1 & _).
  destruct (@allocator_finds_free_port m2 C2) as (_ & H2 & _).
  assert (E1 : fst (node_manager_allocate_port m1) = 7948) by reflexivity.
  assert (E2 : fst (node_manager_allocate_port m2) = 0) by reflexivity.
  split; [exact C1|]. split; [exact C2|]. split; [exact E1|].
  split; [rewrite <- E1; apply H1; rewrite E1; discriminate|].
  split; [exact E2|]. apply (H2 E2). vm_compute. split; congruence.
Defined.

(* ================================================================= *)
(** ** Instance manager: starting all instances *)

Lemma mgr_with_same_instances m :
  mgr_with_instances (mgr_instances m) (mgr_instance_count m) m = m.
Proof. destruct m; reflexivity. Qed.

Lemma start_node_spec now_s id m :
  node_manager_start_node now_s id m
  = match node_manager_get_node m id with
    | Some p => (0, on_instance p (started now_s) m)
    | None => (-1, m)
    end.
Proof.
  unfold node_manager_start_node.
  destruct (node_manager_get_node m id) as [p|] eqn:G; [|reflexivity].
  destruct (find_ptr_some _ _ G) as (n & Hn & _). rewrite Hn.
  unfold on_instance. rewrite Hn. unfold started.
  destruct (inst_is_running n); [|reflexivity].
  rewrite (store_same _ _ Hn), mgr_with_same_instances. reflexivity.
Qed.

Lemma find_ptr_map (A B : Type) (g : A -> B) (f : B -> bool) (l : list A) :
  find_ptr f (map g l) = find_ptr (fun x => f (g x)) l.
Proof.
  induction l as [|h t IH]; [reflexivity|]. cbn. rewrite IH. reflexivity.
Qed.

Lemma get_node_by_ids m m' id :
  map inst_id (mgr_instances m') = map inst_id (mgr_instances m) ->
  node_manager_get_node m' id = node_manager_get_node m id.
Proof.
  intros E. unfold node_manager_get_node.
  rewrite <- (find_ptr_map inst_id (fun i => streq i id) (mgr_instances m')).
  rewrite <- (find_ptr_map inst_id (fun i => streq i id) (mgr_instances m)).
  rewrite E. reflexivity.
Qed.

Lemma started_id now_s n : inst_id (started now_s n) = inst_id n.
Proof. unfold started. destruct (inst_is_running n); reflexivity. Qed.

Lemma started_twice now_s now_s' n :
  started now_s' (started now_s n) = started now_s n.
Proof.
  unfold started. destruct (inst_is_running n) eqn:E; [rewrite E|];
    reflexivity.
Qed.

Lemma on_instance_started_ids now_s p m :
  map inst_id (mgr_instances (on_instance p (started now_s) m))
  = map inst_id (mgr_instances m).
Proof.
  unfold on_instance.
  destruct (nth_error (mgr_instances m) p) as [n|] eqn:E; [|reflexivity].
  cbn [mgr_with_instances mgr_instances].
  apply (@map_store _ _ inst_id p (started now_s n) (mgr_instances m) n E).
  apply started_id.
Qed.

Lemma get_node_none_in m id :
  node_manager_get_node m id = None ->
  forall x, In x (mgr_instances m) -> streq (inst_id x) id = false.
Proof.
  intros H x Hx.
  apply (find_ptr_none (fun n => streq (inst_id n) id) _ H x Hx).
Qed.

Lemma get_node_in m id :
  In id (map inst_id (mgr_instances m)) ->
  exists p, node_manager_get_node m id = Some p.
Proof.
  intros Hin. destruct (node_manager_get_node m id) as [p|] eqn:G; [eauto|].
  apply in_map_iff in Hin. destruct Hin as (x & <- & Hx).
  pose proof (get_node_none_in _ _ G x Hx) as F.
  rewrite streq_refl in F. discriminate.
Qed.

(** The walk of [node_manager_start_all] over any list of ids. *)
Lemma start_all_walk now_s ids :
  forall acc : Z * node_manager_t,
    (forall id, In id ids -> In id (map inst_id (mgr_instances (snd acc)))) ->
    let r := fold_left
               (fun (acc : Z * node_manager_t) id =>
                  let (rc, m') := node_manager_start_node now_s id (snd acc) in
                  (if rc =? 0 then fst acc + 1 else fst acc, m'))
               ids acc in
    fst r = fst acc + Z.of_nat (List.length ids) /\
    (mgr_instance_count (snd r) = mgr_instance_count (snd acc) /\
     List.length (mgr_instances (snd r))
     = List.length (mgr_instances (snd acc))) /\
    forall q x,
      nth_error (mgr_instances (snd acc)) q = Some x ->
      nth_error (mgr_instances (snd r)) q
      = Some (if found_by_id (snd acc) q x &&
                 existsb (fun id => streq (inst_id x) id) ids
              then started now_s x else x).
Proof.
  induction ids as [|id ids IH]; intros acc Hin.
  - cbn. split; [lia|]. split; [split; reflexivity|]. intros q x Hx.
    rewrite andb_false_r. exact Hx.
  - cbn [fold_left]. rewrite start_node_spec.
    destruct (get_node_in (snd acc) id (Hin id (or_introl eq_refl)))
      as (p & G).
    rewrite G. change (0 =? 0) with true. cbv iota.
    set (m' := on_instance p (started now_s) (snd acc)).
    assert (Hids : map inst_id (mgr_instances m')
                   = map inst_id (mgr_instances (snd acc)))
      by apply on_instance_started_ids.
    destruct (IH (fst acc + 1, m')) as (I1 & I2 & I3).
    { intros i Hi. cbn [snd]. rewrite Hids. apply Hin. right. exact Hi. }
    cbn [fst snd] in I1, I2, I3.
    split; [rewrite I1; cbn [List.length]; lia|].
    split.
    { destruct I2 as (I2 & I2'). rewrite I2, I2'. subst m'.
      unfold on_instance.
      destruct (nth_error (mgr_instances (snd acc)) p);
        [|split; reflexivity].
      cbn [mgr_with_instances mgr_instances mgr_instance_count].
      rewrite store_length. split; reflexivity. }
    intros q x Hx.
    destruct (find_ptr_some _ _ G) as (y & Hy & Ey).
    assert (Hm' : mgr_instances m'
                  = store p (started now_s y) (mgr_instances (snd acc))).
    { subst m'. unfold on_instance. rewrite Hy. reflexivity. }
    assert (Hfound : forall z, inst_id z = inst_id x ->
                               found_by_id m' q z = found_by_id (snd acc) q x).
    { intros z Hz. unfold found_by_id. rewrite Hz.
      rewrite (get_node_by_ids _ _ _ Hids). reflexivity. }
    destruct (Nat.eq_dec p q) as [->|Hne].
    + rewrite Hx in Hy. inversion Hy; subst y.
      assert (Hq : nth_error (mgr_instances m') q = Some (started now_s x)).
      { rewrite Hm'. eapply nth_error_store_same. exact Hx. }
      rewrite (I3 q _ Hq), (Hfound _ (started_id now_s x)).
      rewrite started_id, started_twice.
      cbn [existsb]. rewrite Ey. cbn [orb].
      assert (F : found_by_id (snd acc) q x = true).
      { unfold found_by_id. unfold streq in Ey. apply String.eqb_eq in Ey.
        rewrite Ey, G. apply Nat.eqb_refl. }
      rewrite F. cbn [andb].
      destruct (existsb _ ids); reflexivity.
    + assert (Hq : nth_error (mgr_instances m') q = Some x).
      { rewrite Hm', nth_error_store_other by exact Hne. exact Hx. }
      rewrite (I3 q _ Hq), (Hfound _ eq_refl). cbn [existsb].
      destruct (found_by_id (snd acc) q x) eqn:F; [|reflexivity].
      destruct (streq (inst_id x) id) eqn:S; [|reflexivity].
      exfalso. unfold found_by_id in F. unfold streq in S.
      apply String.eqb_eq in S. rewrite S, G in F.
      apply Nat.eqb_eq in F. contradiction.
Qed.

(** X20.  [node_manager_start_all] answers the number of instances, all of
    them, whatever their state was; the instances it starts are those a
    lookup of their id finds.  An instance behind another with the same
    id is counted as started and left exactly as it was; when the ids are
    distinct, every instance runs afterwards. *)
Theorem start_all_counts_every_instance :
  forall (now_s : Z) (m : node_manager_t),
    let r := node_manager_start_all now_s m in
    fst r = Z.of_nat (List.length (mgr_instances m)) /\
    node_manager_total_count (snd r) = node_manager_total_count m /\
    (forall q x,
        nth_error (mgr_instances m) q = Some x ->
        nth_error (mgr_instances (snd r)) q
        = Some (if found_by_id m q x then started now_s x else x)) /\
    (NoDup (map inst_id (mgr_instances m)) ->
     Forall (fun n => inst_is_running n = true) (mgr_instances (snd r))).
Proof.
  intros now_s m r.
  destruct (@start_all_walk now_s (map inst_id (mgr_instances m)) (0, m))
    as (H1 & H2 & H3); [intros id Hid; exact Hid|].
  cbn [fst snd] in H1, H2, H3. fold (node_manager_start_all now_s m) in *.
  fold r in H1, H2, H3. rewrite length_map in H1.
  assert (H4 : forall q x,
             nth_error (mgr_instances m) q = Some x ->
             nth_error (mgr_instances (snd r)) q
             = Some (if found_by_id m q x then started now_s x else x)).
  { intros q x Hx. rewrite (H3 q x Hx).
    assert (E : existsb (fun id => streq (inst_id x) id)
                        (map inst_id (mgr_instances m)) = true).
    { apply existsb_exists. exists (inst_id x). split; [|apply streq_refl].
      apply in_map. eapply nth_error_In. exact Hx. }
    rewrite E, andb_true_r. reflexivity. }
  destruct H2 as (H2 & Hlen).
  split; [lia|]. split; [exact H2|]. split; [exact H4|].
  intros Hnd. apply Forall_forall. intros y Hy.
  apply In_nth_error in Hy. destruct Hy as (q & Hq).
  destruct (nth_error (mgr_instances m) q) as [x|] eqn:Ex.
  - rewrite (H4 q x Ex) in Hq. inversion Hq; subst y; clear Hq.
    assert (F : found_by_id m q x = true).
    { unfold found_by_id.
      destruct (get_node_in m (inst_id x)) as (p & G).
      { apply in_map. eapply nth_error_In. exact Ex. }
      rewrite G. apply Nat.eqb_eq.
      destruct (find_ptr_some _ _ G) as (z & Hz & Ez).
      unfold streq in Ez. apply String.eqb_eq in Ez.
      rewrite NoDup_nth_error in Hnd. apply Hnd.
      - rewrite length_map. apply nth_error_Some. congruence.
      - rewrite !nth_error_map, Hz, Ex. cbn. congruence. }
    rewrite F. unfold started.
    destruct (inst_is_running x) eqn:R; [exact R|reflexivity].
  - exfalso. apply nth_error_None in Ex.
    assert (A : nth_error (mgr_instances (snd r)) q <> None) by congruence.
    apply nth_error_Some in A. lia.
Qed.

Lemma start_all_counts_every_instance_witness :
  let m1 := snd (node_manager_create_node sock_always sendto_ok 100 1000 7
                   (mk_config "a" 0 0 false false "" 0)
                   (node_manager_init "srv" 7946 7956)) in
  let m2 := snd (node_manager_create_node sock_always sendto_ok 101 1001 8
                   (mk_config "a" 0 0 false false "" 0) m1) in
  let r := node_manager_start_all 102 m2 in
  fst r = 2 /\
  map inst_is_running (mgr_instances (snd r)) = [true; false] /\
  node_manager_running_count (snd r) = 1.
Proof.
  intros m1 m2 r.
  destruct (@start_all_counts_every_instance 102 m2) as (H1 & _ & H3 & _).
  fold r in H1, H3.
  assert (E : exists x y, mgr_instances m2 = [x; y] /\
                          inst_is_running y = false).
  { eexists. eexists. split; reflexivity. }
  destruct E as (x & y & E & Ry).
  assert (L : List.length (mgr_instances (snd r)) = 2%nat) by reflexivity.
  pose proof (H3 0%nat x) as A0. pose proof (H3 1%nat y) as A1.
  rewrite E in A0, A1. specialize (A0 eq_refl). specialize (A1 eq_refl).
  assert (F0 : found_by_id m2 0 x = true).
  { unfold found_by_id, node_manager_get_node. rewrite E. cbn [find_ptr].
    rewrite streq_refl. reflexivity. }
  assert (F1 : found_by_id m2 1 y = false).
  { unfold found_by_id, node_manager_get_node. rewrite E. cbn [find_ptr].
    assert (I : inst_id x = inst_id y).
    { assert (I2 : map inst_id (mgr_instances m2) = ["a"; "a"]%string)
        by reflexivity.
      rewrite E in I2. cbn in I2. inversion I2. congruence. }
    rewrite I, streq_refl. reflexivity. }
  rewrite F0 in A0. rewrite F1 in A1.
  assert (Rx : inst_is_running (started 102 x) = true).
  { unfold started. destruct (inst_is_running x) eqn:R; [exact R|reflexivity]. }
  assert (S : mgr_instances (snd r) = [started 102 x; y]).
  { destruct (mgr_instances (snd r)) as [|a [|b [|c l]]]; try discriminate.
    cbn in A0, A1. inversion A0. inversion A1. reflexivity. }
  split; [rewrite H1, E; reflexivity|].
  unfold node_manager_running_count. rewrite S. cbn [map filter].
  rewrite Rx, Ry. split; reflexivity.
Defined.

(* ================================================================= *)
(** ** The message counters *)

Lemma assign_stats p g c :
  ctx_messages_sent (assign p g c) = ctx_messages_sent c /\
  ctx_messages_received (assign p g c) = ctx_messages_received c.
Proof.
  unfold assign. destruct (deref c p); split; reflexivity.
Qed.

Lemma set_main_stats b c :
  ctx_messages_sent (swim_set_main_node b c) = ctx_messages_sent c /\
  ctx_messages_received (swim_set_main_node b c) = ctx_messages_received c.
Proof.
  unfold swim_set_main_node.
  destruct (swim_get_local_node _) as [p|]; [|split; reflexivity].
  cbn [ctx_with_main ctx_messages_sent ctx_messages_received].
  match goal with |- context [assign p ?g ?c1] =>
    destruct (assign_stats p g c1) as (A1 & A2) end.
  rewrite A1, A2. split; reflexivity.
Qed.

Section Tally.
Variable U : Type.
Variable cb : option (swim_node_event_cb U).
Variable sendto : datagram_out -> bool.
Hypothesis cb_main : callback_sets_main_only cb.

Lemma tallies_same (w w' : world U) :
  w_sent w' = w_sent w ->
  ctx_messages_sent (w_ctx w') = ctx_messages_sent (w_ctx w) ->
  ctx_messages_received (w_ctx w') = ctx_messages_received (w_ctx w) ->
  tallies sendto 0 w w'.
Proof.
  intros E1 E2 E3. exists []. rewrite app_nil_r. split; [exact E1|].
  cbn. split; intros k Hk; rewrite Z.add_0_r; congruence.
Qed.

Lemma tallies_refl (w : world U) : tallies sendto 0 w w.
Proof. apply tallies_same; reflexivity. Qed.

Lemma tallies_trans r1 r2 (w1 w2 w3 : world U) :
  tallies sendto r1 w1 w2 -> tallies sendto r2 w2 w3 ->
  tallies sendto (r1 + r2) w1 w3.
Proof.
  intros (n1 & S1 & A1 & B1) (n2 & S2 & A2 & B2). exists (n1 ++ n2).
  split; [rewrite S2, S1, app_assoc; reflexivity|]. split.
  - intros k Hk. rewrite (A2 _ (A1 _ Hk)), filter_app, length_app.
    f_equal. lia.
  - intros k Hk. rewrite (B2 _ (B1 _ Hk)). f_equal. lia.
Qed.

Lemma tallies_step (w1 w2 w3 : world U) :
  tallies sendto 0 w1 w2 -> tallies sendto 0 w2 w3 -> tallies sendto 0 w1 w3.
Proof. intros H1 H2. apply (tallies_trans H1 H2). Qed.

Lemma tallies_assign p g (w : world U) :
  tallies sendto 0 w (on_ctx (assign p g) w).
Proof.
  destruct (assign_stats p g (w_ctx w)) as (A1 & A2).
  apply tallies_same; [reflexivity|exact A1|exact A2].
Qed.

Lemma tallies_fold (A : Type) (f : world U -> A -> world U) l :
  (forall w x, tallies sendto 0 w (f w x)) ->
  forall w, tallies sendto 0 w (fold_left f l w).
Proof.
  intros Hf. induction l as [|x l IH]; intros w; cbn; [apply tallies_refl|].
  eapply tallies_step; [apply Hf|apply IH].
Qed.

Lemma tallies_notify n old new (w : world U) :
  tallies sendto 0 w (notify cb n old new w).
Proof.
  unfold notify. destruct cb as [f|] eqn:E; [|apply tallies_refl].
  pose proof (cb_main eq_refl n old new (w_ctx w) (w_user w)) as H.
  destruct (f n old new (w_ctx w) (w_user w)) as (c', u'). cbn in H.
  destruct H as [->| ->].
  - apply tallies_same; reflexivity.
  - destruct (set_main_stats true (w_ctx w)) as (A1 & A2).
    apply tallies_same; [reflexivity|exact A1|exact A2].
Qed.

Lemma tallies_update_state now p st (w : world U) :
  tallies sendto 0 w (swim_update_node_state cb now p st w).
Proof.
  unfold swim_update_node_state.
  destruct (deref (w_ctx w) p) as [n|]; [|apply tallies_refl].
  destruct (node_state n =? st); [apply tallies_refl|].
  eapply tallies_step; [apply tallies_assign|apply tallies_notify].
Qed.

Lemma tallies_add_node now node (w : world U) :
  tallies sendto 0 w (swim_add_node cb now node w).
Proof.
  unfold swim_add_node.
  destruct (swim_find_node (w_ctx w) (node_id node)) as [p|].
  - match goal with |- context [on_ctx (assign p ?g) w] =>
      pose proof (tallies_assign p g w) as G;
      set (w1 := on_ctx (assign p g) w) in * end.
    destruct (deref (w_ctx w1) p) as [e|]; [|exact G].
    destruct (negb (node_state e =? node_state node)); [|exact G].
    eapply tallies_step; [exact G|apply tallies_update_state].
  - eapply tallies_step; [|apply tallies_notify].
    apply tallies_same; reflexivity.
Qed.

Lemma tallies_transmit d (w : world U) :
  tallies sendto 0 w (snd (transmit sendto d w)).
Proof.
  unfold transmit. cbn [snd]. exists [d]. split; [reflexivity|].
  cbn [filter w_ctx]. destruct (sendto d); cbn; split; intros k Hk.
  - rewrite Hk. apply u64_succ_u64.
  - rewrite Z.add_0_r. exact Hk.
  - rewrite Z.add_0_r. exact Hk.
  - rewrite Z.add_0_r. exact Hk.
Qed.

Lemma tallies_send_ping target (w : world U) :
  tallies sendto 0 w (swim_send_ping sendto target w).
Proof.
  unfold swim_send_ping.
  destruct (deref (w_ctx w) target) as [t|]; [|apply tallies_refl].
  match goal with |- context [transmit sendto ?d ?w1] =>
    pose proof (tallies_transmit d w1) as G;
    destruct (transmit sendto d w1) as (ok, w2) end.
  cbn [snd] in G.
  assert (G1 : tallies sendto 0 w w2).
  { eapply tallies_step; [|exact G]. apply tallies_same; reflexivity. }
  destruct ok; [|exact G1].
  eapply tallies_step; [exact G1|apply tallies_assign].
Qed.

Lemma tallies_send_ack target seq (w : world U) :
  tallies sendto 0 w (swim_send_ack sendto target seq w).
Proof.
  unfold swim_send_ack.
  destruct (deref (w_ctx w) target) as [t|]; [|apply tallies_refl].
  apply tallies_transmit.
Qed.

Lemma tallies_send_sync target (w : world U) :
  tallies sendto 0 w (swim_send_sync sendto target w).
Proof.
  unfold swim_send_sync.
  destruct (deref (w_ctx w) target) as [t|]; [|apply tallies_refl].
  eapply tallies_step; [|apply tallies_transmit].
  apply tallies_same; reflexivity.
Qed.

Lemma tallies_sync_merge_record now upd (w : world U) :
  tallies sendto 0 w (sync_merge_record cb now upd w).
Proof.
  unfold sync_merge_record.
  destruct (streq _ _); [apply tallies_refl|].
  destruct (swim_find_node (w_ctx w) (upd_id upd)) as [p|].
  - destruct (deref (w_ctx w) p) as [n|]; [|apply tallies_refl].
    destruct (upd_incarnation upd >? node_incarnation n);
      [|apply tallies_refl].
    match goal with |- context [on_ctx (assign p ?g) w] =>
      pose proof (tallies_assign p g w) as G end.
    destruct (negb (node_state n =? upd_state upd)); [|exact G].
    eapply tallies_step; [exact G|apply tallies_update_state].
  - apply tallies_add_node.
Qed.

Lemma tallies_sync_merge now dg (w : world U) :
  tallies sendto 0 w (sync_merge cb now dg w).
Proof.
  unfold sync_merge. apply tallies_fold. intros w0 i.
  apply tallies_sync_merge_record.
Qed.

Lemma tallies_refresh_sender now addr port h (w : world U) :
  tallies sendto 0 w (snd (refresh_sender cb now addr port h w)).
Proof.
  unfold refresh_sender.
  match goal with |- context [let '(sender, w1) := ?e in _] =>
    assert (G : tallies sendto 0 w (snd e));
    [|destruct e as (sender, w1)] end.
  { destruct (swim_find_node (w_ctx w) (hdr_sender_id h));
      [apply tallies_refl|].
    destruct (negb (hdr_type h =? SWIM_MSG_SYNC)); [|apply tallies_refl].
    cbn [snd]. apply tallies_add_node. }
  cbn [snd] in G. destruct sender as [p|]; [|exact G]. cbn [snd].
  set (w2 := on_ctx (assign p (node_with_last_seen now)) w1).
  assert (G2 : tallies sendto 0 w w2).
  { eapply tallies_step; [exact G|apply tallies_assign]. }
  match goal with |- context [match deref (w_ctx ?w3e) p with _ => _ end] =>
    assert (G3 : tallies sendto 0 w w3e); [|set (w3 := w3e) in *] end.
  { destruct (deref (w_ctx w2) p) as [s|]; [|exact G2].
    destruct (negb (node_state s =? NODE_STATE_ALIVE)); [|exact G2].
    eapply tallies_step; [exact G2|apply tallies_update_state]. }
  destruct (deref (w_ctx w3) p) as [s|]; [|exact G3].
  destruct (hdr_incarnation h >? node_incarnation s); [|exact G3].
  eapply tallies_step; [exact G3|apply tallies_assign].
Qed.

Lemma tallies_handle_message now addr port dg (w : world U) :
  tallies sendto
          (if in_len dg <? sizeof_swim_message_header_t then 0 else 1)
          w (swim_handle_message cb sendto now addr port dg w).
Proof.
  unfold swim_handle_message.
  destruct (in_len dg <? sizeof_swim_message_header_t);
    [apply tallies_refl|].
  assert (G0 : tallies sendto 1 w (on_ctx ctx_bump_received w)).
  { exists []. rewrite app_nil_r. split; [reflexivity|]. cbn.
    split; intros k Hk; [rewrite Z.add_0_r; exact Hk|].
    rewrite Hk. apply u64_succ_u64. }
  pose proof (tallies_refresh_sender now addr port (in_header dg)
                (on_ctx ctx_bump_received w)) as G.
  destruct (refresh_sender cb now addr port (in_header dg)
              (on_ctx ctx_bump_received w)) as (sender, w1).
  cbn [snd] in G.
  assert (G1 : tallies sendto 1 w w1) by apply (tallies_trans G0 G).
  assert (T : forall w', tallies sendto 0 w1 w' -> tallies sendto 1 w w')
    by (intros w' H; apply (tallies_trans G1 H)).
  destruct (hdr_type (in_header dg) =? SWIM_MSG_PING).
  { destruct sender; [|exact G1]. apply T, tallies_send_ack. }
  destruct (hdr_type (in_header dg) =? SWIM_MSG_PING_REQ).
  { destruct (swim_find_node (w_ctx w1) (in_target_id dg)); [|exact G1].
    apply T, tallies_send_ping. }
  destruct (hdr_type (in_header dg) =? SWIM_MSG_ACK).
  { destruct sender as [p|]; [|exact G1].
    set (w2 := on_ctx ctx_bump_probe_success w1).
    assert (G2 : tallies sendto 0 w1 w2) by (apply tallies_same; reflexivity).
    destruct (deref (w_ctx w2) p) as [s|]; [|apply T; exact G2].
    destruct (node_state s =? NODE_STATE_SUSPECT); [|apply T; exact G2].
    apply T. eapply tallies_step; [exact G2|apply tallies_update_state]. }
  destruct (hdr_type (in_header dg) =? SWIM_MSG_SYNC); [|exact G1].
  apply T, tallies_sync_merge.
Qed.

Lemma tallies_process now inbox (w : world U) :
  tallies sendto (frames_counted inbox) w
          (swim_process cb sendto now inbox w).
Proof.
  revert w; induction inbox as [|[[addr port] dg] inbox IH]; intros w;
    cbn [swim_process frames_counted]; [apply tallies_refl|].
  destruct (in_len dg <=? 0); [apply tallies_refl|].
  eapply tallies_trans; [apply tallies_handle_message|apply IH].
Qed.

Lemma tallies_check_timeouts now (w : world U) :
  tallies sendto 0 w (swim_check_timeouts cb now w).
Proof.
  unfold swim_check_timeouts. apply tallies_fold. intros w0 p.
  unfold check_timeout_at.
  destruct (deref (w_ctx w0) p) as [n|]; [|apply tallies_refl].
  destruct (negb (node_is_local n)); [|apply tallies_refl].
  destruct (_ && _).
  - eapply tallies_step; [apply tallies_update_state|].
    apply tallies_same; reflexivity.
  - destruct (_ && _); [apply tallies_update_state|apply tallies_refl].
Qed.

Lemma tallies_gossip_round now rnd k (w : world U) :
  tallies sendto 0 w (snd (swim_gossip_round cb sendto now rnd k w)).
Proof.
  unfold swim_gossip_round.
  pose proof (tallies_check_timeouts now w) as G.
  destruct (swim_select_random_node rnd _) as [t|]; [|exact G].
  assert (G1 : tallies sendto 0 w
                 (swim_send_ping sendto t (swim_check_timeouts cb now w)))
    by (eapply tallies_step; [exact G|apply tallies_send_ping]).
  destruct (k + 1 >=? 5); cbn [snd]; [|exact G1].
  eapply tallies_step; [exact G1|apply tallies_send_sync].
Qed.

Lemma tallies_join now address port (w : world U) :
  tallies sendto 0 w (swim_join cb sendto now address port w).
Proof.
  unfold swim_join.
  match goal with |- context [swim_add_node cb now ?n w] =>
    pose proof (tallies_add_node now n w) as G;
    set (w1 := swim_add_node cb now n w) in * end.
  destruct (swim_find_node (w_ctx w1) _) as [seed|]; [|exact G].
  eapply tallies_step; [exact G|].
  eapply tallies_step; [apply tallies_send_ping|apply tallies_send_sync].
Qed.

Lemma tallies_leave now (w : world U) :
  tallies sendto 0 w (swim_leave cb sendto now w).
Proof.
  unfold swim_leave.
  set (w1 := match swim_get_local_node (w_ctx w) with
             | Some local => swim_update_node_state cb now local NODE_STATE_LEFT w
             | None => w end).
  assert (G : tallies sendto 0 w w1).
  { subst w1. destruct (swim_get_local_node (w_ctx w));
      [apply tallies_update_state|apply tallies_refl]. }
  eapply tallies_step; [exact G|]. apply tallies_fold. intros w0 p.
  unfold leave_at. destruct (deref (w_ctx w0) p) as [n|];
    [|apply tallies_refl].
  destruct (_ && _); [apply tallies_send_sync|apply tallies_refl].
Qed.

End Tally.

(** X21.  The two message counters that [swim_get_stats] reports keep
    pace with the traffic.  Over the handling of a datagram, a drain of
    the socket, a gossip round, [swim_join] and [swim_leave] (callback
    absent or the coordinator's), [messages_sent] grows by exactly the
    number of protocol datagrams that [sendto] accepted, and
    [messages_received] by one for each datagram that holds a whole
    header, by nothing for a shorter one. *)
Theorem message_counters_keep_pace :
  forall (U : Type) (cb : option (swim_node_event_cb U))
         (sendto : datagram_out -> bool),
    callback_sets_main_only cb ->
    forall (w : world U) (now : Z),
      (forall addr port dg,
          tallies sendto
                  (if in_len dg <? sizeof_swim_message_header_t then 0 else 1)
                  w (swim_handle_message cb sendto now addr port dg w)) /\
      (forall inbox,
          tallies sendto (frames_counted inbox) w
                  (swim_process cb sendto now inbox w)) /\
      (forall rnd k,
          tallies sendto 0 w
                  (snd (swim_gossip_round cb sendto now rnd k w))) /\
      (forall address port,
          tallies sendto 0 w (swim_join cb sendto now address port w)) /\
      tallies sendto 0 w (swim_leave cb sendto now w).
Proof.
  intros U cb sendto Hcb w now.
  split; [intros; apply tallies_handle_message; exact Hcb|].
  split; [intros; apply tallies_process; exact Hcb|].
  split; [intros; apply tallies_gossip_round; exact Hcb|].
  split; [intros; apply tallies_join; exact Hcb|].
  apply tallies_leave; exact Hcb.
Qed.

Lemma message_counters_keep_pace_witness :
  let w := bare_world engine_a in
  let inbox := [("127.0.0.1"%string, 7947, ping_from "n2" 5 1);
                ("127.0.0.1"%string, 7947, ping_from "n2" 6 1)] in
  let w' := swim_process None sendto_ok 200 inbox w in
  callback_sets_main_only (@None (swim_node_event_cb unit)) /\
  swim_get_stats (w_ctx w) = (0, 0, 0, 0) /\
  List.length (w_sent w') = 2%nat /\
  ctx_messages_sent (w_ctx w') = 2 /\
  ctx_messages_received (w_ctx w') = 2.
Proof.
  intros w inbox w'.
  assert (Hcb : callback_sets_main_only (@None (swim_node_event_cb unit)))
    by apply no_callback_sets_main_only.
  destruct (@message_counters_keep_pace unit None sendto_ok Hcb w 200)
    as (_ & H & _).
  destruct (H inbox) as (new & S & A & B). fold w' in S, A, B.
  assert (L : List.length new = 2%nat).
  { apply (f_equal (@List.length _)) in S. rewrite length_app in S.
    assert (L' : List.length (w_sent w') = 2%nat) by reflexivity.
    rewrite L' in S. cbn in S. lia. }
  assert (F : filter sendto_ok new = new).
  { clear. induction new as [|d l IH]; [reflexivity|]. cbn. rewrite IH.
    reflexivity. }
  split; [exact Hcb|]. split; [reflexivity|].
  split; [rewrite S, length_app, L; reflexivity|].
  split.
  - rewrite (A 0 eq_refl), F, L. reflexivity.
  - rewrite (B 0 eq_refl). reflexivity.
Defined.
